(** * The prediction / accuracy feedback loop of the ETH price predictor

    A shallow embedding of the algorithmic core of the application:
    - the heuristic order-book signal generator, the outcome tracker, the
      accuracy aggregation and the bounded price history of [App.tsx];
    - the order-book feature extractor of [services/orderbookService.ts];
    - the indicator engine of [utils/technicalIndicators.ts].

    Numbers.  A JavaScript [number] is modelled as an exact rational ([Q]):
    every arithmetic step of the source is kept, in the order in which the
    source performs it, but binary64 rounding, overflow, signed zeros and
    non-finite inputs are outside the model.  Where the source can leave the
    finite numbers on finite inputs ([Math.max()] of an empty window) the
    model says so explicitly.  Equality of computed numbers is therefore
    stated with [==] ([Qeq]).  Millisecond time stamps are integers ([Z]),
    array lengths and counts are [nat].  [Date.now()] is an explicit
    argument [now]. *)

From Stdlib Require Import QArith Qabs Qminmax Qround Lqa Lia.
From Stdlib Require Import List ZArith Bool Arith Sorted.
Import ListNotations.

Local Open Scope Q_scope.

(* ================================================================== *)
(** * Part I: the program *)
(* ================================================================== *)

(** ** JavaScript number primitives *)

Module Js.

(** [x > y] and [x < y] on numbers. *)
Definition gtb (x y : Q) : bool := negb (Qle_bool x y).
Definition ltb (x y : Q) : bool := negb (Qle_bool y x).

(** [x === y] on numbers. *)
Definition eqb (x y : Q) : bool := Qeq_bool x y.

(** [Math.abs], [Math.max], [Math.min] (binary uses). *)
Definition abs (x : Q) : Q := Qabs x.
Definition max (x y : Q) : Q := Qmax x y.
Definition min (x y : Q) : Q := Qmin x y.

(** [arr.slice(-n)]: the last [n] elements (all of them when the array is
    shorter). *)
Definition slice_last {A} (n : nat) (l : list A) : list A :=
  skipn (length l - n) l.

(** [arr.slice(0, n)]. *)
Definition slice_first {A} (n : nat) (l : list A) : list A := firstn n l.

(** [arr.slice(a, b)] for [0 <= a <= b]. *)
Definition slice {A} (a b : nat) (l : list A) : list A :=
  firstn (b - a) (skipn a l).

(** [arr.reduce((a, b) => a + b, 0)]. *)
Definition sum (l : list Q) : Q := fold_left Qplus l 0.

End Js.

Infix ">?" := Js.gtb (at level 70, no associativity) : Q_scope.
Infix "<?" := Js.ltb (at level 70, no associativity) : Q_scope.

(** ** Data model ([types.ts]) *)

Record PriceData := mkPriceData {
  timestamp : Z;
  price : Q;      (* close price *)
  high : Q;
  low : Q
}.

(** ['15s' | '30s' | '60s'] *)
Inductive Timeframe := TF15s | TF30s | TF60s.

(** [OrderBookTimeframe = '5s' | '15s' | '30s' | '60s'] *)
Inductive OrderBookTimeframe := OT5s | OT15s | OT30s | OT60s.

Definition toOrderBookTimeframe (tf : Timeframe) : OrderBookTimeframe :=
  match tf with TF15s => OT15s | TF30s => OT30s | TF60s => OT60s end.

(** [PredictionDirection = 'UP' | 'DOWN'] (oracle predictions) *)
Inductive PredictionDirection := AI_UP | AI_DOWN.

(** [OrderBookPredictionDirection = 'UP' | 'DOWN' | 'NEUTRAL'] *)
Inductive OrderBookPredictionDirection := UP | DOWN | NEUTRAL.

Record OrderBookFeatureData := mkFeatures {
  mid_price : Q;
  spread : Q;
  bid_vol : Q;
  ask_vol : Q;
  imbalance : Q;
  weighted_mid : Q
}.

Record OrderBookPrediction := mkObPrediction {
  ob_timeframe : OrderBookTimeframe;
  ob_direction : OrderBookPredictionDirection;
  ob_confidence : Q;
  ob_timestamp : Z
}.

(** [PredictionResult] ([AiPrediction] with its metadata); the reasoning
    text plays no role in the tracker and is left out. *)
Record PredictionResult := mkAiPrediction {
  ai_timeframe : Timeframe;
  ai_direction : PredictionDirection;
  ai_confidence : Q;
  ai_timestamp : Z;
  priceAtPrediction : Q
}.

(** Status of a [PredictionOutcome]. *)
Inductive OutcomeStatus := PENDING | CORRECT | INCORRECT.

(** Status of an [OrderBookPredictionOutcome]. *)
Inductive OrderBookOutcomeStatus :=
  OB_PENDING | OB_CORRECT | OB_INCORRECT | OB_NEUTRAL.

Record PredictionOutcome := mkAiOutcome {
  ai_prediction : PredictionResult;
  ai_status : OutcomeStatus
}.

Record OrderBookPredictionOutcome := mkObOutcome {
  ob_prediction : OrderBookPrediction;
  ob_status : OrderBookOutcomeStatus
}.

(** One entry of [AccuracyStats] / [OrderBookAccuracyStats]. *)
Record Accuracy := mkAccuracy {
  correct : nat;
  total : nat;
  accuracy : Q
}.

Definition direction_eqb (a b : OrderBookPredictionDirection) : bool :=
  match a, b with
  | UP, UP | DOWN, DOWN | NEUTRAL, NEUTRAL => true
  | _, _ => false
  end.

(** ** Heuristic signal generator ([App.tsx], lines 27-80) *)

Module Heuristic.

(** Lines 34-36. *)
Definition baseDirection (currentFeatures : OrderBookFeatureData)
  : OrderBookPredictionDirection :=
  if imbalance currentFeatures >? 0.05 then UP
  else if imbalance currentFeatures <? -0.05 then DOWN
  else NEUTRAL.

(** Lines 38-54: the running [confidence] after the imbalance-momentum
    and the price-momentum adjustments. *)
Definition adjustedConfidence (currentFeatures : OrderBookFeatureData)
    (previousFeatures : option OrderBookFeatureData) (priceChange : Q) : Q :=
  let baseDirection := baseDirection currentFeatures in
  let confidence := Js.abs (imbalance currentFeatures) * 1.5 in
  let confidence :=
    match previousFeatures with
    | Some previousFeatures =>
        let imbalanceDelta :=
          imbalance currentFeatures - imbalance previousFeatures in
        if ((imbalanceDelta >? 0.01) && direction_eqb baseDirection UP)
           || ((imbalanceDelta <? -0.01) && direction_eqb baseDirection DOWN)
        then confidence + 0.15
        else if ((imbalanceDelta <? -0.01) && direction_eqb baseDirection UP)
             || ((imbalanceDelta >? 0.01) && direction_eqb baseDirection DOWN)
        then confidence - 0.15
        else confidence
    | None => confidence
    end in
  let priceMomentumThreshold := 0.1 in
  if ((priceChange >? priceMomentumThreshold)
      && direction_eqb baseDirection UP)
     || ((priceChange <? - priceMomentumThreshold)
         && direction_eqb baseDirection DOWN)
  then confidence + 0.1
  else if ((priceChange <? - priceMomentumThreshold)
           && direction_eqb baseDirection UP)
       || ((priceChange >? priceMomentumThreshold)
           && direction_eqb baseDirection DOWN)
  then confidence - 0.2
  else confidence.

(** Lines 56-79.  The source's parameter [accuracy] is called
    [accuracyEntry] here, [accuracy] being the field of the entry. *)
Definition generateSmartOrderBookPrediction (now : Z)
    (timeframe : Timeframe)
    (currentFeatures : OrderBookFeatureData)
    (previousFeatures : option OrderBookFeatureData)
    (priceChange : Q)
    (accuracyEntry : option Accuracy) : OrderBookPrediction :=
  let baseDirection := baseDirection currentFeatures in
  let confidence :=
    adjustedConfidence currentFeatures previousFeatures priceChange in
  let finalDirection :=
    if confidence <? 0.3 then NEUTRAL else baseDirection in
  let finalConfidence := Js.max 0 (Js.min 0.95 confidence) in
  let confidenceDecay :=
    match timeframe with
    | TF15s => 0
    | TF30s => 0.05
    | TF60s => 0.1
    end in
  let accuracyAdjustment :=
    match accuracyEntry with
    | Some a =>
        if (5 <? total a)%nat then (accuracy a - 0.5) * 0.1 else 0
    | None => 0
    end in
  {| ob_timeframe := toOrderBookTimeframe timeframe;
     ob_direction := finalDirection;
     ob_confidence :=
       Js.max 0 (Js.min 0.95
                   (finalConfidence - confidenceDecay + accuracyAdjustment));
     ob_timestamp := now |}.

(** *** The pipeline as the specification words it (section 4.3) *)

(** Step 1. *)
Definition spec_direction (imb : Q) : OrderBookPredictionDirection :=
  if Qlt_le_dec 0.05 imb then UP
  else if Qlt_le_dec imb (-0.05) then DOWN
  else NEUTRAL.

(** "agrees in sign with the base direction" / "opposite sign". *)
Definition agrees (d : OrderBookPredictionDirection) (delta : Q) : bool :=
  match d with
  | UP => 0 <? delta
  | DOWN => delta <? 0
  | NEUTRAL => false
  end.

Definition disagrees (d : OrderBookPredictionDirection) (delta : Q) : bool :=
  match d with
  | UP => delta <? 0
  | DOWN => 0 <? delta
  | NEUTRAL => false
  end.

(** A momentum term: [bonus] when [delta] agrees with the direction and
    exceeds [threshold] in magnitude, [- penalty] when it disagrees and
    exceeds it, nothing otherwise. *)
Definition spec_momentum (d : OrderBookPredictionDirection)
    (delta threshold bonus penalty : Q) : Q :=
  if agrees d delta && (Qabs delta >? threshold) then bonus
  else if disagrees d delta && (Qabs delta >? threshold) then - penalty
  else 0.

Definition clamp (lo hi x : Q) : Q := Qmax lo (Qmin hi x).

Definition spec_decay (tf : Timeframe) : Q :=
  match tf with TF15s => 0 | TF30s => 0.05 | TF60s => 0.1 end.

Definition spec_accuracy_adjustment (acc : option Accuracy) : Q :=
  match acc with
  | Some a => if (total a <=? 5)%nat then 0 else (accuracy a - 0.5) * 0.1
  | None => 0
  end.

(** Steps 1-4: confidence before the clamp. *)
Definition spec_raw_confidence (cur : OrderBookFeatureData)
    (prev : option OrderBookFeatureData) (priceChange : Q) : Q :=
  let d := spec_direction (imbalance cur) in
  Qabs (imbalance cur) * 1.5
  + match prev with
    | Some p => spec_momentum d (imbalance cur - imbalance p) 0.01 0.15 0.15
    | None => 0
    end
  + spec_momentum d priceChange 0.1 0.1 0.2.

(** Steps 6-9. *)
Definition spec_confidence (tf : Timeframe) (cur : OrderBookFeatureData)
    (prev : option OrderBookFeatureData) (priceChange : Q)
    (acc : option Accuracy) : Q :=
  clamp 0 0.95
    (clamp 0 0.95 (spec_raw_confidence cur prev priceChange)
     - spec_decay tf + spec_accuracy_adjustment acc).

End Heuristic.

(** ** Session constants ([App.tsx], lines 14-18) *)

Definition MAX_HISTORY_LENGTH : nat := 120.
Definition MAX_PREDICTION_HISTORY_ITEMS : nat := 15.
Definition MAX_OUTCOME_HISTORY : nat := 60.

(** ** Bounded histories *)

Module History.

(** Line 181: [[...prev, newPriceData].slice(-MAX_HISTORY_LENGTH)]. *)
Definition appendPrice (prev : list PriceData) (newPriceData : PriceData)
  : list PriceData :=
  Js.slice_last MAX_HISTORY_LENGTH (prev ++ [newPriceData]).

(** The buffer after a sequence of appends, oldest tick first. *)
Definition appendPrices (start ticks : list PriceData) : list PriceData :=
  fold_left appendPrice ticks start.

(** Line 226: a heuristic prediction enters the outcome history. *)
Definition addOrderBookOutcome (prev : list OrderBookPredictionOutcome)
    (newPrediction : OrderBookPrediction) : list OrderBookPredictionOutcome :=
  Js.slice_first MAX_OUTCOME_HISTORY
    ({| ob_prediction := newPrediction; ob_status := OB_PENDING |} :: prev).

(** Line 329: the oracle's predictions enter the outcome history. *)
Definition addAiOutcomes (prev : list PredictionOutcome)
    (predictionsWithMetadata : list PredictionResult)
  : list PredictionOutcome :=
  Js.slice_first MAX_OUTCOME_HISTORY
    (map (fun p => {| ai_prediction := p; ai_status := PENDING |})
         predictionsWithMetadata ++ prev).

End History.

(** ** Prediction outcome tracker ([App.tsx], lines 249-300) *)

Module Tracker.

(** Line 253.  The map has no entry for ['5s']: the lookup is [undefined]
    there and the comparison [>= undefined] of line 278 is false. *)
Definition timeframeMap (tf : OrderBookTimeframe) : option Z :=
  match tf with
  | OT15s => Some 15000%Z
  | OT30s => Some 30000%Z
  | OT60s => Some 60000%Z
  | OT5s => None
  end.

(** [Date.now() - timestamp >= timeframeMap[timeframe]]. *)
Definition horizonElapsed (now ts : Z) (tf : OrderBookTimeframe) : bool :=
  match timeframeMap tf with
  | Some horizon => (now - ts >=? horizon)%Z
  | None => false
  end.

Definition ai_direction_eqb (a b : PredictionDirection) : bool :=
  match a, b with
  | AI_UP, AI_UP | AI_DOWN, AI_DOWN => true
  | _, _ => false
  end.

(** Lines 257-267, the callback of [map]. *)
Definition resolveAiOutcome (now : Z) (latestPrice : Q)
    (outcome : PredictionOutcome) : PredictionOutcome :=
  match ai_status outcome with
  | PENDING =>
      let prediction := ai_prediction outcome in
      if horizonElapsed now (ai_timestamp prediction)
           (toOrderBookTimeframe (ai_timeframe prediction))
      then
        let actualDirection :=
          if latestPrice >? priceAtPrediction prediction
          then AI_UP else AI_DOWN in
        let newStatus :=
          if ai_direction_eqb actualDirection (ai_direction prediction)
          then CORRECT else INCORRECT in
        {| ai_prediction := ai_prediction outcome; ai_status := newStatus |}
      else outcome
  | _ => outcome
  end.

(** Line 279: [priceHistoryRef.current.find(p => p.timestamp >=
    prediction.timestamp)?.price]. *)
Definition findPriceAtPrediction (history : list PriceData) (ts : Z)
  : option Q :=
  option_map price (find (fun p => (timestamp p >=? ts)%Z) history).

(** Lines 275-291, the callback of [map]. *)
Definition resolveOrderBookOutcome (now : Z) (latestPrice : Q)
    (history : list PriceData) (outcome : OrderBookPredictionOutcome)
  : OrderBookPredictionOutcome :=
  match ob_status outcome with
  | OB_PENDING =>
      let prediction := ob_prediction outcome in
      if horizonElapsed now (ob_timestamp prediction) (ob_timeframe prediction)
      then
        match findPriceAtPrediction history (ob_timestamp prediction) with
        | None => outcome
        | Some priceAtPrediction =>
            if direction_eqb (ob_direction prediction) NEUTRAL
            then {| ob_prediction := ob_prediction outcome;
                    ob_status := OB_NEUTRAL |}
            else
              let actualDirection :=
                if latestPrice >? priceAtPrediction then UP else DOWN in
              let newStatus :=
                if direction_eqb actualDirection (ob_direction prediction)
                then OB_CORRECT else OB_INCORRECT in
              {| ob_prediction := ob_prediction outcome;
                 ob_status := newStatus |}
        end
      else outcome
  | _ => outcome
  end.

(** [arr.map(f)] where the callback reads the clock: [clock i] is the
    value of [Date.now()] while element [i] is visited. *)
Fixpoint mapAt {A B} (f : nat -> A -> B) (i : nat) (l : list A) : list B :=
  match l with
  | [] => []
  | x :: rest => f i x :: mapAt f (S i) rest
  end.

(** Content equality of two outcome histories, as decided by comparing
    their [JSON.stringify] images (lines 268 and 292). *)
Definition status_eqb (a b : OutcomeStatus) : bool :=
  match a, b with
  | PENDING, PENDING | CORRECT, CORRECT | INCORRECT, INCORRECT => true
  | _, _ => false
  end.

Definition ob_status_eqb (a b : OrderBookOutcomeStatus) : bool :=
  match a, b with
  | OB_PENDING, OB_PENDING | OB_CORRECT, OB_CORRECT
  | OB_INCORRECT, OB_INCORRECT | OB_NEUTRAL, OB_NEUTRAL => true
  | _, _ => false
  end.

Definition timeframe_eqb (a b : OrderBookTimeframe) : bool :=
  match a, b with
  | OT5s, OT5s | OT15s, OT15s | OT30s, OT30s | OT60s, OT60s => true
  | _, _ => false
  end.

Definition aiOutcome_eqb (a b : PredictionOutcome) : bool :=
  let p := ai_prediction a in
  let q := ai_prediction b in
  timeframe_eqb (toOrderBookTimeframe (ai_timeframe p))
                (toOrderBookTimeframe (ai_timeframe q))
  && ai_direction_eqb (ai_direction p) (ai_direction q)
  && Js.eqb (ai_confidence p) (ai_confidence q)
  && (ai_timestamp p =? ai_timestamp q)%Z
  && Js.eqb (priceAtPrediction p) (priceAtPrediction q)
  && status_eqb (ai_status a) (ai_status b).

Definition obOutcome_eqb (a b : OrderBookPredictionOutcome) : bool :=
  let p := ob_prediction a in
  let q := ob_prediction b in
  timeframe_eqb (ob_timeframe p) (ob_timeframe q)
  && direction_eqb (ob_direction p) (ob_direction q)
  && Js.eqb (ob_confidence p) (ob_confidence q)
  && (ob_timestamp p =? ob_timestamp q)%Z
  && ob_status_eqb (ob_status a) (ob_status b).

Fixpoint list_eqb {A} (eqb : A -> A -> bool) (l l' : list A) : bool :=
  match l, l' with
  | [], [] => true
  | x :: r, y :: r' => eqb x y && list_eqb eqb r r'
  | _, _ => false
  end.

(** Lines 255-271: the new value of [aiPredictionOutcomes]. *)
Definition resolveAiOutcomes (clock : nat -> Z) (latestPrice : Q)
    (aiPredictionOutcomes : list PredictionOutcome)
  : list PredictionOutcome :=
  if (length aiPredictionOutcomes =? 0)%nat then aiPredictionOutcomes
  else
    let updatedOutcomes :=
      mapAt (fun i outcome => resolveAiOutcome (clock i) latestPrice outcome)
            0 aiPredictionOutcomes in
    if negb (list_eqb aiOutcome_eqb updatedOutcomes aiPredictionOutcomes)
    then updatedOutcomes
    else aiPredictionOutcomes.

(** Lines 273-295: the new value of [orderBookOutcomes]. *)
Definition resolveOrderBookOutcomes (clock : nat -> Z) (latestPrice : Q)
    (history : list PriceData)
    (orderBookOutcomes : list OrderBookPredictionOutcome)
  : list OrderBookPredictionOutcome :=
  if (length orderBookOutcomes =? 0)%nat then orderBookOutcomes
  else
    let updatedOutcomes :=
      mapAt (fun i outcome =>
               resolveOrderBookOutcome (clock i) latestPrice history outcome)
            0 orderBookOutcomes in
    if negb (list_eqb obOutcome_eqb updatedOutcomes orderBookOutcomes)
    then updatedOutcomes
    else orderBookOutcomes.

(** The state the resolution effect reads and writes. *)
Record State := mkState {
  priceHistory : list PriceData;
  aiPredictionOutcomes : list PredictionOutcome;
  orderBookOutcomes : list OrderBookPredictionOutcome
}.

(** Line 250: [priceHistory[priceHistory.length - 1]?.price]. *)
Definition latestPrice (history : list PriceData) : option Q :=
  option_map price (nth_error history (length history - 1)).

(** Lines 249-300, one run of the effect.  It does nothing when there is
    no latest price or when that price is falsy (zero).  [aiClock] and
    [obClock] are the clock readings of the two passes. *)
Definition resolutionPass (aiClock obClock : nat -> Z) (st : State) : State :=
  match latestPrice (priceHistory st) with
  | None => st
  | Some latest =>
      if Js.eqb latest 0 then st
      else
        {| priceHistory := priceHistory st;
           aiPredictionOutcomes :=
             resolveAiOutcomes aiClock latest (aiPredictionOutcomes st);
           orderBookOutcomes :=
             resolveOrderBookOutcomes obClock latest (priceHistory st)
               (orderBookOutcomes st) |}
  end.

(** What happens between two runs of the effect as far as resolution is
    concerned: the price history is replaced by a newer one. *)
Record Update := mkUpdate {
  newHistory : list PriceData;
  aiClock : nat -> Z;
  obClock : nat -> Z
}.

Definition step (st : State) (u : Update) : State :=
  resolutionPass (aiClock u) (obClock u)
    {| priceHistory := newHistory u;
       aiPredictionOutcomes := aiPredictionOutcomes st;
       orderBookOutcomes := orderBookOutcomes st |}.

Definition run (st : State) (us : list Update) : State :=
  fold_left step us st.

(** *** The resolution rule as the specification words it (section 4.4) *)







End Tracker.

(** ** Accuracy aggregation *)

Module AccuracyStats.

(** [correct / relevant.length]. *)
Definition ratio (correct total : nat) : Q :=
  inject_Z (Z.of_nat correct) / inject_Z (Z.of_nat total).

(** Line 192. *)
Definition relevantOrderBookOutcomes (tf : Timeframe)
    (outcomes : list OrderBookPredictionOutcome)
  : list OrderBookPredictionOutcome :=
  filter (fun o =>
            Tracker.timeframe_eqb (ob_timeframe (ob_prediction o))
                                  (toOrderBookTimeframe tf)
            && negb (direction_eqb (ob_direction (ob_prediction o)) NEUTRAL)
            && negb (Tracker.ob_status_eqb (ob_status o) OB_PENDING))
         outcomes.

(** Lines 189-199: [orderBookAccuracyStats[tf]]. *)
Definition orderBookAccuracyStats
    (outcomes : list OrderBookPredictionOutcome) (tf : Timeframe)
  : option Accuracy :=
  let relevant := relevantOrderBookOutcomes tf outcomes in
  if (0 <? length relevant)%nat then
    let correct :=
      length (filter (fun o => Tracker.ob_status_eqb (ob_status o) OB_CORRECT)
                     relevant) in
    Some {| correct := correct;
            total := length relevant;
            accuracy := ratio correct (length relevant) |}
  else None.

(** Lines 309-316: the statistics handed to the oracle. *)
Definition aiAccuracyStats (outcomes : list PredictionOutcome)
    (tf : Timeframe) : option Accuracy :=
  let relevant :=
    filter (fun o =>
              Tracker.timeframe_eqb
                (toOrderBookTimeframe (ai_timeframe (ai_prediction o)))
                (toOrderBookTimeframe tf)
              && negb (Tracker.status_eqb (ai_status o) PENDING))
           outcomes in
  if (0 <? length relevant)%nat then
    let correct :=
      length (filter (fun o => Tracker.status_eqb (ai_status o) CORRECT)
                     relevant) in
    Some {| correct := correct;
            total := length relevant;
            accuracy := ratio correct (length relevant) |}
  else None.

(** *** The aggregate as the specification words it (section 4.5) *)

(** An outcome qualifies for a horizon when it is of that horizon, its
    status is not PENDING and its predicted direction is not NEUTRAL. *)
Definition qualifies (tf : Timeframe) (o : OrderBookPredictionOutcome)
  : Prop :=
  ob_timeframe (ob_prediction o) = toOrderBookTimeframe tf
  /\ ob_status o <> OB_PENDING
  /\ ob_direction (ob_prediction o) <> NEUTRAL.

(** Number of entries of a history that qualify / qualify and are
    CORRECT, counted entry by entry. *)
Fixpoint spec_total (tf : Timeframe)
    (outcomes : list OrderBookPredictionOutcome) : nat :=
  match outcomes with
  | [] => 0
  | o :: rest =>
      match ob_timeframe (ob_prediction o), toOrderBookTimeframe tf,
            ob_status o, ob_direction (ob_prediction o) with
      | _, _, OB_PENDING, _ => spec_total tf rest
      | _, _, _, NEUTRAL => spec_total tf rest
      | OT15s, OT15s, _, _ | OT30s, OT30s, _, _ | OT60s, OT60s, _, _ =>
          S (spec_total tf rest)
      | _, _, _, _ => spec_total tf rest
      end
  end.

Fixpoint spec_correct (tf : Timeframe)
    (outcomes : list OrderBookPredictionOutcome) : nat :=
  match outcomes with
  | [] => 0
  | o :: rest =>
      match ob_timeframe (ob_prediction o), toOrderBookTimeframe tf,
            ob_status o, ob_direction (ob_prediction o) with
      | _, _, _, NEUTRAL => spec_correct tf rest
      | OT15s, OT15s, OB_CORRECT, _ | OT30s, OT30s, OB_CORRECT, _
      | OT60s, OT60s, OB_CORRECT, _ => S (spec_correct tf rest)
      | _, _, _, _ => spec_correct tf rest
      end
  end.

End AccuracyStats.

(** ** Order-book feature extractor ([orderbookService.ts], lines 33-70) *)

Module OrderBook.

(** A level [[price, quantity]] after [parseFloat]. *)
Definition Level : Type := (Q * Q)%type.

Record Book := mkBook {
  bids : list Level;
  asks : list Level
}.

(** Lines 49-50: [levels.slice(0, 10).reduce((sum, level) => sum +
    level[1], 0)]. *)
Definition volume (levels : list Level) : Q :=
  fold_left (fun sum level => sum + snd level) (Js.slice_first 10 levels) 0.

(** Lines 34-65, from the fetched book ([None] when the fetch failed). *)
Definition getOrderBookFeatures (orderBook : option Book)
  : option OrderBookFeatureData :=
  match orderBook with
  | None => None
  | Some orderBook =>
      match bids orderBook, asks orderBook with
      | [], _ | _, [] => None
      | (best_bid, _) :: _, (best_ask, _) :: _ =>
          let mid_price := (best_bid + best_ask) / 2 in
          let spread := best_ask - best_bid in
          let bid_vol := volume (bids orderBook) in
          let ask_vol := volume (asks orderBook) in
          let total_vol := bid_vol + ask_vol + 0.000000001 (* 1e-9 *) in
          let imbalance := (bid_vol - ask_vol) / total_vol in
          let weighted_mid :=
            ((best_ask * bid_vol) + (best_bid * ask_vol)) / total_vol in
          Some {| mid_price := mid_price;
                  spread := spread;
                  bid_vol := bid_vol;
                  ask_vol := ask_vol;
                  imbalance := imbalance;
                  weighted_mid := weighted_mid |}
      end
  end.

End OrderBook.

(** ** Indicator engine ([technicalIndicators.ts])

    Periods are positive in every use (the defaults are 12, 26, 9, 20, 14
    and 3); the model is the source for positive periods. *)

Module Indicators.

(** A count as a number. *)
Definition num (n : nat) : Q := inject_Z (Z.of_nat n).

(** Lines 10-15: the recursion from index [period] on, [prevEma] being
    the entry before. *)
Fixpoint emaFrom (k prevEma : Q) (rest : list Q) : list (option Q) :=
  match rest with
  | [] => []
  | p :: rest' =>
      let ema := (p * k) + (prevEma * (1 - k)) in
      Some ema :: emaFrom k ema rest'
  end.

(** Lines 1-17. *)
Definition calculateEMASeries (prices : list Q) (period : nat)
  : option (list (option Q)) :=
  if (length prices <? period)%nat then None
  else
    let k := 2 / (num period + 1) in
    let sum := Js.sum (firstn period prices) in
    let seed := sum / num period in
    Some (repeat None (period - 1)
          ++ Some seed :: emaFrom k seed (skipn period prices)).

(** Lines 19-24. *)
Definition calculateSMA (data : list Q) (period : nat) : option Q :=
  if (length data <? period)%nat then None
  else
    let slice := Js.slice_last period data in
    let sum := Js.sum slice in
    Some (sum / num period).

Section WithSqrt.

(** [Math.sqrt], which has no rational model, is a parameter. *)
Variable Math_sqrt : Q -> Q.

(** Lines 26-34. *)
Definition calculateStdDev (data : list Q) (period : nat) : option Q :=
  if (length data <? period)%nat then None
  else
    let slice := Js.slice_last period data in
    match calculateSMA slice period with
    | None => None
    | Some mean =>
        let sqDiff := map (fun price => (price - mean) ^ 2) slice in
        let avgSqDiff := Js.sum sqDiff / num period in
        Some (Math_sqrt avgSqDiff)
    end.

Record BBands := mkBBands {
  upper : Q;
  middle : Q;
  lower : Q
}.

(** Lines 40-53. *)
Definition calculateBBands (prices : list Q) (period : nat)
    (stdDevMultiplier : Q) : option BBands :=
  if (length prices <? period)%nat then None
  else
    match calculateSMA prices period, calculateStdDev prices period with
    | Some middle, Some stdDev =>
        Some {| upper := middle + (stdDev * stdDevMultiplier);
                middle := middle;
                lower := middle - (stdDev * stdDevMultiplier) |}
    | _, _ => None
    end.

End WithSqrt.

(** A number that may have left the finite ones. *)
Inductive Value := Finite (q : Q) | NaN.

Definition addValue (a b : Value) : Value :=
  match a, b with
  | Finite x, Finite y => Finite (x + y)
  | _, _ => NaN
  end.

Definition divValue (a : Value) (d : Q) : Value :=
  match a with
  | Finite x => Finite (x / d)
  | NaN => NaN
  end.

(** [Math.max(...xs)] and [Math.min(...xs)]; [None] stands for the
    [-Infinity], respectively [Infinity], of an empty argument list. *)
Definition maxOf (xs : list Q) : option Q :=
  match xs with
  | [] => None
  | x :: rest => Some (fold_left Js.max rest x)
  end.

Definition minOf (xs : list Q) : option Q :=
  match xs with
  | [] => None
  | x :: rest => Some (fold_left Js.min rest x)
  end.

(** Lines 70-81, the %K value at index [i]; the window starts at
    [i - kPeriod + 1]. *)
Definition stochasticK (highs lows closes : list Q) (kPeriod i : nat)
  : Value :=
  let sliceHighs := Js.slice (i + 1 - kPeriod) (i + 1) highs in
  let sliceLows := Js.slice (i + 1 - kPeriod) (i + 1) lows in
  let currentClose := nth i closes 0 in
  match maxOf sliceHighs, minOf sliceLows with
  | Some highestHigh, Some lowestLow =>
      if Js.eqb highestHigh lowestLow then Finite 100
      else
        Finite (100 * ((currentClose - lowestLow)
                       / (highestHigh - lowestLow)))
  | None, Some lowestLow =>
      (* a finite numerator over [-Infinity]: zero *)
      Finite 0
  | _, None =>
      (* [-Infinity / -Infinity] *)
      NaN
  end.

Record Stochastic := mkStochastic {
  stoch_k : Value;
  stoch_d : Value
}.

(** Lines 59-94. *)
Definition calculateStochastic (highs lows closes : list Q)
    (kPeriod dPeriod : nat) : option Stochastic :=
  if (length closes <? kPeriod)%nat then None
  else
    let kValues :=
      map (stochasticK highs lows closes kPeriod)
          (seq (kPeriod - 1) (length closes - (kPeriod - 1))) in
    if (length kValues <? dPeriod)%nat then None
    else
      let lastK := nth (length kValues - 1) kValues NaN in
      let dSlice := Js.slice_last dPeriod kValues in
      let lastD :=
        divValue (fold_left addValue dSlice (Finite 0)) (num dPeriod) in
      Some {| stoch_k := lastK; stoch_d := lastD |}.

(** [prices[i] - prices[i - 1]]. *)
Definition change (prices : list Q) (i : nat) : Q :=
  nth i prices 0 - nth (i - 1) prices 0.

(** Lines 113-117, the body of the first loop on the running
    [(gains, losses)]. *)
Definition accumulate (sums : Q * Q) (change : Q) : Q * Q :=
  let '(gains, losses) := sums in
  if change >? 0 then (gains + change, losses)
  else (gains, losses - change).

(** Lines 126-127, the body of the second loop on the running
    [(avgGain, avgLoss)]. *)
Definition smooth (period : nat) (avgs : Q * Q) (change : Q) : Q * Q :=
  let '(avgGain, avgLoss) := avgs in
  ((avgGain * (num period - 1) + (if change >? 0 then change else 0))
   / num period,
   (avgLoss * (num period - 1) + (if change <? 0 then - change else 0))
   / num period).

(** Lines 130-135. *)
Definition rsiOf (avgs : Q * Q) : Q :=
  let '(avgGain, avgLoss) := avgs in
  if Js.eqb avgLoss 0 then 100
  else
    let rs := avgGain / avgLoss in
    100 - (100 / (1 + rs)).

(** Lines 102-136. *)
Definition calculateRSI (prices : list Q) (period : nat) : option Q :=
  if (length prices <=? period)%nat then None
  else
    let '(gains, losses) :=
      fold_left (fun sums i => accumulate sums (change prices i))
                (seq 1 period) (0, 0) in
    let avgGain := gains / num period in
    let avgLoss := losses / num period in
    Some (rsiOf
            (fold_left (fun avgs i => smooth period avgs (change prices i))
                       (seq (period + 1) (length prices - (period + 1)))
                       (avgGain, avgLoss))).

Record MACD := mkMACD {
  macd : Q;
  signal : Q;
  histogram : Q
}.

(** [series.filter(v => v !== null)]. *)
Fixpoint validValues (series : list (option Q)) : list Q :=
  match series with
  | [] => []
  | Some v :: rest => v :: validValues rest
  | None :: rest => validValues rest
  end.

(** Lines 143-179. *)
Definition calculateMACD (prices : list Q)
    (fastPeriod slowPeriod signalPeriod : nat) : option MACD :=
  if (length prices <? slowPeriod + signalPeriod)%nat then None
  else
    match calculateEMASeries prices fastPeriod,
          calculateEMASeries prices slowPeriod with
    | Some ema12, Some ema26 =>
        let macdLineSeries :=
          map (fun i =>
                 match nth i ema12 None, nth i ema26 None with
                 | Some fast, Some slow => Some (fast - slow)
                 | _, _ => None
                 end)
              (seq 0 (length prices)) in
        let validMacdValues := validValues macdLineSeries in
        if (length validMacdValues <? signalPeriod)%nat then None
        else
          match calculateEMASeries validMacdValues signalPeriod with
          | None => None
          | Some signalLineEMASeries =>
              let validSignalValues := validValues signalLineEMASeries in
              if (length validSignalValues =? 0)%nat then None
              else
                match nth_error validMacdValues
                                (length validMacdValues - 1),
                      nth_error validSignalValues
                                (length validSignalValues - 1) with
                | Some lastMacd, Some lastSignal =>
                    Some {| macd := lastMacd;
                            signal := lastSignal;
                            histogram := lastMacd - lastSignal |}
                | _, _ => None
                end
          end
    | _, _ => None
    end.

(** *** The RSI as the specification words it (section 4.1) *)

(** The successive price changes [p1 - p0, p2 - p1, ...]. *)
Fixpoint deltas (prices : list Q) : list Q :=
  match prices with
  | a :: (b :: _) as rest => (b - a) :: deltas rest
  | _ => []
  end.

Definition gain (delta : Q) : Q := Qmax delta 0.
Definition loss (delta : Q) : Q := Qmax (- delta) 0.

Fixpoint sumOf (xs : list Q) : Q :=
  match xs with
  | [] => 0
  | x :: rest => x + sumOf rest
  end.

(** Wilder's recursion [avg = (avg * (period - 1) + x) / period] over
    the values [xs]. *)
Fixpoint wilder (period : nat) (avg : Q) (xs : list Q) : Q :=
  match xs with
  | [] => avg
  | x :: rest => wilder period ((avg * (num period - 1) + x) / num period) rest
  end.

Definition spec_avgGain (period : nat) (prices : list Q) : Q :=
  let ds := deltas prices in
  wilder period (sumOf (map gain (firstn period ds)) / num period)
         (map gain (skipn period ds)).

Definition spec_avgLoss (period : nat) (prices : list Q) : Q :=
  let ds := deltas prices in
  wilder period (sumOf (map loss (firstn period ds)) / num period)
         (map loss (skipn period ds)).

Definition strictlyIncreasing (prices : list Q) : Prop :=
  Sorted Qlt prices.

Definition strictlyDecreasing (prices : list Q) : Prop :=
  Sorted (fun a b => b < a) prices.

Definition spec_RSI (period : nat) (prices : list Q) : Q :=
  if Qeq_dec (spec_avgLoss period prices) 0 then 100
  else
    100 - 100 / (1 + spec_avgGain period prices / spec_avgLoss period prices).

End Indicators.

(** ** Sample inputs *)

Module Samples.

(** A book leaning to the bid side: imbalance 0.30. *)
Definition strongBook : OrderBookFeatureData :=
  {| mid_price := 2000; spread := 0.01; bid_vol := 65; ask_vol := 35;
     imbalance := 0.3; weighted_mid := 2000.0015 |}.

(** The snapshot before it: imbalance 0.20. *)
Definition earlierBook : OrderBookFeatureData :=
  {| mid_price := 2000; spread := 0.01; bid_vol := 60; ask_vol := 40;
     imbalance := 0.2; weighted_mid := 2000.001 |}.

(** A nearly balanced book: imbalance 0.10. *)
Definition weakBook : OrderBookFeatureData :=
  {| mid_price := 2000; spread := 0.01; bid_vol := 55; ask_vol := 45;
     imbalance := 0.1; weighted_mid := 2000.0005 |}.

(** The scenario of the specification: a 15s oracle prediction UP made
    at time 0 at price 2000, and the same for the heuristic tracker. *)
Definition aiOutcome0 : PredictionOutcome :=
  {| ai_prediction :=
       {| ai_timeframe := TF15s; ai_direction := AI_UP;
          ai_confidence := 0.6; ai_timestamp := 0;
          priceAtPrediction := 2000 |};
     ai_status := PENDING |}.

(** A pending oracle prediction of any horizon and direction, made at
    time 0 at price 2000. *)
Definition aiOutcome (tf : Timeframe) (d : PredictionDirection)
  : PredictionOutcome :=
  {| ai_prediction :=
       {| ai_timeframe := tf; ai_direction := d;
          ai_confidence := 0.6; ai_timestamp := 0;
          priceAtPrediction := 2000 |};
     ai_status := PENDING |}.

Definition obOutcome0 : OrderBookPredictionOutcome :=
  {| ob_prediction :=
       {| ob_timeframe := OT15s; ob_direction := UP;
          ob_confidence := 0.7; ob_timestamp := 0 |};
     ob_status := OB_PENDING |}.

Definition tick (t : Z) (p : Q) : PriceData :=
  {| timestamp := t; price := p; high := p; low := p |}.

Definition state0 : Tracker.State :=
  {| Tracker.priceHistory := [tick 0 2000];
     Tracker.aiPredictionOutcomes := [aiOutcome0];
     Tracker.orderBookOutcomes := [obOutcome0] |}.

(** At 15000 ms the price is 2001; one second later it has fallen to
    1999. *)
Definition rise : Tracker.Update :=
  {| Tracker.newHistory := [tick 0 2000; tick 15000 2001];
     Tracker.aiClock := fun _ => 15000%Z;
     Tracker.obClock := fun _ => 15000%Z |}.

Definition fall : Tracker.Update :=
  {| Tracker.newHistory := [tick 0 2000; tick 15000 2001; tick 16000 1999];
     Tracker.aiClock := fun _ => 16000%Z;
     Tracker.obClock := fun _ => 16000%Z |}.


(** A heuristic outcome history: two completed directional 15s outcomes
    (one CORRECT), a suppressed one, a pending one, and a 30s outcome that
    is still pending. *)
Definition obOutcome (tf : OrderBookTimeframe)
    (d : OrderBookPredictionDirection) (s : OrderBookOutcomeStatus)
  : OrderBookPredictionOutcome :=
  {| ob_prediction :=
       {| ob_timeframe := tf; ob_direction := d;
          ob_confidence := 0.5; ob_timestamp := 0 |};
     ob_status := s |}.

Definition outcomeHistory : list OrderBookPredictionOutcome :=
  [ obOutcome OT15s UP OB_CORRECT;
    obOutcome OT15s DOWN OB_INCORRECT;
    obOutcome OT15s NEUTRAL OB_NEUTRAL;
    obOutcome OT15s UP OB_PENDING;
    obOutcome OT30s UP OB_PENDING ].

(** [n] ticks with time stamps and prices [from, from + 1, ...]. *)
Fixpoint ticksFrom (from : Z) (n : nat) : list PriceData :=
  match n with
  | O => []
  | S n' => tick from (inject_Z from) :: ticksFrom (from + 1) n'
  end.

(** The series [from, from + 1, ...] of [n] prices and its reverse. *)
Fixpoint rising (from : Z) (n : nat) : list Q :=
  match n with
  | O => []
  | S n' => inject_Z from :: rising (from + 1) n'
  end.

Definition falling (from : Z) (n : nat) : list Q := rev (rising from n).

(** A stand-in for [Math.sqrt] on the samples: the integer square root of
    the integer part. *)
Definition sqrtFloor (x : Q) : Q := inject_Z (Z.sqrt (Qfloor x)).

(** A book with three bid and two ask levels. *)
Definition book : OrderBook.Book :=
  {| OrderBook.bids := [(1999.99, 4); (1999.98, 2.5); (1999.9, 6.5)];
     OrderBook.asks := [(2000.01, 5); (2000.05, 2)] |}.

(** A book whose levels carry no volume. *)
Definition emptyVolumeBook : OrderBook.Book :=
  {| OrderBook.bids := [(1999.99, 0)];
     OrderBook.asks := [(2000.01, 0)] |}.

End Samples.

(** ** Performance display ([PerformanceTracker.tsx], lines 10-36) *)

Module PerformanceTracker.

(** The statistics object, one entry per displayed horizon. *)
Record Stats := mkStats {
  stat15s : Accuracy;
  stat30s : Accuracy;
  stat60s : Accuracy
}.

Definition get (stats : Stats) (tf : Timeframe) : Accuracy :=
  match tf with
  | TF15s => stat15s stats
  | TF30s => stat30s stats
  | TF60s => stat60s stats
  end.

(** Lines 12-16. *)
Definition emptyEntry : Accuracy :=
  {| correct := 0; total := 0; accuracy := 0 |}.

Definition initialStats : Stats :=
  {| stat15s := emptyEntry; stat30s := emptyEntry; stat60s := emptyEntry |}.

(** Line 18. *)
Definition completedDirectionalOutcomes
    (outcomes : list OrderBookPredictionOutcome)
  : list OrderBookPredictionOutcome :=
  filter (fun o =>
            negb (Tracker.ob_status_eqb (ob_status o) OB_PENDING)
            && negb (direction_eqb (ob_direction (ob_prediction o)) NEUTRAL))
         outcomes.

(** Lines 22-25 on one entry: [total++] and, for a CORRECT outcome,
    [correct++]. *)
Definition bump (outcome : OrderBookPredictionOutcome) (entry : Accuracy)
  : Accuracy :=
  {| correct :=
       if Tracker.ob_status_eqb (ob_status outcome) OB_CORRECT
       then S (correct entry) else correct entry;
     total := S (total entry);
     accuracy := accuracy entry |}.

(** Lines 21-25, one iteration of the loop.  The object has no entry for
    ['5s']: [stats[timeframe].total++] then raises a [TypeError], which is
    [None] here. *)
Definition countOutcome (stats : Stats) (outcome : OrderBookPredictionOutcome)
  : option Stats :=
  match ob_timeframe (ob_prediction outcome) with
  | OT15s =>
      Some {| stat15s := bump outcome (stat15s stats);
              stat30s := stat30s stats; stat60s := stat60s stats |}
  | OT30s =>
      Some {| stat15s := stat15s stats;
              stat30s := bump outcome (stat30s stats);
              stat60s := stat60s stats |}
  | OT60s =>
      Some {| stat15s := stat15s stats; stat30s := stat30s stats;
              stat60s := bump outcome (stat60s stats) |}
  | OT5s => None
  end.

(** Lines 20-26. *)
Fixpoint countOutcomes (stats : Stats)
    (outcomes : list OrderBookPredictionOutcome) : option Stats :=
  match outcomes with
  | [] => Some stats
  | outcome :: rest =>
      match countOutcome stats outcome with
      | Some stats' => countOutcomes stats' rest
      | None => None
      end
  end.

(** Lines 28-33 on one entry. *)
Definition setAccuracy (entry : Accuracy) : Accuracy :=
  if (0 <? total entry)%nat
  then {| correct := correct entry;
          total := total entry;
          accuracy := AccuracyStats.ratio (correct entry) (total entry) |}
  else entry.

(** Lines 11-36. *)
Definition accuracyStats (outcomes : list OrderBookPredictionOutcome)
  : option Stats :=
  match countOutcomes initialStats (completedDirectionalOutcomes outcomes) with
  | Some stats =>
      Some {| stat15s := setAccuracy (stat15s stats);
              stat30s := setAccuracy (stat30s stats);
              stat60s := setAccuracy (stat60s stats) |}
  | None => None
  end.

(** Lines 22 and 24: the tests that pick an outcome's entry and count it
    as correct. *)
Definition ofTimeframe (tf : Timeframe) (o : OrderBookPredictionOutcome)
  : bool :=
  Tracker.timeframe_eqb (ob_timeframe (ob_prediction o))
                        (toOrderBookTimeframe tf).

Definition isCorrect (o : OrderBookPredictionOutcome) : bool :=
  Tracker.ob_status_eqb (ob_status o) OB_CORRECT.

End PerformanceTracker.

(** ** Price aggregation ([App.tsx], lines 163-181) *)

Module Market.

(** Line 170: the prices of the sources that answered. *)
Definition availablePrices (binanceResult : option PriceData)
    (bybitPrice kucoinPrice : option Q) : list Q :=
  match binanceResult with Some b => [price b] | None => [] end
  ++ match bybitPrice with Some p => [p] | None => [] end
  ++ match kucoinPrice with Some p => [p] | None => [] end.

(** Lines 170-179: the tick built from the answers, [None] when no source
    answered (line 171). *)
Definition newPriceData (now : Z) (binanceResult : option PriceData)
    (bybitPrice kucoinPrice : option Q) : option PriceData :=
  let prices := availablePrices binanceResult bybitPrice kucoinPrice in
  if (length prices =? 0)%nat then None
  else
    let averagePrice := Js.sum prices / Indicators.num (length prices) in
    Some {| timestamp :=
              match binanceResult with
              | Some b => timestamp b
              | None => now
              end;
            price := averagePrice;
            high :=
              match binanceResult with
              | Some b => high b
              | None => averagePrice
              end;
            low :=
              match binanceResult with
              | Some b => low b
              | None => averagePrice
              end |}.

End Market.

(** ** The session ([App.tsx], lines 82-361)

    The state of the component and the state changes made by its timers
    and effects.  The oracle call is asynchronous: only the state change
    made on its success is modelled, with the price it recorded as an
    argument; the rate-limit and error displays are left out. *)

Module Session.

(** An [AiPrediction] as returned by the oracle (without its reasoning). *)
Record AiPrediction := mkRaw {
  raw_timeframe : Timeframe;
  raw_direction : PredictionDirection;
  raw_confidence : Q
}.

Record State := mkState {
  priceHistory : list PriceData;
  orderBookFeatures : option OrderBookFeatureData;
  previousOrderBookFeatures : option OrderBookFeatureData;
  orderBookPredictions : list OrderBookPrediction;
  currentPredictions : option (list PredictionResult);
  predictionHistory : list PredictionResult;
  aiPredictionOutcomes : list PredictionOutcome;
  orderBookOutcomes : list OrderBookPredictionOutcome
}.

(** Lines 92-96. *)
Definition placeholder (tf : OrderBookTimeframe) : OrderBookPrediction :=
  {| ob_timeframe := tf; ob_direction := NEUTRAL;
     ob_confidence := 0; ob_timestamp := 0 |}.

(** Lines 83-96. *)
Definition initialState : State :=
  {| priceHistory := [];
     orderBookFeatures := None;
     previousOrderBookFeatures := None;
     orderBookPredictions :=
       [placeholder OT15s; placeholder OT30s; placeholder OT60s];
     currentPredictions := None;
     predictionHistory := [];
     aiPredictionOutcomes := [];
     orderBookOutcomes := [] |}.

(** Lines 163-181: the answers of one market-data poll arrive. *)
Definition fetchMarketData (now : Z) (binanceResult : option PriceData)
    (bybitPrice kucoinPrice : option Q)
    (features : option OrderBookFeatureData) (st : State) : State :=
  {| priceHistory :=
       match Market.newPriceData now binanceResult bybitPrice kucoinPrice with
       | Some newPriceData => History.appendPrice (priceHistory st) newPriceData
       | None => priceHistory st
       end;
     orderBookFeatures :=
       match features with
       | Some f => Some f
       | None => orderBookFeatures st
       end;
     previousOrderBookFeatures := orderBookFeatures st;
     orderBookPredictions := orderBookPredictions st;
     currentPredictions := currentPredictions st;
     predictionHistory := predictionHistory st;
     aiPredictionOutcomes := aiPredictionOutcomes st;
     orderBookOutcomes := orderBookOutcomes st |}.

(** Line 215: the last price minus the one before. *)
Definition priceChange (history : list PriceData) : option Q :=
  match nth_error history (length history - 1),
        nth_error history (length history - 2) with
  | Some last, Some before => Some (price last - price before)
  | _, _ => None
  end.

(** Lines 208-227: the prediction a horizon's loop would make now, if the
    features and two prices are there; the accuracy entry is the current
    one of that horizon (lines 189-202). *)
Definition newPrediction (now : Z) (timeframe : Timeframe) (st : State)
  : option OrderBookPrediction :=
  match orderBookFeatures st with
  | Some features =>
      if (1 <? length (priceHistory st))%nat then
        match priceChange (priceHistory st) with
        | Some change =>
            Some (Heuristic.generateSmartOrderBookPrediction
                    now timeframe features (previousOrderBookFeatures st)
                    change
                    (AccuracyStats.orderBookAccuracyStats
                       (orderBookOutcomes st) timeframe))
        | None => None
        end
      else None
  | None => None
  end.

(** Lines 208-229: one firing of a horizon's loop. *)
Definition update (now : Z) (timeframe : Timeframe) (st : State) : State :=
  match newPrediction now timeframe st with
  | Some prediction =>
      {| priceHistory := priceHistory st;
         orderBookFeatures := orderBookFeatures st;
         previousOrderBookFeatures := previousOrderBookFeatures st;
         orderBookPredictions :=
           map (fun p =>
                  if Tracker.timeframe_eqb (ob_timeframe p)
                       (toOrderBookTimeframe timeframe)
                  then prediction else p)
               (orderBookPredictions st);
         currentPredictions := currentPredictions st;
         predictionHistory := predictionHistory st;
         aiPredictionOutcomes := aiPredictionOutcomes st;
         orderBookOutcomes :=
           History.addOrderBookOutcome (orderBookOutcomes st) prediction |}
  | None => st
  end.

(** Lines 249-300: the resolution effect. *)
Definition resolve (aiClock obClock : nat -> Z) (st : State) : State :=
  let resolved :=
    Tracker.resolutionPass aiClock obClock
      {| Tracker.priceHistory := priceHistory st;
         Tracker.aiPredictionOutcomes := aiPredictionOutcomes st;
         Tracker.orderBookOutcomes := orderBookOutcomes st |} in
  {| priceHistory := priceHistory st;
     orderBookFeatures := orderBookFeatures st;
     previousOrderBookFeatures := previousOrderBookFeatures st;
     orderBookPredictions := orderBookPredictions st;
     currentPredictions := currentPredictions st;
     predictionHistory := predictionHistory st;
     aiPredictionOutcomes := Tracker.aiPredictionOutcomes resolved;
     orderBookOutcomes := Tracker.orderBookOutcomes resolved |}.

(** Line 326. *)
Definition withMetadata (now : Z) (priceAtPrediction : Q) (p : AiPrediction)
  : PredictionResult :=
  {| ai_timeframe := raw_timeframe p;
     ai_direction := raw_direction p;
     ai_confidence := raw_confidence p;
     ai_timestamp := now;
     priceAtPrediction := priceAtPrediction |}.

(** Lines 326-329: the oracle's answer is recorded. *)
Definition recordPredictions (now : Z) (priceAtPrediction : Q)
    (results : list AiPrediction) (st : State) : State :=
  let predictionsWithMetadata :=
    map (withMetadata now priceAtPrediction) results in
  {| priceHistory := priceHistory st;
     orderBookFeatures := orderBookFeatures st;
     previousOrderBookFeatures := previousOrderBookFeatures st;
     orderBookPredictions := orderBookPredictions st;
     currentPredictions := Some predictionsWithMetadata;
     predictionHistory :=
       Js.slice_first MAX_PREDICTION_HISTORY_ITEMS
         (predictionsWithMetadata ++ predictionHistory st);
     aiPredictionOutcomes :=
       History.addAiOutcomes (aiPredictionOutcomes st) predictionsWithMetadata;
     orderBookOutcomes := orderBookOutcomes st |}.

(** What can happen to the session. *)
Inductive Event :=
| MarketData (now : Z) (binanceResult : option PriceData)
    (bybitPrice kucoinPrice : option Q)
    (features : option OrderBookFeatureData)
| LoopFires (now : Z) (timeframe : Timeframe)
| Resolution (aiClock obClock : nat -> Z)
| OracleAnswers (now : Z) (priceAtPrediction : Q)
    (results : list AiPrediction).

Definition step (st : State) (e : Event) : State :=
  match e with
  | MarketData now binanceResult bybitPrice kucoinPrice features =>
      fetchMarketData now binanceResult bybitPrice kucoinPrice features st
  | LoopFires now timeframe => update now timeframe st
  | Resolution aiClock obClock => resolve aiClock obClock st
  | OracleAnswers now priceAtPrediction results =>
      recordPredictions now priceAtPrediction results st
  end.

Definition run (events : list Event) : State :=
  fold_left step events initialState.

(** The state is one the session keeps: the bounds of its histories, the
    three display slots, and what its heuristic predictions look like. *)
Definition wellFormedPrediction (p : OrderBookPrediction) : Prop :=
  ob_timeframe p <> OT5s /\ 0 <= ob_confidence p <= 0.95.

Record Invariant (st : State) : Prop := mkInvariant {
  inv_prices : (length (priceHistory st) <= MAX_HISTORY_LENGTH)%nat;
  inv_history :
    (length (predictionHistory st) <= MAX_PREDICTION_HISTORY_ITEMS)%nat;
  inv_ai : (length (aiPredictionOutcomes st) <= MAX_OUTCOME_HISTORY)%nat;
  inv_ob : (length (orderBookOutcomes st) <= MAX_OUTCOME_HISTORY)%nat;
  inv_slots :
    map ob_timeframe (orderBookPredictions st) = [OT15s; OT30s; OT60s];
  inv_predictions : Forall wellFormedPrediction (orderBookPredictions st);
  inv_outcomes :
    Forall (fun o => wellFormedPrediction (ob_prediction o))
           (orderBookOutcomes st)
}.

End Session.

(** ** Countdown display ([OrderBookSignalCard.tsx], lines 29-79) *)

Module Countdown.

(** The countdown object: seconds left per horizon. *)
Definition Countdowns : Type := OrderBookTimeframe -> Z.

(** Lines 29-34. *)
Definition initialCountdowns : Countdowns :=
  fun tf =>
    match tf with
    | OT5s => 5 | OT15s => 15 | OT30s => 30 | OT60s => 60
    end%Z.

(** Lines 69-76: the timer fires. *)
Definition tick (prev : Countdowns) : Countdowns :=
  fun tf => Z.max 0 (prev tf - 1).

(** [prevTimestampsRef]: the time stamp last seen per horizon. *)
Definition Timestamps : Type := OrderBookTimeframe -> option Z.

Record State := mkState {
  countdowns : Countdowns;
  prevTimestamps : Timestamps
}.

Definition initialState : State :=
  {| countdowns := initialCountdowns; prevTimestamps := fun _ => None |}.

(** Line 50: the prediction is a real one and was not seen before. *)
Definition isNew (prev : Timestamps) (p : OrderBookPrediction) : bool :=
  negb (ob_timestamp p =? 0)%Z
  && match prev (ob_timeframe p) with
     | Some t => negb (t =? ob_timestamp p)%Z
     | None => true
     end.

Definition setAt {A} (tf : OrderBookTimeframe) (v : A)
    (f : OrderBookTimeframe -> A) : OrderBookTimeframe -> A :=
  fun tf' => if Tracker.timeframe_eqb tf' tf then v else f tf'.

(** Lines 48-54: the loop over the predictions. *)
Definition restart (prev : Timestamps) (newCountdowns : Countdowns)
    (predictions : list OrderBookPrediction) : Countdowns :=
  fold_left
    (fun acc p =>
       if isNew prev p
       then setAt (ob_timeframe p) (initialCountdowns (ob_timeframe p)) acc
       else acc)
    predictions newCountdowns.

(** Lines 59-62: the time stamps of the predictions, later entries
    overwriting earlier ones. *)
Definition timestampsOf (predictions : list OrderBookPrediction)
  : Timestamps :=
  fold_left (fun acc p => setAt (ob_timeframe p) (Some (ob_timestamp p)) acc)
            predictions (fun _ => None).

(** Lines 43-65: the effect run on new [predictions]. *)
Definition onPredictions (predictions : option (list OrderBookPrediction))
    (st : State) : State :=
  match predictions with
  | Some predictions =>
      if existsb (isNew (prevTimestamps st)) predictions
      then {| countdowns :=
                restart (prevTimestamps st) (countdowns st) predictions;
              prevTimestamps := timestampsOf predictions |}
      else st
  | None => st
  end.

Inductive Event :=
| Tick
| Predictions (predictions : option (list OrderBookPrediction)).

Definition step (st : State) (e : Event) : State :=
  match e with
  | Tick => {| countdowns := tick (countdowns st);
               prevTimestamps := prevTimestamps st |}
  | Predictions predictions => onPredictions predictions st
  end.

Definition run (events : list Event) : State :=
  fold_left step events initialState.

End Countdown.

(** ** Imbalance chart ([ImbalanceChart.tsx], lines 18-30) *)

Module Chart.

Record ImbalanceData := mkImbalanceData {
  chart_timestamp : Z;
  chart_imbalance : Q
}.

(** Lines 18-30.  For an empty [data] (which the component never passes on)
    [Math.max()] is [-Infinity] and the first test succeeds. *)
Definition gradientOffset (data : list ImbalanceData) : Q :=
  match Indicators.maxOf (map chart_imbalance data),
        Indicators.minOf (map chart_imbalance data) with
  | Some dataMax, Some dataMin =>
      if Qle_bool dataMax 0 then 0
      else if Qle_bool 0 dataMin then 1
      else dataMax / (dataMax - dataMin)
  | _, _ => 0
  end.

End Chart.

(** ** Mirror images, to state the symmetry of the code *)

Module Mirror.

(** A feature vector with the pressure reversed: bids and asks exchange
    their volumes. *)
Definition features (f : OrderBookFeatureData) : OrderBookFeatureData :=
  {| mid_price := mid_price f;
     spread := spread f;
     bid_vol := ask_vol f;
     ask_vol := bid_vol f;
     imbalance := - imbalance f;
     weighted_mid := weighted_mid f |}.

Definition direction (d : OrderBookPredictionDirection)
  : OrderBookPredictionDirection :=
  match d with UP => DOWN | DOWN => UP | NEUTRAL => NEUTRAL end.

(** A book with its two sides exchanged. *)
Definition book (b : OrderBook.Book) : OrderBook.Book :=
  {| OrderBook.bids := OrderBook.asks b; OrderBook.asks := OrderBook.bids b |}.

End Mirror.

(** ** More sample inputs *)

Module MoreSamples.

(** A book with twelve bid levels and one ask level. *)
Definition deepBook : OrderBook.Book :=
  {| OrderBook.bids :=
       map (fun i => (2000 - inject_Z (Z.of_nat i), 1)) (seq 1 12);
     OrderBook.asks := [(2001, 4)] |}.

(** One poll of the market: all three sources answer. *)
Definition poll (t : Z) (p : Q) (f : OrderBookFeatureData) : Session.Event :=
  Session.MarketData t (Some (Samples.tick t p)) (Some (p + 1)) (Some (p - 1))
                     (Some f).

(** A short session: two polls, the 15s loop fires, the outcome resolves
    at 15000 ms after a third poll. *)
Definition shortSession : list Session.Event :=
  [ poll 0 2000 Samples.earlierBook;
    poll 2000 2001 Samples.strongBook;
    Session.LoopFires 2500 TF15s;
    poll 17500 2003 Samples.strongBook;
    Session.Resolution (fun _ => 17500%Z) (fun _ => 17500%Z) ].

(** A session state after two ticks and two order-book snapshots. *)
Definition readyState : Session.State :=
  {| Session.priceHistory := [Samples.tick 0 2000; Samples.tick 2000 2001];
     Session.orderBookFeatures := Some Samples.strongBook;
     Session.previousOrderBookFeatures := Some Samples.earlierBook;
     Session.orderBookPredictions :=
       Session.orderBookPredictions Session.initialState;
     Session.currentPredictions := None;
     Session.predictionHistory := [];
     Session.aiPredictionOutcomes := [];
     Session.orderBookOutcomes := [] |}.

(** Imbalance samples of both signs. *)
Definition chartData : list Chart.ImbalanceData :=
  [ {| Chart.chart_timestamp := 0; Chart.chart_imbalance := 0.3 |};
    {| Chart.chart_timestamp := 2000; Chart.chart_imbalance := -0.1 |} ].

End MoreSamples.

(* ================================================================== *)
(** * Part II: properties *)
(* ================================================================== *)

(** ** Comparison lemmas *)

Section Comparisons.

Lemma gtb_true (x y : Q) : (x >? y) = true <-> y < x.
Proof.
  unfold Js.gtb. rewrite negb_true_iff.
  split; intro H.
  - apply Qnot_le_lt. intro Hle. apply Qle_bool_iff in Hle. congruence.
  - destruct (Qle_bool x y) eqn:E; [|reflexivity].
    apply Qle_bool_iff in E. lra.
Qed.

Lemma gtb_false (x y : Q) : (x >? y) = false <-> x <= y.
Proof.
  unfold Js.gtb. rewrite negb_false_iff. apply Qle_bool_iff.
Qed.

Lemma ltb_true (x y : Q) : (x <? y) = true <-> x < y.
Proof. apply (gtb_true y x). Qed.

Lemma ltb_false (x y : Q) : (x <? y) = false <-> y <= x.
Proof. apply (gtb_false y x). Qed.

End Comparisons.

(** Case analysis on every number comparison of the goal, leaving the
    outcomes as order facts for [lra]. *)
Ltac cmp_cases :=
  repeat match goal with
    | |- context [?x >? ?y] =>
        let E := fresh "E" in
        destruct (x >? y) eqn:E;
        [apply gtb_true in E | apply gtb_false in E]
    | |- context [?x <? ?y] =>
        let E := fresh "E" in
        destruct (x <? y) eqn:E;
        [apply ltb_true in E | apply ltb_false in E]
    end.

Ltac abs_cases :=
  repeat match goal with
    | |- context [Qabs ?x] => pattern (Qabs x); apply Qabs_case; intros
    end.

(** Every [Qmax] / [Qmin] of the goal and context is replaced by a fresh
    name together with its defining case distinction. *)
Ltac name_max x y :=
  let m := fresh "m" in
  let H := fresh "M" in
  pose proof (Q.max_spec x y) as H;
  set (m := Qmax x y) in *; clearbody m;
  destruct H as [[? ?]|[? ?]].

Ltac name_min x y :=
  let m := fresh "m" in
  let H := fresh "M" in
  pose proof (Q.min_spec x y) as H;
  set (m := Qmin x y) in *; clearbody m;
  destruct H as [[? ?]|[? ?]].

Ltac minmax_cases :=
  repeat match goal with
    | |- context [Qmax ?x ?y] => name_max x y
    | |- context [Qmin ?x ?y] => name_min x y
    | _ : context [Qmax ?x ?y] |- _ => name_max x y
    | _ : context [Qmin ?x ?y] |- _ => name_min x y
    end.

(** ** The heuristic signal generator *)

Section HeuristicFacts.

Import Heuristic.

Lemma spec_momentum_UP (delta thr bonus penalty : Q) :
  0 <= thr ->
  spec_momentum UP delta thr bonus penalty =
  if delta >? thr then bonus
  else if delta <? - thr then - penalty else 0.
Proof.
  intros Ht. unfold spec_momentum, agrees, disagrees.
  abs_cases; cmp_cases; simpl; try reflexivity; lra.
Qed.

Lemma spec_momentum_DOWN (delta thr bonus penalty : Q) :
  0 <= thr ->
  spec_momentum DOWN delta thr bonus penalty =
  if delta <? - thr then bonus
  else if delta >? thr then - penalty else 0.
Proof.
  intros Ht. unfold spec_momentum, agrees, disagrees.
  abs_cases; cmp_cases; simpl; try reflexivity; lra.
Qed.

Lemma spec_momentum_NEUTRAL (delta thr bonus penalty : Q) :
  spec_momentum NEUTRAL delta thr bonus penalty = 0.
Proof. reflexivity. Qed.

Lemma baseDirection_spec cur :
  baseDirection cur = spec_direction (imbalance cur).
Proof.
  unfold baseDirection, spec_direction.
  destruct (Qlt_le_dec 0.05 (imbalance cur)) as [H|H];
    [apply gtb_true in H | apply gtb_false in H]; rewrite H; [reflexivity|].
  destruct (Qlt_le_dec (imbalance cur) (-0.05)) as [H'|H'];
    [apply ltb_true in H' | apply ltb_false in H']; rewrite H'; reflexivity.
Qed.

(** Lines 38-54 compute the raw confidence of steps 2-4. *)
Lemma adjustedConfidence_spec cur prev priceChange :
  adjustedConfidence cur prev priceChange
  == spec_raw_confidence cur prev priceChange.
Proof.
  unfold adjustedConfidence, spec_raw_confidence, Js.abs.
  rewrite <- baseDirection_spec.
  destruct prev as [p|]; destruct (baseDirection cur); cbv zeta;
    rewrite ?spec_momentum_UP, ?spec_momentum_DOWN, ?spec_momentum_NEUTRAL
      by lra;
    simpl direction_eqb; cmp_cases; simpl; lra.
Qed.

Lemma clamp_compat lo hi x y : x == y -> clamp lo hi x == clamp lo hi y.
Proof.
  intros H. unfold clamp.
  apply Q.max_compat; [reflexivity|]. apply Q.min_compat; [reflexivity|exact H].
Qed.

Lemma accuracyAdjustment_spec (acc : option Accuracy) :
  match acc with
  | Some a => if (5 <? total a)%nat then (accuracy a - 0.5) * 0.1 else 0
  | None => 0
  end = spec_accuracy_adjustment acc.
Proof.
  destruct acc as [a|]; simpl; [|reflexivity].
  destruct (Nat.ltb_spec 5 (total a)), (Nat.leb_spec (total a) 5);
    try reflexivity; lia.
Qed.

Lemma confidence_spec now tf cur prev priceChange acc :
  ob_confidence
    (generateSmartOrderBookPrediction now tf cur prev priceChange acc)
  == spec_confidence tf cur prev priceChange acc.
Proof.
  unfold generateSmartOrderBookPrediction, spec_confidence. simpl.
  rewrite accuracyAdjustment_spec.
  unfold Js.max, Js.min.
  fold (clamp 0 0.95 (adjustedConfidence cur prev priceChange)).
  match goal with |- Qmax 0 (Qmin 0.95 ?x) == _ => fold (clamp 0 0.95 x) end.
  apply clamp_compat.
  assert (Hd : match tf with TF15s => 0 | TF30s => 0.05 | TF60s => 0.1 end
               = spec_decay tf) by reflexivity.
  rewrite Hd.
  pose proof (clamp_compat 0 0.95 _ _
                (adjustedConfidence_spec cur prev priceChange)) as Hc.
  rewrite Hc. reflexivity.
Qed.

(** The generator is total and never reports a confidence outside
    [0, 0.95]. *)
Lemma confidence_range now tf cur prev priceChange acc :
  0 <= ob_confidence
         (generateSmartOrderBookPrediction now tf cur prev priceChange acc)
    <= 0.95.
Proof.
  unfold generateSmartOrderBookPrediction, Js.max, Js.min. simpl.
  split.
  - apply Q.le_max_l.
  - apply Q.max_lub; [lra|]. apply Q.le_min_l.
Qed.

(** The worked example of the specification, for every feature vector
    with imbalance 0.30 whose momentum terms both agree. *)
Lemma confidence_agreeing_momentum now tf cur prev priceChange :
  imbalance cur == 0.3 ->
  0.01 < imbalance cur - imbalance prev ->
  0.1 < priceChange ->
  ob_confidence
    (generateSmartOrderBookPrediction now tf cur (Some prev) priceChange None)
  == 0.7 - spec_decay tf.
Proof.
  intros Hi Hd Hp.
  unfold generateSmartOrderBookPrediction, adjustedConfidence,
    baseDirection, Js.max, Js.min, Js.abs.
  cbv zeta. simpl ob_confidence.
  destruct (imbalance cur >? 0.05) eqn:E;
    [apply gtb_true in E | apply gtb_false in E; lra].
  simpl direction_eqb. rewrite !andb_true_r, !andb_false_r, !orb_false_r.
  destruct (imbalance cur - imbalance prev >? 0.01) eqn:E1;
    [|apply gtb_false in E1; lra].
  destruct (priceChange >? 0.1) eqn:E2; [|apply gtb_false in E2; lra].
  assert (Ha : Qabs (imbalance cur) == 0.3).
  { rewrite Qabs_pos; lra. }
  destruct tf; simpl spec_decay; minmax_cases; lra.
Qed.

(** Step 5: a raw confidence below 0.3 suppresses the direction. *)
Lemma low_confidence_neutral now tf cur prev priceChange acc :
  adjustedConfidence cur prev priceChange < 0.3 ->
  ob_direction
    (generateSmartOrderBookPrediction now tf cur prev priceChange acc)
  = NEUTRAL.
Proof.
  intros H. unfold generateSmartOrderBookPrediction. simpl.
  apply ltb_true in H. rewrite H. reflexivity.
Qed.

(** Imbalance 0.10 with no momentum information: raw confidence 0.15. *)
Lemma adjustedConfidence_weak cur :
  imbalance cur == 0.1 -> adjustedConfidence cur None 0 == 0.15.
Proof.
  intros Hi. unfold adjustedConfidence, baseDirection, Js.abs. cbv zeta.
  assert (Ha : Qabs (imbalance cur) == 0.1) by (rewrite Qabs_pos; lra).
  cmp_cases; simpl; lra.
Qed.

Lemma confidence_weak now tf cur :
  imbalance cur == 0.1 ->
  ob_confidence (generateSmartOrderBookPrediction now tf cur None 0 None)
  == 0.15 - spec_decay tf.
Proof.
  intros Hi. pose proof (adjustedConfidence_weak cur Hi) as Ha.
  unfold generateSmartOrderBookPrediction, Js.max, Js.min. simpl ob_confidence.
  destruct tf; simpl spec_decay; minmax_cases; lra.
Qed.

End HeuristicFacts.

(** C1.  The confidence returned by the heuristic signal generator is the
    specification's pipeline: |imbalance| * 1.5, the imbalance-momentum
    term (+0.15 / -0.15 beyond 0.01), the price-momentum term (+0.1 / -0.2
    beyond 0.1), clamped to [0, 0.95], minus the horizon decay, plus the
    accuracy adjustment when more than 5 predictions are completed, clamped
    again.  With imbalance 0.30, both momentum terms agreeing and no
    accuracy entry the confidence is 0.70 (15s), 0.65 (30s), 0.60 (60s). *)
Theorem generateSmartOrderBookPrediction_confidence :
  (forall now tf cur prev priceChange acc,
      ob_confidence
        (Heuristic.generateSmartOrderBookPrediction
           now tf cur prev priceChange acc)
      == Heuristic.spec_confidence tf cur prev priceChange acc)
  /\
  (forall now cur prev priceChange,
      imbalance cur == 0.3 ->
      0.01 < imbalance cur - imbalance prev ->
      0.1 < priceChange ->
      ob_confidence
        (Heuristic.generateSmartOrderBookPrediction
           now TF15s cur (Some prev) priceChange None) == 0.7
      /\ ob_confidence
           (Heuristic.generateSmartOrderBookPrediction
              now TF30s cur (Some prev) priceChange None) == 0.65
      /\ ob_confidence
           (Heuristic.generateSmartOrderBookPrediction
              now TF60s cur (Some prev) priceChange None) == 0.6).
Proof.
  split.
  - intros. apply confidence_spec.
  - intros now cur prev priceChange Hi Hd Hp.
    repeat split;
      rewrite (confidence_agreeing_momentum _ _ _ _ _ Hi Hd Hp);
      reflexivity.
Qed.

Lemma generateSmartOrderBookPrediction_confidence_witness :
  ob_confidence
    (Heuristic.generateSmartOrderBookPrediction
       1700000000000 TF15s Samples.strongBook (Some Samples.earlierBook)
       0.5 None) == 0.7
  /\ ob_confidence
       (Heuristic.generateSmartOrderBookPrediction
          1700000000000 TF30s Samples.strongBook (Some Samples.earlierBook)
          0.5 None) == 0.65
  /\ ob_confidence
       (Heuristic.generateSmartOrderBookPrediction
          1700000000000 TF60s Samples.strongBook (Some Samples.earlierBook)
          0.5 None) == 0.6.
Proof.
  apply (proj2 generateSmartOrderBookPrediction_confidence
           1700000000000%Z Samples.strongBook Samples.earlierBook 0.5);
    vm_compute; reflexivity.
Defined.

(** C2 (as amended).  A raw confidence below 0.3 forces the direction to
    NEUTRAL whatever the sign of the imbalance.  With imbalance 0.10, no
    previous snapshot, no price change and no accuracy entry the raw
    confidence is 0.15, every horizon reports NEUTRAL, and the reported
    confidence is 0.15 less the horizon decay: 0.15, 0.10 and 0.05. *)
Theorem low_conviction_is_neutral :
  (forall now tf cur prev priceChange acc,
      Heuristic.adjustedConfidence cur prev priceChange < 0.3 ->
      ob_direction
        (Heuristic.generateSmartOrderBookPrediction
           now tf cur prev priceChange acc) = NEUTRAL)
  /\
  (forall now cur,
      imbalance cur == 0.1 ->
      Heuristic.adjustedConfidence cur None 0 == 0.15
      /\ (forall tf,
             ob_direction
               (Heuristic.generateSmartOrderBookPrediction
                  now tf cur None 0 None) = NEUTRAL)
      /\ ob_confidence
           (Heuristic.generateSmartOrderBookPrediction
              now TF15s cur None 0 None) == 0.15
      /\ ob_confidence
           (Heuristic.generateSmartOrderBookPrediction
              now TF30s cur None 0 None) == 0.1
      /\ ob_confidence
           (Heuristic.generateSmartOrderBookPrediction
              now TF60s cur None 0 None) == 0.05).
Proof.
  split.
  - intros. now apply low_confidence_neutral.
  - intros now cur Hi.
    pose proof (adjustedConfidence_weak cur Hi) as Ha.
    split; [exact Ha|]. split.
    + intros tf. apply low_confidence_neutral. rewrite Ha. reflexivity.
    + repeat split; rewrite (confidence_weak _ _ _ Hi); reflexivity.
Qed.

Lemma low_conviction_is_neutral_witness :
  ob_direction
    (Heuristic.generateSmartOrderBookPrediction
       1700000000000 TF60s Samples.weakBook None 0 None) = NEUTRAL
  /\ ob_confidence
       (Heuristic.generateSmartOrderBookPrediction
          1700000000000 TF60s Samples.weakBook None 0 None) == 0.05.
Proof.
  assert (Hi : imbalance Samples.weakBook == 0.1) by reflexivity.
  destruct (proj2 low_conviction_is_neutral 1700000000000%Z Samples.weakBook Hi)
    as (_ & Hd & _ & _ & Hc).
  split; [apply Hd | exact Hc].
Defined.

(** At the 30s horizon the reported confidence of that example is not 0.15:
    imbalance 0.10, no previous snapshot, no price change and no accuracy
    entry give NEUTRAL with reported confidence 0.10. *)
Lemma weak_signal_30s_confidence_is_not_15 :
  imbalance Samples.weakBook == 0.1
  /\ ob_direction
       (Heuristic.generateSmartOrderBookPrediction
          1700000000000 TF30s Samples.weakBook None 0 None) = NEUTRAL
  /\ ob_confidence
       (Heuristic.generateSmartOrderBookPrediction
          1700000000000 TF30s Samples.weakBook None 0 None) == 0.1
  /\ ~ ob_confidence
         (Heuristic.generateSmartOrderBookPrediction
            1700000000000 TF30s Samples.weakBook None 0 None) == 0.15.
Proof.
  repeat split; try (vm_compute; reflexivity).
  intro H. vm_compute in H. discriminate H.
Qed.

(** ** The outcome tracker *)

Section TrackerFacts.

Import Tracker.

Lemma nth_error_mapAt {A B} (f : nat -> A -> B) (l : list A) (i k : nat) :
  nth_error (mapAt f i l) k = option_map (f (i + k)%nat) (nth_error l k).
Proof.
  revert i k. induction l as [|x l IH]; intros i k.
  - destruct k; reflexivity.
  - destruct k as [|k]; simpl.
    + now rewrite Nat.add_0_r.
    + rewrite IH. now rewrite Nat.add_succ_r.
Qed.

Lemma length_mapAt {A B} (f : nat -> A -> B) (l : list A) (i : nat) :
  length (mapAt f i l) = length l.
Proof.
  revert i. induction l as [|x l IH]; intros i; simpl; [reflexivity|].
  now rewrite IH.
Qed.

(** A content-equal image of an entrywise update that can only rewrite
    the status is the list itself. *)
Lemma list_eqb_mapAt {A} (eqb : A -> A -> bool) (f : nat -> A -> A) :
  (forall i x, eqb (f i x) x = true -> f i x = x) ->
  forall l i, list_eqb eqb (mapAt f i l) l = true -> mapAt f i l = l.
Proof.
  intros Hf. induction l as [|x l IH]; intros i H; simpl in *.
  - reflexivity.
  - apply andb_true_iff in H as [Hx Hl].
    rewrite (Hf _ _ Hx), (IH _ Hl). reflexivity.
Qed.

(** *** One outcome *)

Lemma resolveAiOutcome_prediction now latest o :
  ai_prediction (resolveAiOutcome now latest o) = ai_prediction o.
Proof.
  unfold resolveAiOutcome.
  destruct (ai_status o); try reflexivity.
  destruct (horizonElapsed _ _ _); reflexivity.
Qed.

Lemma resolveAiOutcome_terminal now latest o :
  ai_status o <> PENDING -> resolveAiOutcome now latest o = o.
Proof.
  unfold resolveAiOutcome. destruct (ai_status o); congruence.
Qed.

Lemma resolveAiOutcome_eqb now latest o :
  aiOutcome_eqb (resolveAiOutcome now latest o) o = true ->
  resolveAiOutcome now latest o = o.
Proof.
  intros H. unfold aiOutcome_eqb in H.
  apply andb_true_iff in H as [_ H].
  pose proof (resolveAiOutcome_prediction now latest o) as Hp.
  destruct (resolveAiOutcome now latest o) as [p s], o as [p' s'].
  simpl in *. subst p'. destruct s, s'; simpl in H; congruence.
Qed.

Lemma resolveOrderBookOutcome_prediction now latest history o :
  ob_prediction (resolveOrderBookOutcome now latest history o)
  = ob_prediction o.
Proof.
  unfold resolveOrderBookOutcome.
  destruct (ob_status o); try reflexivity.
  destruct (horizonElapsed _ _ _); [|reflexivity].
  destruct (findPriceAtPrediction _ _); [|reflexivity].
  destruct (direction_eqb _ NEUTRAL); reflexivity.
Qed.

Lemma resolveOrderBookOutcome_terminal now latest history o :
  ob_status o <> OB_PENDING ->
  resolveOrderBookOutcome now latest history o = o.
Proof.
  unfold resolveOrderBookOutcome. destruct (ob_status o); congruence.
Qed.

Lemma resolveOrderBookOutcome_eqb now latest history o :
  obOutcome_eqb (resolveOrderBookOutcome now latest history o) o = true ->
  resolveOrderBookOutcome now latest history o = o.
Proof.
  intros H. unfold obOutcome_eqb in H.
  apply andb_true_iff in H as [_ H].
  pose proof (resolveOrderBookOutcome_prediction now latest history o) as Hp.
  destruct (resolveOrderBookOutcome now latest history o) as [p s],
    o as [p' s'].
  simpl in *. subst p'. destruct s, s'; simpl in H; congruence.
Qed.

(** *** One pass over a history *)

(** The content comparison only saves a state update: the new history is
    always the entrywise image. *)
Lemma resolveAiOutcomes_map clock latest l :
  resolveAiOutcomes clock latest l
  = mapAt (fun i o => resolveAiOutcome (clock i) latest o) 0 l.
Proof.
  unfold resolveAiOutcomes.
  destruct l as [|x l]; [reflexivity|]. cbv zeta.
  change (length (x :: l) =? 0)%nat with false. cbv iota.
  destruct (list_eqb _ _ _) eqn:E; [|reflexivity]. simpl negb. cbv iota.
  symmetry. apply (list_eqb_mapAt aiOutcome_eqb); [|exact E].
  intros i o. apply resolveAiOutcome_eqb.
Qed.

Lemma resolveOrderBookOutcomes_map clock latest history l :
  resolveOrderBookOutcomes clock latest history l
  = mapAt (fun i o => resolveOrderBookOutcome (clock i) latest history o) 0 l.
Proof.
  unfold resolveOrderBookOutcomes.
  destruct l as [|x l]; [reflexivity|]. cbv zeta.
  change (length (x :: l) =? 0)%nat with false. cbv iota.
  destruct (list_eqb _ _ _) eqn:E; [|reflexivity]. simpl negb. cbv iota.
  symmetry. apply (list_eqb_mapAt obOutcome_eqb); [|exact E].
  intros i o. apply resolveOrderBookOutcome_eqb.
Qed.

Lemma nth_error_resolveAiOutcomes clock latest l k :
  nth_error (resolveAiOutcomes clock latest l) k
  = option_map (resolveAiOutcome (clock k) latest) (nth_error l k).
Proof. rewrite resolveAiOutcomes_map. apply nth_error_mapAt. Qed.

Lemma nth_error_resolveOrderBookOutcomes clock latest history l k :
  nth_error (resolveOrderBookOutcomes clock latest history l) k
  = option_map (resolveOrderBookOutcome (clock k) latest history)
               (nth_error l k).
Proof. rewrite resolveOrderBookOutcomes_map. apply nth_error_mapAt. Qed.

(** *** The effect and its runs *)

(** Slot [k] of the heuristic history after one run of the effect: either
    untouched or the image of the entry under the resolution rule. *)
Lemma step_orderBook st u k o :
  nth_error (orderBookOutcomes st) k = Some o ->
  exists o',
    nth_error (orderBookOutcomes (step st u)) k = Some o'
    /\ (o' = o
        \/ exists now latest,
             o' = resolveOrderBookOutcome now latest (newHistory u) o).
Proof.
  intros H. unfold step, resolutionPass. simpl.
  destruct (latestPrice (newHistory u)) as [latest|]; simpl; [|eauto].
  destruct (Js.eqb latest 0); simpl; [eauto|].
  rewrite nth_error_resolveOrderBookOutcomes, H. simpl. eauto 6.
Qed.

Lemma step_ai st u k o :
  nth_error (aiPredictionOutcomes st) k = Some o ->
  exists o',
    nth_error (aiPredictionOutcomes (step st u)) k = Some o'
    /\ (o' = o \/ exists now latest, o' = resolveAiOutcome now latest o).
Proof.
  intros H. unfold step, resolutionPass. simpl.
  destruct (latestPrice (newHistory u)) as [latest|]; simpl; [|eauto].
  destruct (Js.eqb latest 0); simpl; [eauto|].
  rewrite nth_error_resolveAiOutcomes, H. simpl. eauto 6.
Qed.

Lemma run_app st us1 us2 : run st (us1 ++ us2) = run (run st us1) us2.
Proof. apply fold_left_app. Qed.

Lemma run_orderBook_terminal us : forall st k o,
  nth_error (orderBookOutcomes st) k = Some o ->
  ob_status o <> OB_PENDING ->
  nth_error (orderBookOutcomes (run st us)) k = Some o.
Proof.
  induction us as [|u us IH]; intros st k o H Ht; [exact H|].
  simpl. apply IH; [|exact Ht].
  destruct (step_orderBook st u k o H) as (o' & Ho' & [->|(now & l & ->)]).
  - exact Ho'.
  - now rewrite resolveOrderBookOutcome_terminal in Ho'.
Qed.

Lemma run_ai_terminal us : forall st k o,
  nth_error (aiPredictionOutcomes st) k = Some o ->
  ai_status o <> PENDING ->
  nth_error (aiPredictionOutcomes (run st us)) k = Some o.
Proof.
  induction us as [|u us IH]; intros st k o H Ht; [exact H|].
  simpl. apply IH; [|exact Ht].
  destruct (step_ai st u k o H) as (o' & Ho' & [->|(now & l & ->)]).
  - exact Ho'.
  - now rewrite resolveAiOutcome_terminal in Ho'.
Qed.

(** Along a run a slot keeps its prediction, and its status is either the
    initial one or terminal. *)
Lemma run_orderBook_slot us : forall st k o,
  nth_error (orderBookOutcomes st) k = Some o ->
  exists o',
    nth_error (orderBookOutcomes (run st us)) k = Some o'
    /\ ob_prediction o' = ob_prediction o
    /\ (o' = o \/ (ob_status o = OB_PENDING /\ ob_status o' <> OB_PENDING)).
Proof.
  induction us as [|u us IH]; intros st k o H; [exists o; auto|].
  simpl.
  destruct (step_orderBook st u k o H) as (o1 & Ho1 & Hcase).
  destruct (IH _ _ _ Ho1) as (o' & Ho' & Hp & Hs).
  exists o'. split; [exact Ho'|].
  assert (Hp1 : ob_prediction o1 = ob_prediction o).
  { destruct Hcase as [->|(now & l & ->)];
      [reflexivity | apply resolveOrderBookOutcome_prediction]. }
  split; [congruence|].
  destruct (ob_status_eqb (ob_status o) OB_PENDING) eqn:E.
  - assert (Hpend : ob_status o = OB_PENDING)
      by (destruct (ob_status o); simpl in E; congruence).
    destruct (ob_status_eqb (ob_status o') OB_PENDING) eqn:E'.
    + left.
      assert (Hpend' : ob_status o' = OB_PENDING)
        by (destruct (ob_status o'); simpl in E'; congruence).
      destruct o as [p s], o' as [p' s']. simpl in *. congruence.
    + right. split; [exact Hpend|].
      intro Hc. rewrite Hc in E'. discriminate.
  - left.
    assert (Ht : ob_status o <> OB_PENDING)
      by (intro Hc; rewrite Hc in E; discriminate).
    pose proof (run_orderBook_terminal (u :: us) st k o H Ht) as Hr.
    simpl in Hr. congruence.
Qed.

Lemma run_ai_slot us : forall st k o,
  nth_error (aiPredictionOutcomes st) k = Some o ->
  exists o',
    nth_error (aiPredictionOutcomes (run st us)) k = Some o'
    /\ ai_prediction o' = ai_prediction o
    /\ (o' = o \/ (ai_status o = PENDING /\ ai_status o' <> PENDING)).
Proof.
  induction us as [|u us IH]; intros st k o H; [exists o; auto|].
  simpl.
  destruct (step_ai st u k o H) as (o1 & Ho1 & Hcase).
  destruct (IH _ _ _ Ho1) as (o' & Ho' & Hp & Hs).
  exists o'. split; [exact Ho'|].
  assert (Hp1 : ai_prediction o1 = ai_prediction o).
  { destruct Hcase as [->|(now & l & ->)];
      [reflexivity | apply resolveAiOutcome_prediction]. }
  split; [congruence|].
  destruct (status_eqb (ai_status o) PENDING) eqn:E.
  - assert (Hpend : ai_status o = PENDING)
      by (destruct (ai_status o); simpl in E; congruence).
    destruct (status_eqb (ai_status o') PENDING) eqn:E'.
    + left.
      assert (Hpend' : ai_status o' = PENDING)
        by (destruct (ai_status o'); simpl in E'; congruence).
      destruct o as [p s], o' as [p' s']. simpl in *. congruence.
    + right. split; [exact Hpend|].
      intro Hc. rewrite Hc in E'. discriminate.
  - left.
    assert (Ht : ai_status o <> PENDING)
      by (intro Hc; rewrite Hc in E; discriminate).
    pose proof (run_ai_terminal (u :: us) st k o H Ht) as Hr.
    simpl in Hr. congruence.
Qed.

(** *** Creation *)

Lemma In_firstn {A} (n : nat) (l : list A) (x : A) :
  In x (firstn n l) -> In x l.
Proof.
  intros H. rewrite <- (firstn_skipn n l). apply in_or_app. now left.
Qed.

Lemma addOrderBookOutcome_pending prev p o :
  In o (History.addOrderBookOutcome prev p) ->
  In o prev \/ o = {| ob_prediction := p; ob_status := OB_PENDING |}.
Proof.
  intros H. apply In_firstn in H. destruct H as [<-|H]; auto.
Qed.

Lemma addAiOutcomes_pending prev ps o :
  In o (History.addAiOutcomes prev ps) ->
  In o prev \/ (ai_status o = PENDING /\ In (ai_prediction o) ps).
Proof.
  intros H. apply In_firstn in H. apply in_app_or in H as [H|H]; auto.
  right. apply in_map_iff in H as (q & <- & Hq). auto.
Qed.

(** *** The baseline price *)






End TrackerFacts.

(** C3.  An outcome enters either history as PENDING; the resolution rule
    leaves a terminal outcome as it is; and along every sequence of price
    updates, each followed by the resolution pass over both histories, a
    slot keeps its prediction, changes its status at most once (from
    PENDING to a terminal status) and, once terminal, never changes
    again. *)
Theorem outcome_resolution_is_final :
  (* creation *)
  (forall prev p o,
      In o (History.addOrderBookOutcome prev p) ->
      In o prev \/ o = {| ob_prediction := p; ob_status := OB_PENDING |})
  /\ (forall prev ps o,
         In o (History.addAiOutcomes prev ps) ->
         In o prev \/ (ai_status o = PENDING /\ In (ai_prediction o) ps))
  (* the rule on a terminal outcome *)
  /\ (forall now latest history o,
         ob_status o <> OB_PENDING ->
         Tracker.resolveOrderBookOutcome now latest history o = o)
  /\ (forall now latest o,
         ai_status o <> PENDING ->
         Tracker.resolveAiOutcome now latest o = o)
  (* every run: at most one transition, away from PENDING *)
  /\ (forall st us k o,
         nth_error (Tracker.orderBookOutcomes st) k = Some o ->
         exists o',
           nth_error (Tracker.orderBookOutcomes (Tracker.run st us)) k = Some o'
           /\ ob_prediction o' = ob_prediction o
           /\ (o' = o
               \/ (ob_status o = OB_PENDING /\ ob_status o' <> OB_PENDING)))
  /\ (forall st us k o,
         nth_error (Tracker.aiPredictionOutcomes st) k = Some o ->
         exists o',
           nth_error (Tracker.aiPredictionOutcomes (Tracker.run st us)) k
           = Some o'
           /\ ai_prediction o' = ai_prediction o
           /\ (o' = o \/ (ai_status o = PENDING /\ ai_status o' <> PENDING)))
  (* every run: terminal is final *)
  /\ (forall st us1 us2 k o,
         nth_error (Tracker.orderBookOutcomes (Tracker.run st us1)) k = Some o ->
         ob_status o <> OB_PENDING ->
         nth_error (Tracker.orderBookOutcomes (Tracker.run st (us1 ++ us2))) k
         = Some o)
  /\ (forall st us1 us2 k o,
         nth_error (Tracker.aiPredictionOutcomes (Tracker.run st us1)) k
         = Some o ->
         ai_status o <> PENDING ->
         nth_error (Tracker.aiPredictionOutcomes (Tracker.run st (us1 ++ us2))) k
         = Some o).
Proof.
  split; [exact addOrderBookOutcome_pending|].
  split; [exact addAiOutcomes_pending|].
  split; [exact resolveOrderBookOutcome_terminal|].
  split; [exact resolveAiOutcome_terminal|].
  split; [intros; now apply run_orderBook_slot|].
  split; [intros; now apply run_ai_slot|].
  split; intros st us1 us2 k o H Ht; rewrite run_app.
  - now apply run_orderBook_terminal.
  - now apply run_ai_terminal.
Qed.

(** The scenario of the specification: the 15s UP prediction made at time 0
    is CORRECT once the price has risen at 15000 ms, in both trackers, and
    stays CORRECT when the pass runs again after the price has fallen. *)
Lemma outcome_resolution_is_final_witness :
  nth_error (Tracker.aiPredictionOutcomes
               (Tracker.run Samples.state0 [Samples.rise])) 0
  = Some {| ai_prediction := ai_prediction Samples.aiOutcome0;
            ai_status := CORRECT |}
  /\ nth_error (Tracker.aiPredictionOutcomes
                  (Tracker.run Samples.state0 ([Samples.rise] ++ [Samples.fall])))
               0
     = Some {| ai_prediction := ai_prediction Samples.aiOutcome0;
               ai_status := CORRECT |}
  /\ nth_error (Tracker.orderBookOutcomes
                  (Tracker.run Samples.state0 ([Samples.rise] ++ [Samples.fall])))
               0
     = Some {| ob_prediction := ob_prediction Samples.obOutcome0;
               ob_status := OB_CORRECT |}.
Proof.
  destruct outcome_resolution_is_final as (_ & _ & _ & _ & _ & _ & Hob & Hai).
  split; [reflexivity|]. split.
  - apply (Hai Samples.state0 [Samples.rise] [Samples.fall] 0%nat);
      [reflexivity | simpl; discriminate].
  - apply (Hob Samples.state0 [Samples.rise] [Samples.fall] 0%nat);
      [reflexivity | simpl; discriminate].
Defined.





(** ** Accuracy aggregation *)

Section AccuracyFacts.

Import AccuracyStats.

Lemma timeframe_eqb_eq a b : Tracker.timeframe_eqb a b = true <-> a = b.
Proof. destruct a, b; simpl; split; congruence. Qed.

Lemma ob_status_eqb_eq a b : Tracker.ob_status_eqb a b = true <-> a = b.
Proof. destruct a, b; simpl; split; congruence. Qed.

(** The filter of line 192 keeps exactly the qualifying outcomes, in
    their order. *)
Lemma relevant_qualifies tf outcomes o :
  In o (relevantOrderBookOutcomes tf outcomes)
  <-> In o outcomes /\ qualifies tf o.
Proof.
  unfold relevantOrderBookOutcomes, qualifies. rewrite filter_In.
  rewrite !andb_true_iff, !negb_true_iff, timeframe_eqb_eq.
  split; intros (Hin & H); (split; [exact Hin|]).
  - destruct H as ((Ht & Hd) & Hs). repeat split; auto.
    + intros Hc. rewrite Hc in Hs. discriminate.
    + intros Hc. rewrite Hc in Hd. discriminate.
  - destruct H as (Ht & Hs & Hd). repeat split; auto.
    + destruct (ob_direction (ob_prediction o)); simpl; congruence.
    + destruct (ob_status o); simpl; congruence.
Qed.

Lemma relevant_total tf outcomes :
  length (relevantOrderBookOutcomes tf outcomes) = spec_total tf outcomes.
Proof.
  unfold relevantOrderBookOutcomes.
  induction outcomes as [|o l IH]; [reflexivity|]. simpl.
  destruct (ob_timeframe (ob_prediction o)), tf,
    (ob_direction (ob_prediction o)), (ob_status o) eqn:Es;
    simpl in *; rewrite ?Es; simpl; rewrite ?IH; reflexivity.
Qed.

Lemma relevant_correct tf outcomes :
  length (filter (fun o => Tracker.ob_status_eqb (ob_status o) OB_CORRECT)
                 (relevantOrderBookOutcomes tf outcomes))
  = spec_correct tf outcomes.
Proof.
  unfold relevantOrderBookOutcomes.
  induction outcomes as [|o l IH]; [reflexivity|]. simpl.
  destruct (ob_timeframe (ob_prediction o)), tf,
    (ob_direction (ob_prediction o)), (ob_status o) eqn:Es;
    simpl in *; rewrite ?Es; simpl; rewrite ?IH; reflexivity.
Qed.

Lemma spec_correct_le_total tf outcomes :
  (spec_correct tf outcomes <= spec_total tf outcomes)%nat.
Proof.
  induction outcomes as [|o l IH]; [reflexivity|]. simpl.
  destruct (ob_timeframe (ob_prediction o)), tf,
    (ob_direction (ob_prediction o)), (ob_status o); simpl; lia.
Qed.

Lemma ratio_range c t :
  (0 < t)%nat -> (c <= t)%nat ->
  0 <= ratio c t <= 1 /\ ratio c t * inject_Z (Z.of_nat t) == inject_Z (Z.of_nat c).
Proof.
  intros Ht Hc. unfold ratio.
  assert (H0 : 0 < inject_Z (Z.of_nat t)).
  { change 0 with (inject_Z 0). rewrite <- Zlt_Qlt. lia. }
  assert (H1 : 0 <= inject_Z (Z.of_nat c)).
  { change 0 with (inject_Z 0). rewrite <- Zle_Qle. lia. }
  assert (H2 : inject_Z (Z.of_nat c) <= inject_Z (Z.of_nat t)).
  { rewrite <- Zle_Qle. lia. }
  repeat split.
  - apply Qle_shift_div_l; lra.
  - apply Qle_shift_div_r; lra.
  - field. lra.
Qed.

End AccuracyFacts.

(** C5.  For every outcome history and horizon the statistic is computed
    over exactly the outcomes of that horizon that are neither PENDING nor
    NEUTRAL in direction.  It is absent when there is none; otherwise it
    reports their number as [total] (positive), the number of CORRECT ones
    as [correct], and [accuracy = correct / total], a true quotient in
    [0, 1]. *)
Theorem orderBookAccuracyStats_spec :
  forall outcomes tf,
    (forall o,
        In o (AccuracyStats.relevantOrderBookOutcomes tf outcomes)
        <-> In o outcomes /\ AccuracyStats.qualifies tf o)
    /\ ((forall o, In o outcomes -> ~ AccuracyStats.qualifies tf o) ->
        AccuracyStats.orderBookAccuracyStats outcomes tf = None)
    /\ ((exists o, In o outcomes /\ AccuracyStats.qualifies tf o) ->
        exists a,
          AccuracyStats.orderBookAccuracyStats outcomes tf = Some a
          /\ total a = AccuracyStats.spec_total tf outcomes
          /\ correct a = AccuracyStats.spec_correct tf outcomes
          /\ (0 < total a)%nat
          /\ (correct a <= total a)%nat
          /\ accuracy a
             == inject_Z (Z.of_nat (correct a)) / inject_Z (Z.of_nat (total a))
          /\ accuracy a * inject_Z (Z.of_nat (total a))
             == inject_Z (Z.of_nat (correct a))
          /\ 0 <= accuracy a <= 1).
Proof.
  intros outcomes tf.
  split; [apply relevant_qualifies|].
  unfold AccuracyStats.orderBookAccuracyStats. cbv zeta.
  rewrite relevant_correct, relevant_total.
  pose proof (relevant_total tf outcomes) as Hlen.
  pose proof (spec_correct_le_total tf outcomes) as Hle.
  split.
  - intros Hnone.
    destruct (AccuracyStats.relevantOrderBookOutcomes tf outcomes) as [|o l] eqn:E.
    + simpl in Hlen. rewrite <- Hlen. reflexivity.
    + exfalso.
      assert (Hin : In o (AccuracyStats.relevantOrderBookOutcomes tf outcomes))
        by (rewrite E; now left).
      apply relevant_qualifies in Hin as (Hin & Hq). exact (Hnone o Hin Hq).
  - intros (o & Hin & Hq).
    assert (Hrel : In o (AccuracyStats.relevantOrderBookOutcomes tf outcomes))
      by (apply relevant_qualifies; auto).
    assert (Hpos : (0 < AccuracyStats.spec_total tf outcomes)%nat).
    { rewrite <- Hlen.
      destruct (AccuracyStats.relevantOrderBookOutcomes tf outcomes);
        [destruct Hrel | simpl; lia]. }
    destruct (Nat.ltb_spec 0 (AccuracyStats.spec_total tf outcomes));
      [|lia].
    eexists. split; [reflexivity|]. simpl.
    destruct (ratio_range _ _ Hpos Hle) as (Hr & Hm).
    repeat split; auto; try apply Hr; try reflexivity.
Qed.

Lemma orderBookAccuracyStats_spec_witness :
  AccuracyStats.orderBookAccuracyStats Samples.outcomeHistory TF30s = None
  /\ exists a,
       AccuracyStats.orderBookAccuracyStats Samples.outcomeHistory TF15s = Some a
       /\ total a = 2%nat /\ correct a = 1%nat /\ accuracy a == 0.5.
Proof.
  split.
  - apply (orderBookAccuracyStats_spec Samples.outcomeHistory TF30s).
    intros o Hin (Ht & Hs & Hd).
    simpl in Hin.
    repeat (destruct Hin as [<-|Hin]; [simpl in *; congruence|]).
    destruct Hin.
  - destruct (orderBookAccuracyStats_spec Samples.outcomeHistory TF15s)
      as (_ & _ & H).
    destruct H as (a & Ha & Ht & Hc & _ & _ & Hacc & _).
    + exists (Samples.obOutcome OT15s UP OB_CORRECT). split; [now left|].
      repeat split; simpl; congruence.
    + exists a. split; [exact Ha|]. simpl in Ht, Hc.
      split; [exact Ht|]. split; [exact Hc|].
      rewrite Hacc, Ht, Hc. reflexivity.
Defined.

(** ** The bounded price history *)

Section HistoryFacts.

Context {A : Type}.

Lemma length_slice_last (n : nat) (l : list A) :
  length (Js.slice_last n l) = Nat.min (length l) n.
Proof. unfold Js.slice_last. rewrite length_skipn. lia. Qed.

Lemma slice_last_short (n : nat) (l : list A) :
  (length l <= n)%nat -> Js.slice_last n l = l.
Proof.
  intros H. unfold Js.slice_last.
  replace (length l - n)%nat with 0%nat by lia. reflexivity.
Qed.

(** Trimming before more elements arrive loses nothing that the final
    trim would keep. *)
Lemma slice_last_app (n : nat) (l m : list A) :
  Js.slice_last n (Js.slice_last n l ++ m) = Js.slice_last n (l ++ m).
Proof.
  destruct (Nat.le_gt_cases (length l) n) as [H|H].
  - now rewrite (slice_last_short n l H).
  - unfold Js.slice_last at 1 3.
    rewrite !length_app, length_slice_last.
    rewrite !skipn_app, length_slice_last.
    unfold Js.slice_last. rewrite skipn_skipn.
    f_equal; f_equal; lia.
Qed.

End HistoryFacts.

Section PriceHistoryFacts.

Import History.

Lemma appendPrices_cons start t ticks :
  appendPrices start (t :: ticks) = appendPrices (appendPrice start t) ticks.
Proof. reflexivity. Qed.

Lemma appendPrices_nonempty ticks : forall start,
  ticks <> [] ->
  appendPrices start ticks
  = Js.slice_last MAX_HISTORY_LENGTH (start ++ ticks).
Proof.
  induction ticks as [|t ticks IH]; intros start Hne; [congruence|].
  rewrite appendPrices_cons.
  destruct ticks as [|t' ticks].
  - reflexivity.
  - rewrite IH by discriminate. unfold appendPrice.
    rewrite slice_last_app, <- app_assoc. reflexivity.
Qed.

Lemma appendPrices_bounded start ticks :
  (length start <= MAX_HISTORY_LENGTH)%nat ->
  appendPrices start ticks
  = Js.slice_last MAX_HISTORY_LENGTH (start ++ ticks).
Proof.
  intros H. destruct ticks as [|t ticks].
  - rewrite app_nil_r. symmetry. now apply slice_last_short.
  - apply appendPrices_nonempty. discriminate.
Qed.

End PriceHistoryFacts.

(** C9.  After every non-empty sequence of appends to any starting history
    the buffer is the trailing [min(total, 120)] entries of everything seen
    so far, in insertion order, so it never holds more than 120 entries; the
    same holds after no append when the starting buffer respects the bound.
    200 ticks appended to the empty buffer leave exactly the last 120. *)
Theorem priceHistory_bounded :
  (forall start ticks,
      ticks <> [] \/ (length start <= MAX_HISTORY_LENGTH)%nat ->
      History.appendPrices start ticks
      = skipn (length (start ++ ticks)
               - Nat.min (length (start ++ ticks)) 120)
              (start ++ ticks)
      /\ length (History.appendPrices start ticks)
         = Nat.min (length start + length ticks) 120
      /\ (length (History.appendPrices start ticks) <= 120)%nat)
  /\ (forall ticks,
         length ticks = 200%nat ->
         History.appendPrices [] ticks = skipn 80 ticks
         /\ length (History.appendPrices [] ticks) = 120%nat).
Proof.
  assert (Hgen : forall start ticks,
             ticks <> [] \/ (length start <= MAX_HISTORY_LENGTH)%nat ->
             History.appendPrices start ticks
             = Js.slice_last MAX_HISTORY_LENGTH (start ++ ticks)).
  { intros start ticks [H|H];
      [now apply appendPrices_nonempty | now apply appendPrices_bounded]. }
  split.
  - intros start ticks H. rewrite (Hgen _ _ H).
    rewrite length_slice_last, length_app.
    unfold Js.slice_last, MAX_HISTORY_LENGTH.
    repeat split; try lia.
    f_equal. rewrite length_app. lia.
  - intros ticks H.
    rewrite (Hgen [] ticks) by (left; intros ->; discriminate).
    rewrite length_slice_last. simpl app.
    unfold Js.slice_last, MAX_HISTORY_LENGTH. rewrite H.
    split; reflexivity.
Qed.

Lemma priceHistory_bounded_witness :
  History.appendPrices [] (Samples.ticksFrom 1 200) = Samples.ticksFrom 81 120
  /\ length (History.appendPrices [] (Samples.ticksFrom 1 200)) = 120%nat.
Proof.
  destruct (proj2 priceHistory_bounded (Samples.ticksFrom 1 200) eq_refl)
    as [H1 H2].
  split; [rewrite H1; reflexivity | exact H2].
Defined.

(** ** The order-book feature extractor *)

Section OrderBookFacts.

Import OrderBook.

Lemma fold_volume_ge (levels : list Level) : forall acc,
  Forall (fun level => 0 <= snd level) levels ->
  acc <= fold_left (fun sum level => sum + snd level) levels acc.
Proof.
  induction levels as [|l levels IH]; intros acc H; simpl; [lra|].
  inversion H as [|? ? Hl Hrest]; subst.
  specialize (IH (acc + snd l) Hrest). lra.
Qed.

Lemma volume_nonneg (levels : list Level) :
  Forall (fun level => 0 <= snd level) levels -> 0 <= volume levels.
Proof.
  intros H. unfold volume, Js.slice_first. apply fold_volume_ge.
  rewrite Forall_forall in *. intros l Hl. apply H.
  rewrite <- (firstn_skipn 10 levels). apply in_or_app. now left.
Qed.

(** The quotient of line 54 for non-negative volumes. *)
Lemma imbalance_range (b a : Q) :
  0 <= b -> 0 <= a ->
  0 < b + a + 0.000000001
  /\ -1 <= (b - a) / (b + a + 0.000000001) <= 1
  /\ (b == 0 -> a == 0 -> (b - a) / (b + a + 0.000000001) == 0).
Proof.
  intros Hb Ha.
  assert (Ht : 0 < b + a + 0.000000001) by lra.
  split; [exact Ht|]. split; [split|].
  - apply Qle_shift_div_l; lra.
  - apply Qle_shift_div_r; lra.
  - intros Hb0 Ha0. setoid_replace (b - a) with 0 by lra.
    unfold Qdiv. ring.
Qed.

End OrderBookFacts.

(** The volume of a side is the sum of the quantities of its first ten
    levels. *)
Lemma volume_sum_top10 (levels : list OrderBook.Level) :
  OrderBook.volume levels = Js.sum (map snd (firstn 10 levels)).
Proof.
  unfold OrderBook.volume, Js.slice_first, Js.sum.
  generalize (firstn 10 levels) as top. generalize 0 as acc.
  intros acc top. revert acc.
  induction top as [|l top IH]; intros acc; simpl; [reflexivity|apply IH].
Qed.

(** C8.  For a book with at least one level on each side and no negative
    quantity, the extractor returns features whose volumes are the sums of
    the quantities of the first ten levels of each side - deeper levels do
    not count -, whose imbalance is
    [(bid_vol - ask_vol) / (bid_vol + ask_vol + 1e-9)] with a positive
    divisor, and lies in [-1, 1]; when both volumes are zero it is zero. *)
Theorem getOrderBookFeatures_imbalance :
  forall book,
    OrderBook.bids book <> [] ->
    OrderBook.asks book <> [] ->
    Forall (fun level => 0 <= snd level) (OrderBook.bids book) ->
    Forall (fun level => 0 <= snd level) (OrderBook.asks book) ->
    exists f,
      OrderBook.getOrderBookFeatures (Some book) = Some f
      /\ bid_vol f = Js.sum (map snd (firstn 10 (OrderBook.bids book)))
      /\ ask_vol f = Js.sum (map snd (firstn 10 (OrderBook.asks book)))
      /\ (forall top deeper,
             OrderBook.bids book = top ++ deeper -> length top = 10%nat ->
             bid_vol f = Js.sum (map snd top))
      /\ (forall top deeper,
             OrderBook.asks book = top ++ deeper -> length top = 10%nat ->
             ask_vol f = Js.sum (map snd top))
      /\ 0 <= bid_vol f /\ 0 <= ask_vol f
      /\ 0 < bid_vol f + ask_vol f + 0.000000001
      /\ imbalance f == (bid_vol f - ask_vol f) / (bid_vol f + ask_vol f + 0.000000001)
      /\ -1 <= imbalance f <= 1
      /\ (bid_vol f == 0 -> ask_vol f == 0 -> imbalance f == 0).
Proof.
  intros [bs as_] Hb Ha Hqb Hqa. simpl in *.
  destruct bs as [|[best_bid qb] bs]; [congruence|].
  destruct as_ as [|[best_ask qa] as_]; [congruence|].
  eexists. split; [reflexivity|]. cbv zeta.
  cbn [bid_vol ask_vol imbalance].
  pose proof (volume_nonneg _ Hqb) as Hvb.
  pose proof (volume_nonneg _ Hqa) as Hva.
  destruct (imbalance_range _ _ Hvb Hva) as (Ht & Hr & Hz).
  split; [apply volume_sum_top10|]. split; [apply volume_sum_top10|].
  split.
  { intros top deeper E Hl. rewrite volume_sum_top10, E.
    rewrite <- Hl, firstn_app, Nat.sub_diag, firstn_all, firstn_O, app_nil_r.
    reflexivity. }
  split.
  { intros top deeper E Hl. rewrite volume_sum_top10, E.
    rewrite <- Hl, firstn_app, Nat.sub_diag, firstn_all, firstn_O, app_nil_r.
    reflexivity. }
  repeat split; auto; try apply Hr; reflexivity.
Qed.

Lemma getOrderBookFeatures_imbalance_witness :
  (exists f,
      OrderBook.getOrderBookFeatures (Some MoreSamples.deepBook) = Some f
      /\ bid_vol f == 10 /\ ask_vol f == 4 /\ -1 <= imbalance f <= 1)
  /\ (exists f,
         OrderBook.getOrderBookFeatures (Some Samples.emptyVolumeBook) = Some f
         /\ imbalance f == 0).
Proof.
  split.
  - destruct (getOrderBookFeatures_imbalance MoreSamples.deepBook)
      as (f & Hf & Hb & Ha & _ & _ & _ & _ & _ & _ & Hr & _).
    + simpl; discriminate.
    + simpl; discriminate.
    + repeat constructor; simpl; lra.
    + repeat constructor; simpl; lra.
    + exists f. split; [exact Hf|]. rewrite Hb, Ha.
      split; [vm_compute; reflexivity|].
      split; [vm_compute; reflexivity|exact Hr].
  - destruct (getOrderBookFeatures_imbalance Samples.emptyVolumeBook)
      as (f & Hf & Hb & Ha & _ & _ & _ & _ & _ & _ & _ & Hz).
    + simpl; discriminate.
    + simpl; discriminate.
    + repeat constructor; simpl; lra.
    + repeat constructor; simpl; lra.
    + exists f. split; [exact Hf|].
      apply Hz; [rewrite Hb | rewrite Ha]; vm_compute; reflexivity.
Defined.

(** ** The indicator engine *)

Section IndicatorFacts.

Import Indicators.

(** *** Index loops as list traversals *)

Lemma fold_left_map_arg {A B C} (f : A -> C -> A) (g : B -> C) (l : list B) :
  forall a, fold_left (fun acc i => f acc (g i)) l a = fold_left f (map g l) a.
Proof. induction l as [|x l IH]; intros a; simpl; [reflexivity|apply IH]. Qed.

Lemma skipn_cons_nth {A} (d : A) (l : list A) : forall a,
  (a < length l)%nat -> skipn a l = nth a l d :: skipn (S a) l.
Proof.
  induction l as [|x l IH]; intros a H; simpl in H; [lia|].
  destruct a as [|a]; [reflexivity|].
  simpl. apply IH. lia.
Qed.

Lemma length_deltas (prices : list Q) :
  length (deltas prices) = (length prices - 1)%nat.
Proof.
  induction prices as [|a [|b r] IH]; try reflexivity.
  change (deltas (a :: b :: r)) with ((b - a) :: deltas (b :: r)).
  simpl length in *. rewrite IH. lia.
Qed.

Lemma nth_deltas (prices : list Q) : forall i,
  (S i < length prices)%nat ->
  nth i (deltas prices) 0 = nth (S i) prices 0 - nth i prices 0.
Proof.
  induction prices as [|a [|b r] IH]; intros i H; simpl in H; try lia.
  change (deltas (a :: b :: r)) with ((b - a) :: deltas (b :: r)).
  destruct i as [|i]; [reflexivity|].
  change (nth (S i) ((b - a) :: deltas (b :: r)) 0)
    with (nth i (deltas (b :: r)) 0).
  rewrite IH by (simpl; lia). reflexivity.
Qed.

(** The changes read at the indices [a + 1 .. a + n] are a window of the
    list of successive changes. *)
Lemma map_change_seq (prices : list Q) : forall n a,
  (a + n <= length (deltas prices))%nat ->
  map (change prices) (seq (S a) n) = firstn n (skipn a (deltas prices)).
Proof.
  induction n as [|n IH]; intros a H; [reflexivity|].
  rewrite <- cons_seq, map_cons.
  rewrite (skipn_cons_nth 0 (deltas prices) a) by lia.
  rewrite firstn_cons, <- IH by lia. f_equal.
  unfold change. rewrite length_deltas in H.
  rewrite nth_deltas by lia.
  replace (S a - 1)%nat with a by lia. reflexivity.
Qed.

(** The RSI over the list of successive changes. *)
Lemma calculateRSI_deltas (prices : list Q) (period : nat) :
  (period < length prices)%nat ->
  calculateRSI prices period
  = Some (rsiOf
            (fold_left (smooth period) (skipn period (deltas prices))
               (let '(gains, losses) :=
                  fold_left accumulate (firstn period (deltas prices)) (0, 0)
                in (gains / num period, losses / num period)))).
Proof.
  intros H. unfold calculateRSI.
  destruct (Nat.leb_spec (length prices) period) as [Hle|_]; [lia|].
  pose proof (length_deltas prices) as Hlen.
  rewrite (fold_left_map_arg accumulate (change prices)).
  rewrite (map_change_seq prices period 0) by lia.
  change (skipn 0 (deltas prices)) with (deltas prices).
  destruct (fold_left accumulate _ _) as [gains losses].
  rewrite (fold_left_map_arg (smooth period) (change prices)).
  replace (period + 1)%nat with (S period) by lia.
  rewrite (map_change_seq prices _ period) by lia.
  rewrite (firstn_all2 (n := length prices - S period))
    by (rewrite length_skipn; lia).
  reflexivity.
Qed.

Lemma num_ge_1 (n : nat) : (1 <= n)%nat -> 1 <= num n.
Proof.
  intros H. unfold num. change 1 with (inject_Z 1).
  rewrite <- Zle_Qle. lia.
Qed.

(** *** Monotone series *)

Lemma increasing_deltas (prices : list Q) :
  strictlyIncreasing prices -> Forall (fun d => 0 < d) (deltas prices).
Proof.
  unfold strictlyIncreasing.
  induction prices as [|a [|b r] IH]; intros H; try constructor.
  - inversion H as [|? ? _ Hhd]; subst.
    inversion Hhd; subst. lra.
  - apply IH. now inversion H.
Qed.

Lemma decreasing_deltas (prices : list Q) :
  strictlyDecreasing prices -> Forall (fun d => d < 0) (deltas prices).
Proof.
  unfold strictlyDecreasing.
  induction prices as [|a [|b r] IH]; intros H; try constructor.
  - inversion H as [|? ? _ Hhd]; subst.
    inversion Hhd; subst. lra.
  - apply IH. now inversion H.
Qed.

Lemma Forall_firstn {A} (P : A -> Prop) (n : nat) (l : list A) :
  Forall P l -> Forall P (firstn n l).
Proof.
  rewrite !Forall_forall. intros H x Hx. apply H.
  rewrite <- (firstn_skipn n l). apply in_or_app. now left.
Qed.

Lemma Forall_skipn {A} (P : A -> Prop) (n : nat) (l : list A) :
  Forall P l -> Forall P (skipn n l).
Proof.
  rewrite !Forall_forall. intros H x Hx. apply H.
  rewrite <- (firstn_skipn n l). apply in_or_app. now right.
Qed.

(** Rising prices never add to [losses] ... *)
Lemma accumulate_gains (ds : list Q) : forall gains losses,
  Forall (fun d => 0 < d) ds ->
  snd (fold_left accumulate ds (gains, losses)) = losses.
Proof.
  induction ds as [|d ds IH]; intros gains losses H; [reflexivity|].
  inversion H as [|? ? Hd Hds]; subst. simpl.
  apply gtb_true in Hd. rewrite Hd. now apply IH.
Qed.

(** ... and keep a zero [avgLoss] at zero. *)
Lemma smooth_gains (period : nat) (ds : list Q) : forall avgGain avgLoss,
  Forall (fun d => 0 < d) ds ->
  avgLoss == 0 ->
  snd (fold_left (smooth period) ds (avgGain, avgLoss)) == 0.
Proof.
  induction ds as [|d ds IH]; intros avgGain avgLoss H H0; [exact H0|].
  inversion H as [|? ? Hd Hds]; subst. simpl.
  apply IH; [exact Hds|].
  assert (E : (d <? 0) = false) by (apply ltb_false; lra).
  rewrite E, H0. unfold Qdiv. ring.
Qed.

(** Falling prices never add to [gains] and make [losses] positive ... *)
Lemma accumulate_losses (ds : list Q) : forall gains losses,
  Forall (fun d => d < 0) ds ->
  fst (fold_left accumulate ds (gains, losses)) = gains
  /\ losses <= snd (fold_left accumulate ds (gains, losses))
  /\ (ds <> [] -> losses < snd (fold_left accumulate ds (gains, losses))).
Proof.
  induction ds as [|d ds IH]; intros gains losses H.
  - simpl. repeat split; [lra|congruence].
  - inversion H as [|? ? Hd Hds]; subst. simpl.
    assert (E : (d >? 0) = false) by (apply gtb_false; lra).
    rewrite E.
    destruct (IH gains (losses - d) Hds) as (Hg & Hl & _).
    repeat split; [exact Hg|lra|intros _; lra].
Qed.

(** ... and keep [avgGain] at zero and [avgLoss] positive. *)
Lemma smooth_losses (period : nat) (ds : list Q) : forall avgGain avgLoss,
  (1 <= period)%nat ->
  Forall (fun d => d < 0) ds ->
  avgGain == 0 -> 0 < avgLoss ->
  fst (fold_left (smooth period) ds (avgGain, avgLoss)) == 0
  /\ 0 < snd (fold_left (smooth period) ds (avgGain, avgLoss)).
Proof.
  intros avgGain avgLoss Hp. revert avgGain avgLoss.
  pose proof (num_ge_1 period Hp) as Hn.
  induction ds as [|d ds IH]; intros avgGain avgLoss H Hg Hl;
    [split; assumption|].
  inversion H as [|? ? Hd Hds]; subst. simpl.
  assert (E : (d >? 0) = false) by (apply gtb_false; lra).
  assert (E' : (d <? 0) = true) by (apply ltb_true; lra).
  rewrite E, E'. apply IH; [exact Hds| |].
  - rewrite Hg. unfold Qdiv. ring.
  - apply Qlt_shift_div_l; [lra|].
    assert (0 <= avgLoss * (num period - 1)) by (apply Qmult_le_0_compat; lra).
    lra.
Qed.

(** *** The general formula *)

Lemma gain_gtb (d : Q) : (if d >? 0 then d else 0) == gain d.
Proof.
  unfold gain. destruct (d >? 0) eqn:E;
    [apply gtb_true in E | apply gtb_false in E].
  - rewrite Q.max_l; lra.
  - rewrite Q.max_r; lra.
Qed.

Lemma loss_ltb (d : Q) : (if d <? 0 then - d else 0) == loss d.
Proof.
  unfold loss. destruct (d <? 0) eqn:E;
    [apply ltb_true in E | apply ltb_false in E].
  - rewrite Q.max_l; lra.
  - rewrite Q.max_r; lra.
Qed.

Lemma accumulate_sums (ds : list Q) : forall gains losses,
  fst (fold_left accumulate ds (gains, losses))
  == gains + sumOf (map gain ds)
  /\ snd (fold_left accumulate ds (gains, losses))
     == losses + sumOf (map loss ds).
Proof.
  induction ds as [|d ds IH]; intros gains losses; simpl.
  - split; ring.
  - pose proof (gain_gtb d) as Hg. pose proof (loss_ltb d) as Hl.
    destruct (d >? 0) eqn:E;
      [apply gtb_true in E | apply gtb_false in E].
    + destruct (IH (gains + d) losses) as [H1 H2].
      assert (El : (d <? 0) = false) by (apply ltb_false; lra).
      rewrite El in Hl. rewrite H1, H2, <- Hg, <- Hl. split; ring.
    + destruct (IH gains (losses - d)) as [H1 H2].
      rewrite H1, H2, <- Hg.
      destruct (d <? 0) eqn:El;
        [apply ltb_true in El | apply ltb_false in El];
        rewrite <- Hl; split; try ring.
      assert (d == 0) as -> by lra. ring.
Qed.

Lemma wilder_compat (period : nat) (xs : list Q) : forall avg avg',
  avg == avg' -> wilder period avg xs == wilder period avg' xs.
Proof.
  induction xs as [|x xs IH]; intros avg avg' H; simpl; [exact H|].
  apply IH. rewrite H. reflexivity.
Qed.

Lemma smooth_wilder (period : nat) (ds : list Q) : forall avgGain avgLoss,
  fst (fold_left (smooth period) ds (avgGain, avgLoss))
  == wilder period avgGain (map gain ds)
  /\ snd (fold_left (smooth period) ds (avgGain, avgLoss))
     == wilder period avgLoss (map loss ds).
Proof.
  induction ds as [|d ds IH]; intros avgGain avgLoss; simpl.
  - split; reflexivity.
  - destruct (IH ((avgGain * (num period - 1) + (if d >? 0 then d else 0))
                  / num period)
                 ((avgLoss * (num period - 1) + (if d <? 0 then - d else 0))
                  / num period)) as [H1 H2].
    rewrite H1, H2. split; apply wilder_compat.
    + rewrite gain_gtb. reflexivity.
    + rewrite loss_ltb. reflexivity.
Qed.

Lemma rsiOf_compat (g l g' l' : Q) :
  g == g' -> l == l' -> rsiOf (g, l) == rsiOf (g', l').
Proof.
  intros Hg Hl. unfold rsiOf, Js.eqb.
  rewrite (Qeqb_comp l l' Hl 0 0 (Qeq_refl 0)).
  destruct (Qeq_bool l' 0); [reflexivity|].
  rewrite Hg, Hl. reflexivity.
Qed.

Lemma rsiOf_spec (period : nat) (prices : list Q) :
  rsiOf (spec_avgGain period prices, spec_avgLoss period prices)
  = spec_RSI period prices.
Proof.
  unfold rsiOf, spec_RSI, Js.eqb.
  destruct (Qeq_dec (spec_avgLoss period prices) 0) as [H|H].
  - apply Qeq_bool_iff in H. now rewrite H.
  - destruct (Qeq_bool (spec_avgLoss period prices) 0) eqn:E;
      [apply Qeq_bool_iff in E; contradiction | reflexivity].
Qed.

End IndicatorFacts.

(** C7.  With more than [period] samples ([period] positive, 14 by
    default) the RSI of a strictly increasing series is exactly 100, that of
    a strictly decreasing series is 0, and in general it is 100 when the
    average loss is zero and [100 - 100 / (1 + avgGain / avgLoss)]
    otherwise, the averages being the means of the first [period] gains and
    losses smoothed over the remaining changes by Wilder's recursion. *)
Theorem calculateRSI_spec :
  forall prices period,
    (1 <= period)%nat ->
    (period < length prices)%nat ->
    (Indicators.strictlyIncreasing prices ->
     Indicators.calculateRSI prices period = Some 100)
    /\ (Indicators.strictlyDecreasing prices ->
        exists r, Indicators.calculateRSI prices period = Some r /\ r == 0)
    /\ (exists r,
           Indicators.calculateRSI prices period = Some r
           /\ r == Indicators.spec_RSI period prices).
Proof.
  intros prices period Hp Hlen.
  rewrite calculateRSI_deltas by exact Hlen.
  pose proof (num_ge_1 period Hp) as Hn.
  pose proof (length_deltas prices) as Hds.
  split; [|split].
  - intros Hinc. apply increasing_deltas in Hinc. f_equal.
    pose proof (accumulate_gains _ 0 0
                  (Forall_firstn _ period _ Hinc)) as Hl.
    destruct (fold_left Indicators.accumulate _ _) as [gains losses].
    simpl in Hl. subst losses.
    pose proof (smooth_gains period _ (gains / Indicators.num period)
                  (0 / Indicators.num period)
                  (Forall_skipn _ period _ Hinc)) as Ha.
    destruct (fold_left (Indicators.smooth period) _ _) as [avgGain avgLoss].
    simpl in Ha. unfold Indicators.rsiOf, Js.eqb.
    assert (H0 : avgLoss == 0) by (apply Ha; unfold Qdiv; ring).
    apply Qeq_bool_iff in H0. now rewrite H0.
  - intros Hdec. apply decreasing_deltas in Hdec. eexists.
    split; [reflexivity|].
    destruct (accumulate_losses _ 0 0 (Forall_firstn _ period _ Hdec))
      as (Hg & _ & Hl).
    assert (Hne : firstn period (Indicators.deltas prices) <> []).
    { intros E. apply (f_equal (@length Q)) in E.
      rewrite length_firstn in E. simpl in E. lia. }
    specialize (Hl Hne).
    destruct (fold_left Indicators.accumulate _ _) as [gains losses].
    simpl in Hg, Hl. subst gains.
    destruct (smooth_losses period _ (0 / Indicators.num period)
                (losses / Indicators.num period) Hp
                (Forall_skipn _ period _ Hdec)) as [Hag Hal].
    { unfold Qdiv. ring. }
    { apply Qlt_shift_div_l; lra. }
    destruct (fold_left (Indicators.smooth period) _ _) as [avgGain avgLoss].
    simpl in Hag, Hal. unfold Indicators.rsiOf, Js.eqb.
    destruct (Qeq_bool avgLoss 0) eqn:E.
    + apply Qeq_bool_iff in E. lra.
    + rewrite Hag. field. lra.
  - eexists. split; [reflexivity|].
    rewrite <- rsiOf_spec.
    destruct (accumulate_sums (firstn period (Indicators.deltas prices)) 0 0)
      as [Hg Hl].
    destruct (fold_left Indicators.accumulate _ _) as [gains losses].
    simpl in Hg, Hl.
    destruct (smooth_wilder period (skipn period (Indicators.deltas prices))
                (gains / Indicators.num period)
                (losses / Indicators.num period)) as [Hag Hal].
    destruct (fold_left (Indicators.smooth period) _ _) as [avgGain avgLoss].
    simpl in Hag, Hal.
    apply rsiOf_compat.
    + rewrite Hag. unfold Indicators.spec_avgGain. cbv zeta.
      apply wilder_compat. rewrite Hg. unfold Qdiv. ring.
    + rewrite Hal. unfold Indicators.spec_avgLoss. cbv zeta.
      apply wilder_compat. rewrite Hl. unfold Qdiv. ring.
Qed.

Lemma calculateRSI_spec_witness :
  Indicators.calculateRSI (Samples.rising 1 16) 14 = Some 100
  /\ exists r,
       Indicators.calculateRSI (Samples.falling 1 16) 14 = Some r /\ r == 0.
Proof.
  split.
  - apply (calculateRSI_spec (Samples.rising 1 16) 14); [lia|simpl; lia|].
    unfold Indicators.strictlyIncreasing. simpl. repeat constructor.
  - apply (calculateRSI_spec (Samples.falling 1 16) 14); [lia|simpl; lia|].
    unfold Indicators.strictlyDecreasing. simpl. repeat constructor.
Defined.

(** ** Insufficient history *)

Section NullGuards.

Import Indicators.

Lemma calculateRSI_none (prices : list Q) (period : nat) :
  calculateRSI prices period = None <-> (length prices <= period)%nat.
Proof.
  unfold calculateRSI.
  destruct (Nat.leb_spec (length prices) period) as [H|H].
  - split; auto.
  - destruct (fold_left _ (seq 1 period) _) as [gains losses].
    split; [discriminate|lia].
Qed.

Lemma calculateMACD_short (prices : list Q) (fast slow signal : nat) :
  (length prices < slow + signal)%nat ->
  calculateMACD prices fast slow signal = None.
Proof.
  intros H. unfold calculateMACD.
  destruct (Nat.ltb_spec (length prices) (slow + signal)); [reflexivity|lia].
Qed.

Lemma calculateSMA_none (data : list Q) (period : nat) :
  calculateSMA data period = None <-> (length data < period)%nat.
Proof.
  unfold calculateSMA.
  destruct (Nat.ltb_spec (length data) period) as [H|H];
    split; auto; try discriminate; lia.
Qed.

Lemma calculateStdDev_none Math_sqrt (data : list Q) (period : nat) :
  calculateStdDev Math_sqrt data period = None <-> (length data < period)%nat.
Proof.
  unfold calculateStdDev.
  destruct (Nat.ltb_spec (length data) period) as [H|H]; [split; auto|].
  destruct (calculateSMA (Js.slice_last period data) period) eqn:E.
  - split; [discriminate|lia].
  - apply calculateSMA_none in E. rewrite length_slice_last in E. lia.
Qed.

Lemma calculateBBands_none Math_sqrt (prices : list Q) (period : nat) mult :
  calculateBBands Math_sqrt prices period mult = None
  <-> (length prices < period)%nat.
Proof.
  unfold calculateBBands.
  destruct (Nat.ltb_spec (length prices) period) as [H|H]; [split; auto|].
  destruct (calculateSMA prices period) eqn:E1.
  - destruct (calculateStdDev Math_sqrt prices period) eqn:E2.
    + split; [discriminate|lia].
    + apply calculateStdDev_none in E2. lia.
  - apply calculateSMA_none in E1. lia.
Qed.

(** The number of %K values that can be formed. *)
Lemma calculateStochastic_none (highs lows closes : list Q) (kPeriod dPeriod : nat) :
  (1 <= kPeriod)%nat -> (1 <= dPeriod)%nat ->
  calculateStochastic highs lows closes kPeriod dPeriod = None
  <-> (length closes + 1 < kPeriod + dPeriod)%nat.
Proof.
  intros Hk Hd. unfold calculateStochastic.
  destruct (Nat.ltb_spec (length closes) kPeriod) as [H|H];
    [split; [lia|reflexivity]|].
  cbv zeta. rewrite length_map, length_seq.
  destruct (Nat.ltb_spec (length closes - (kPeriod - 1)) dPeriod) as [H'|H'];
    split; auto; try discriminate; lia.
Qed.

End NullGuards.

(** C6 (as amended).  On too short a series the indicators return null:
    the RSI (period 14) with fewer than 15 samples, the MACD (12, 26, 9)
    with fewer than 27 (indeed fewer than 35), the Stochastic oscillator
    (14, 3) with fewer than 15 closes, and the Bollinger bands (period 20)
    with fewer than 20 samples; with 20 samples or more the Bollinger bands
    are not null. *)
Theorem indicators_null_on_short_series :
  forall Math_sqrt highs lows prices,
    ((length prices < 14 + 1)%nat ->
     Indicators.calculateRSI prices 14 = None)
    /\ ((length prices < 26 + 1)%nat ->
        Indicators.calculateMACD prices 12 26 9 = None)
    /\ ((length prices < 26 + 9)%nat ->
        Indicators.calculateMACD prices 12 26 9 = None)
    /\ ((length prices < 14 + 1)%nat ->
        Indicators.calculateStochastic highs lows prices 14 3 = None)
    /\ ((length prices < 20)%nat ->
        Indicators.calculateBBands Math_sqrt prices 20 2 = None)
    /\ ((20 <= length prices)%nat ->
        Indicators.calculateBBands Math_sqrt prices 20 2 <> None).
Proof.
  intros Math_sqrt highs lows prices.
  split; [intros H; apply calculateRSI_none; lia|].
  split; [intros H; apply calculateMACD_short; lia|].
  split; [intros H; apply calculateMACD_short; lia|].
  split; [intros H; apply calculateStochastic_none; lia|].
  split; intros H.
  - now apply calculateBBands_none.
  - intros E. apply calculateBBands_none in E. lia.
Qed.

Lemma indicators_null_on_short_series_witness :
  Indicators.calculateRSI (Samples.rising 1 14) 14 = None
  /\ Indicators.calculateMACD (Samples.rising 1 14) 12 26 9 = None
  /\ Indicators.calculateStochastic
       (Samples.rising 1 14) (Samples.rising 1 14) (Samples.rising 1 14) 14 3
     = None
  /\ Indicators.calculateBBands Samples.sqrtFloor (Samples.rising 1 14) 20 2
     = None
  /\ Indicators.calculateBBands Samples.sqrtFloor (Samples.rising 1 20) 20 2
     <> None.
Proof.
  destruct (indicators_null_on_short_series Samples.sqrtFloor
              (Samples.rising 1 14) (Samples.rising 1 14) (Samples.rising 1 14))
    as (H1 & H2 & _ & H3 & H4 & _).
  destruct (indicators_null_on_short_series Samples.sqrtFloor
              (Samples.rising 1 20) (Samples.rising 1 20) (Samples.rising 1 20))
    as (_ & _ & _ & _ & _ & H5).
  split; [apply H1; simpl; lia|].
  split; [apply H2; simpl; lia|].
  split; [apply H3; simpl; lia|].
  split; [apply H4; simpl; lia|].
  apply H5. simpl. lia.
Defined.

(** The bound [period + 1] does not hold for the Bollinger bands: the
    series [1, 2, ..., 20] has fewer than 21 samples, yet the bands are
    computed, whatever [Math.sqrt] returns, with middle band 10.5. *)
Lemma calculateBBands_of_20_samples_is_not_null :
  (length (Samples.rising 1 20) < 20 + 1)%nat
  /\ forall Math_sqrt,
       exists b,
         Indicators.calculateBBands Math_sqrt (Samples.rising 1 20) 20 2
         = Some b
         /\ Indicators.middle b == 10.5.
Proof.
  split; [simpl; lia|].
  intros Math_sqrt. eexists. split; [reflexivity|].
  vm_compute. reflexivity.
Qed.

(** C10.  With the default periods the Stochastic oscillator returns null
    for every series of at most 15 closes, whatever the highs and lows, and
    a (%K, %D) pair for every series of 16 closes or more: at least 14
    closes are needed for one %K value and 3 such values for %D. *)
Theorem calculateStochastic_null_threshold :
  forall highs lows closes,
    (Indicators.calculateStochastic highs lows closes 14 3 = None
     <-> (length closes <= 14 + 3 - 2)%nat)
    /\ ((exists s, Indicators.calculateStochastic highs lows closes 14 3 = Some s)
        <-> (14 + 3 - 1 <= length closes)%nat).
Proof.
  intros highs lows closes.
  assert (H : Indicators.calculateStochastic highs lows closes 14 3 = None
              <-> (length closes + 1 < 14 + 3)%nat)
    by (apply calculateStochastic_none; lia).
  split.
  - rewrite H. simpl. lia.
  - split.
    + intros [s Hs].
      destruct (Nat.le_gt_cases (14 + 3 - 1) (length closes)) as [Hl|Hl];
        [exact Hl|].
      assert (Hn : Indicators.calculateStochastic highs lows closes 14 3 = None)
        by (apply H; simpl in *; lia).
      congruence.
    + intros Hl.
      destruct (Indicators.calculateStochastic highs lows closes 14 3) as [s|];
        [eauto|].
      assert (Hc : (length closes + 1 < 14 + 3)%nat) by (now apply H).
      simpl in *. lia.
Qed.

Lemma calculateStochastic_null_threshold_witness :
  Indicators.calculateStochastic
    (Samples.rising 2 15) (Samples.rising 0 15) (Samples.rising 1 15) 14 3
  = None
  /\ exists s,
       Indicators.calculateStochastic
         (Samples.rising 2 16) (Samples.rising 0 16) (Samples.rising 1 16) 14 3
       = Some s.
Proof.
  split.
  - apply (calculateStochastic_null_threshold
             (Samples.rising 2 15) (Samples.rising 0 15) (Samples.rising 1 15)).
    simpl. lia.
  - apply (calculateStochastic_null_threshold
             (Samples.rising 2 16) (Samples.rising 0 16) (Samples.rising 1 16)).
    simpl. lia.
Defined.

(* ================================================================== *)
(** * Part III: further properties of the code *)
(* ================================================================== *)

(** ** The RSI *)

Section RsiRange.

Import Indicators.

Lemma accumulate_nonneg (ds : list Q) : forall gains losses,
  0 <= gains -> 0 <= losses ->
  0 <= fst (fold_left accumulate ds (gains, losses))
  /\ 0 <= snd (fold_left accumulate ds (gains, losses)).
Proof.
  induction ds as [|d ds IH]; intros gains losses Hg Hl; [now split|].
  simpl. destruct (d >? 0) eqn:E;
    [apply gtb_true in E | apply gtb_false in E]; apply IH; lra.
Qed.

Lemma smooth_nonneg (period : nat) (ds : list Q) : forall avgGain avgLoss,
  (1 <= period)%nat ->
  0 <= avgGain -> 0 <= avgLoss ->
  0 <= fst (fold_left (smooth period) ds (avgGain, avgLoss))
  /\ 0 <= snd (fold_left (smooth period) ds (avgGain, avgLoss)).
Proof.
  intros avgGain avgLoss Hp. revert avgGain avgLoss.
  pose proof (num_ge_1 period Hp) as Hn.
  induction ds as [|d ds IH]; intros avgGain avgLoss Hg Hl; [now split|].
  simpl. apply IH.
  - apply Qle_shift_div_l; [lra|].
    assert (0 <= avgGain * (num period - 1))
      by (apply Qmult_le_0_compat; lra).
    destruct (d >? 0) eqn:E;
      [apply gtb_true in E | apply gtb_false in E]; lra.
  - apply Qle_shift_div_l; [lra|].
    assert (0 <= avgLoss * (num period - 1))
      by (apply Qmult_le_0_compat; lra).
    destruct (d <? 0) eqn:E;
      [apply ltb_true in E | apply ltb_false in E]; lra.
Qed.

Lemma rsiOf_range (avgGain avgLoss : Q) :
  0 <= avgGain -> 0 <= avgLoss -> 0 <= rsiOf (avgGain, avgLoss) <= 100.
Proof.
  intros Hg Hl. unfold rsiOf, Js.eqb.
  destruct (Qeq_bool avgLoss 0) eqn:E; [lra|].
  apply Qeq_bool_neq in E.
  assert (Hpos : 0 < avgLoss) by lra.
  assert (Hrs : 0 <= avgGain / avgLoss) by (apply Qle_shift_div_l; lra).
  assert (H1 : 0 < 1 + avgGain / avgLoss) by lra.
  assert (Hq : 0 <= 100 / (1 + avgGain / avgLoss) <= 100).
  { split; [apply Qle_shift_div_l; lra | apply Qle_shift_div_r; lra]. }
  lra.
Qed.

Lemma nondecreasing_deltas (prices : list Q) :
  Sorted Qle prices -> Forall (fun d => 0 <= d) (deltas prices).
Proof.
  induction prices as [|a [|b r] IH]; intros H; try constructor.
  - inversion H as [|? ? _ Hhd]; subst.
    inversion Hhd; subst. lra.
  - apply IH. now inversion H.
Qed.

Lemma accumulate_no_loss (ds : list Q) : forall gains losses,
  Forall (fun d => 0 <= d) ds ->
  losses == 0 ->
  snd (fold_left accumulate ds (gains, losses)) == 0.
Proof.
  induction ds as [|d ds IH]; intros gains losses H H0; [exact H0|].
  inversion H as [|? ? Hd Hds]; subst. simpl.
  destruct (d >? 0) eqn:E;
    [apply gtb_true in E | apply gtb_false in E]; apply IH; auto; lra.
Qed.

Lemma smooth_no_loss (period : nat) (ds : list Q) : forall avgGain avgLoss,
  Forall (fun d => 0 <= d) ds ->
  avgLoss == 0 ->
  snd (fold_left (smooth period) ds (avgGain, avgLoss)) == 0.
Proof.
  induction ds as [|d ds IH]; intros avgGain avgLoss H H0; [exact H0|].
  inversion H as [|? ? Hd Hds]; subst. simpl.
  apply IH; [exact Hds|].
  assert (E : (d <? 0) = false) by (apply ltb_false; lra).
  rewrite E, H0. unfold Qdiv. ring.
Qed.

End RsiRange.

(** X1.  Whenever the RSI is defined (a positive period and more than
    [period] samples) it is a number between 0 and 100. *)
Theorem calculateRSI_range :
  forall prices period,
    (1 <= period)%nat ->
    (period < length prices)%nat ->
    exists r, Indicators.calculateRSI prices period = Some r /\ 0 <= r <= 100.
Proof.
  intros prices period Hp Hlen.
  rewrite calculateRSI_deltas by exact Hlen.
  eexists. split; [reflexivity|].
  pose proof (num_ge_1 period Hp) as Hn.
  destruct (accumulate_nonneg
              (firstn period (Indicators.deltas prices)) 0 0) as [Hg Hl];
    try lra.
  destruct (fold_left Indicators.accumulate _ _) as [gains losses].
  simpl in Hg, Hl.
  destruct (smooth_nonneg period (skipn period (Indicators.deltas prices))
              (gains / Indicators.num period)
              (losses / Indicators.num period) Hp) as [Hag Hal];
    try (apply Qle_shift_div_l; lra).
  destruct (fold_left (Indicators.smooth period) _ _) as [avgGain avgLoss].
  now apply rsiOf_range.
Qed.

Lemma calculateRSI_range_witness :
  exists r,
    Indicators.calculateRSI
      (Samples.rising 1 10 ++ Samples.falling 3 8) 14 = Some r
    /\ 0 <= r <= 100.
Proof.
  apply (calculateRSI_range (Samples.rising 1 10 ++ Samples.falling 3 8) 14);
    simpl; lia.
Defined.

(** X2.  A series in which no price is below its predecessor - a flat
    series included - has RSI exactly 100: the average loss stays zero. *)
Theorem calculateRSI_never_falling :
  forall prices period,
    (1 <= period)%nat ->
    (period < length prices)%nat ->
    Sorted Qle prices ->
    Indicators.calculateRSI prices period = Some 100.
Proof.
  intros prices period Hp Hlen Hs.
  rewrite calculateRSI_deltas by exact Hlen. f_equal.
  apply nondecreasing_deltas in Hs.
  pose proof (accumulate_no_loss _ 0 0 (Forall_firstn _ period _ Hs)
                (Qeq_refl 0)) as Hl.
  destruct (fold_left Indicators.accumulate _ _) as [gains losses].
  simpl in Hl.
  pose proof (smooth_no_loss period _ (gains / Indicators.num period)
                (losses / Indicators.num period)
                (Forall_skipn _ period _ Hs)) as Ha.
  destruct (fold_left (Indicators.smooth period) _ _) as [avgGain avgLoss].
  simpl in Ha. unfold Indicators.rsiOf, Js.eqb.
  assert (H0 : avgLoss == 0) by (apply Ha; rewrite Hl; unfold Qdiv; ring).
  apply Qeq_bool_iff in H0. now rewrite H0.
Qed.

Lemma calculateRSI_never_falling_witness :
  Indicators.calculateRSI (repeat 2000 20) 14 = Some 100.
Proof.
  apply (calculateRSI_never_falling (repeat 2000 20) 14);
    [lia | simpl; lia |].
  simpl. repeat constructor; discriminate.
Defined.

(** ** Exponential averages and the MACD *)

Section EmaFacts.

Import Indicators.

Lemma num_S (n : nat) : num (S n) == num n + 1.
Proof.
  unfold num. rewrite Nat2Z.inj_succ, <- Z.add_1_r, inject_Z_plus.
  reflexivity.
Qed.

Lemma fold_plus_bounds (lo hi : Q) (l : list Q) : forall acc,
  Forall (fun x => lo <= x <= hi) l ->
  acc + num (length l) * lo <= fold_left Qplus l acc
  <= acc + num (length l) * hi.
Proof.
  induction l as [|x l IH]; intros acc H.
  - simpl. change (num 0) with 0. lra.
  - inversion H as [|? ? Hx Hl]; subst.
    specialize (IH (acc + x) Hl).
    simpl fold_left. simpl length. rewrite num_S. lra.
Qed.

(** A mean of values of an interval lies in the interval. *)
Lemma mean_bounds (lo hi : Q) (l : list Q) (n : nat) :
  (1 <= n)%nat -> length l = n ->
  Forall (fun x => lo <= x <= hi) l ->
  lo <= Js.sum l / num n <= hi.
Proof.
  intros Hn Hlen H. pose proof (num_ge_1 n Hn) as Hn1.
  pose proof (fold_plus_bounds lo hi l 0 H) as Hs.
  rewrite Hlen in Hs. unfold Js.sum.
  split; [apply Qle_shift_div_l | apply Qle_shift_div_r]; lra.
Qed.

Lemma smoothing_factor (period : nat) :
  (1 <= period)%nat -> 0 < 2 / (num period + 1) <= 1.
Proof.
  intros Hp. pose proof (num_ge_1 period Hp) as Hn.
  split; [apply Qlt_shift_div_l | apply Qle_shift_div_r]; lra.
Qed.

(** One step of the recursion is a convex combination. *)
Lemma ema_step_bounds (lo hi k p e : Q) :
  0 <= k <= 1 -> lo <= p <= hi -> lo <= e <= hi ->
  lo <= (p * k) + (e * (1 - k)) <= hi.
Proof.
  intros Hk Hp He.
  assert (H1 : 0 <= (p - lo) * k) by (apply Qmult_le_0_compat; lra).
  assert (H2 : 0 <= (e - lo) * (1 - k)) by (apply Qmult_le_0_compat; lra).
  assert (H3 : 0 <= (hi - p) * k) by (apply Qmult_le_0_compat; lra).
  assert (H4 : 0 <= (hi - e) * (1 - k)) by (apply Qmult_le_0_compat; lra).
  split.
  - setoid_replace ((p * k) + (e * (1 - k)))
      with (lo + ((p - lo) * k + (e - lo) * (1 - k))) by ring. lra.
  - setoid_replace ((p * k) + (e * (1 - k)))
      with (hi - ((hi - p) * k + (hi - e) * (1 - k))) by ring. lra.
Qed.

(** The recursion yields one defined value per remaining price. *)
Lemma emaFrom_values (lo hi k : Q) (rest : list Q) : forall prevEma,
  exists vs,
    emaFrom k prevEma rest = map Some vs
    /\ length vs = length rest
    /\ (0 <= k <= 1 -> lo <= prevEma <= hi ->
        Forall (fun x => lo <= x <= hi) rest ->
        Forall (fun x => lo <= x <= hi) vs).
Proof.
  induction rest as [|p rest IH]; intros prevEma.
  - exists []. repeat split. constructor.
  - destruct (IH ((p * k) + (prevEma * (1 - k)))) as (vs & Hv & Hl & Hb).
    exists (((p * k) + (prevEma * (1 - k))) :: vs). simpl.
    rewrite Hv, Hl. repeat split.
    intros Hk He H. inversion H as [|? ? Hp Hr]; subst.
    pose proof (ema_step_bounds lo hi k p prevEma Hk Hp He) as Hs.
    constructor; [exact Hs | now apply Hb].
Qed.

(** The shape of an EMA series: [period - 1] nulls, then the seed (the
    mean of the first [period] prices) and one value per later price, all
    within the range of the prices. *)
Lemma calculateEMASeries_form (lo hi : Q) (prices : list Q) (period : nat) :
  (1 <= period)%nat -> (period <= length prices)%nat ->
  exists vs,
    calculateEMASeries prices period
    = Some (repeat None (period - 1) ++ map Some vs)
    /\ length vs = (length prices - (period - 1))%nat
    /\ hd_error vs = Some (Js.sum (firstn period prices) / num period)
    /\ (Forall (fun x => lo <= x <= hi) prices ->
        Forall (fun x => lo <= x <= hi) vs).
Proof.
  intros Hp Hlen. unfold calculateEMASeries.
  destruct (Nat.ltb_spec (length prices) period) as [H|_]; [lia|].
  cbv zeta.
  destruct (emaFrom_values lo hi (2 / (num period + 1))
              (skipn period prices)
              (Js.sum (firstn period prices) / num period))
    as (vs & Hv & Hl & Hb).
  exists ((Js.sum (firstn period prices) / num period) :: vs).
  rewrite Hv. simpl map. repeat split.
  - simpl. rewrite Hl, length_skipn. lia.
  - intros H.
    assert (Hseed : lo <= Js.sum (firstn period prices) / num period <= hi).
    { apply mean_bounds; [exact Hp | | now apply Forall_firstn].
      rewrite length_firstn. lia. }
    constructor; [exact Hseed|].
    apply Hb; [|exact Hseed|now apply Forall_skipn].
    destruct (smoothing_factor period Hp). lra.
Qed.

Lemma calculateEMASeries_none (prices : list Q) (period : nat) :
  calculateEMASeries prices period = None <-> (length prices < period)%nat.
Proof.
  unfold calculateEMASeries.
  destruct (Nat.ltb_spec (length prices) period);
    split; auto; try discriminate; lia.
Qed.

Lemma nth_error_padded (vs : list Q) (n i : nat) :
  nth_error (repeat None n ++ map Some vs) i
  = if (i <? n)%nat then Some None
    else option_map Some (nth_error vs (i - n)).
Proof.
  destruct (Nat.ltb_spec i n) as [H|H].
  - rewrite nth_error_app1 by (rewrite repeat_length; exact H).
    apply nth_error_repeat. exact H.
  - rewrite nth_error_app2 by (rewrite repeat_length; exact H).
    rewrite repeat_length. apply nth_error_map.
Qed.

End EmaFacts.

(** Each value of the recursion is made from the price at its index and
    the value before. *)
Lemma emaFrom_step (k : Q) (rest : list Q) :
  forall seed j p,
    nth_error rest j = Some p ->
    exists prev,
      nth_error (Some seed :: Indicators.emaFrom k seed rest) j
      = Some (Some prev)
      /\ nth_error (Indicators.emaFrom k seed rest) j
         = Some (Some ((p * k) + (prev * (1 - k)))).
Proof.
  induction rest as [|p0 rest IH]; intros seed j p Hj.
  - destruct j; discriminate.
  - destruct j as [|j]; simpl in Hj.
    + injection Hj as <-. exists seed. split; reflexivity.
    + destruct (IH ((p0 * k) + (seed * (1 - k))) j p Hj) as (prev & H1 & H2).
      exists prev. split; [exact H1 | exact H2].
Qed.

(** X3.  For a positive period not above the number of prices, the EMA
    series has one entry per price: null before index [period - 1], the
    sum of the first [period] prices divided by [period] at that index,
    and at every later index [i] the value
    [prices[i] * k + emas[i - 1] * (1 - k)] with [k = 2 / (period + 1)],
    made from the defined entry before it. *)
Theorem calculateEMASeries_shape :
  forall prices period,
    (1 <= period)%nat ->
    (period <= length prices)%nat ->
    exists emas,
      Indicators.calculateEMASeries prices period = Some emas
      /\ length emas = length prices
      /\ (forall i, (i < period - 1)%nat -> nth_error emas i = Some None)
      /\ nth_error emas (period - 1)
         = Some (Some (Js.sum (firstn period prices) / Indicators.num period))
      /\ (forall i p,
             (period <= i)%nat ->
             nth_error prices i = Some p ->
             exists prev,
               nth_error emas (i - 1) = Some (Some prev)
               /\ nth_error emas i
                  = Some (Some ((p * (2 / (Indicators.num period + 1)))
                                + (prev
                                   * (1 - 2 / (Indicators.num period + 1)))))).
Proof.
  intros prices period Hp Hlen. unfold Indicators.calculateEMASeries.
  destruct (Nat.ltb_spec (length prices) period) as [H|_]; [lia|].
  cbv zeta.
  set (k := 2 / (Indicators.num period + 1)).
  set (seed := Js.sum (firstn period prices) / Indicators.num period).
  set (tail := Indicators.emaFrom k seed (skipn period prices)).
  assert (Ltail : length tail = (length prices - period)%nat).
  { unfold tail.
    destruct (emaFrom_values 0 0 k (skipn period prices) seed)
      as (vs & -> & Hl & _).
    now rewrite length_map, Hl, length_skipn. }
  eexists. split; [reflexivity|]. split.
  { rewrite length_app, repeat_length. simpl. rewrite Ltail. lia. }
  split.
  { intros i Hi.
    rewrite nth_error_app1 by (rewrite repeat_length; exact Hi).
    apply nth_error_repeat. exact Hi. }
  split.
  { rewrite nth_error_app2 by (rewrite repeat_length; lia).
    rewrite repeat_length, Nat.sub_diag. reflexivity. }
  intros i p Hi Hpi.
  assert (Hj : nth_error (skipn period prices) (i - period) = Some p).
  { rewrite nth_error_skipn. replace (period + (i - period))%nat with i by lia.
    exact Hpi. }
  destruct (emaFrom_step k (skipn period prices) seed (i - period) p Hj)
    as (prev & H1 & H2).
  exists prev. split.
  - rewrite nth_error_app2 by (rewrite repeat_length; lia).
    rewrite repeat_length.
    replace (i - 1 - (period - 1))%nat with (i - period)%nat by lia.
    exact H1.
  - rewrite nth_error_app2 by (rewrite repeat_length; lia).
    rewrite repeat_length.
    replace (i - (period - 1))%nat with (S (i - period)) by lia.
    exact H2.
Qed.

Lemma calculateEMASeries_shape_witness :
  exists emas,
    Indicators.calculateEMASeries (Samples.rising 1 5) 3 = Some emas
    /\ length emas = 5%nat
    /\ nth_error emas 1 = Some None
    /\ nth_error emas 2 = Some (Some (Js.sum [1; 2; 3] / 3))
    /\ exists prev,
         nth_error emas 2 = Some (Some prev)
         /\ nth_error emas 3
            = Some (Some ((4 * (2 / (3 + 1))) + (prev * (1 - 2 / (3 + 1))))).
Proof.
  destruct (calculateEMASeries_shape (Samples.rising 1 5) 3)
    as (emas & He & Hl & Hn & Hs & Hr); [lia | simpl; lia |].
  exists emas. split; [exact He|]. split; [exact Hl|].
  split; [apply Hn; lia|]. split; [exact Hs|].
  exact (Hr 3%nat 4 (Nat.le_refl 3) eq_refl).
Defined.

Section MacdFacts.

Import Indicators.

Lemma validValues_app (l l' : list (option Q)) :
  validValues (l ++ l') = validValues l ++ validValues l'.
Proof.
  induction l as [|[v|] l IH]; simpl; [reflexivity| |exact IH].
  now rewrite IH.
Qed.

Lemma validValues_padded (vs : list Q) (n : nat) :
  validValues (repeat None n ++ map Some vs) = vs.
Proof.
  rewrite validValues_app.
  replace (validValues (repeat None n)) with (@nil Q)
    by (induction n; simpl; auto).
  induction vs as [|v vs IH]; simpl; [reflexivity|].
  simpl in IH. now rewrite IH.
Qed.

Lemma nth_padded (vs : list Q) (n i : nat) :
  nth i (repeat None n ++ map Some vs) None
  = if (i <? n)%nat then None
    else if (i - n <? length vs)%nat then Some (nth (i - n) vs 0) else None.
Proof.
  destruct (Nat.ltb_spec i n) as [H|H].
  - rewrite app_nth1 by (rewrite repeat_length; exact H).
    apply nth_repeat.
  - rewrite app_nth2 by (rewrite repeat_length; exact H).
    rewrite repeat_length.
    destruct (Nat.ltb_spec (i - n) (length vs)) as [H'|H'].
    + rewrite (nth_indep _ None (Some 0)) by (rewrite length_map; exact H').
      apply (map_nth Some).
    + apply nth_overflow. rewrite length_map. exact H'.
Qed.

(** The MACD line: null while the slow average is, then the differences
    of the two averages. *)
Lemma macdLine_form (v12 v26 : list Q) (fast slow len : nat) :
  (1 <= fast <= slow)%nat -> (slow <= len)%nat ->
  length v12 = (len - (fast - 1))%nat ->
  length v26 = (len - (slow - 1))%nat ->
  map (fun i =>
         match nth i (repeat None (fast - 1) ++ map Some v12) None,
               nth i (repeat None (slow - 1) ++ map Some v26) None with
         | Some f, Some s => Some (f - s)
         | _, _ => None
         end)
      (seq 0 len)
  = repeat None (slow - 1)
    ++ map Some
         (map (fun i => nth (i - (fast - 1)) v12 0 - nth (i - (slow - 1)) v26 0)
              (seq (slow - 1) (len - (slow - 1)))).
Proof.
  intros Hf Hs H12 H26.
  replace len with ((slow - 1) + (len - (slow - 1)))%nat at 1 by lia.
  rewrite seq_app, map_app. f_equal.
  - rewrite <- (length_seq (slow - 1) 0) at 2.
    rewrite <- map_const. apply map_ext_in.
    intros i Hi. apply in_seq in Hi. rewrite !nth_padded.
    destruct (Nat.ltb_spec i (slow - 1)); [|lia].
    destruct (i <? fast - 1)%nat; [reflexivity|].
    destruct (i - (fast - 1) <? length v12)%nat; reflexivity.
  - rewrite map_map. apply map_ext_in.
    intros i Hi. apply in_seq in Hi. rewrite !nth_padded.
    destruct (Nat.ltb_spec i (fast - 1)); [lia|].
    destruct (Nat.ltb_spec i (slow - 1)); [lia|].
    destruct (Nat.ltb_spec (i - (fast - 1)) (length v12)); [|lia].
    destruct (Nat.ltb_spec (i - (slow - 1)) (length v26)); [|lia].
    reflexivity.
Qed.

Lemma last_defined {A} (l : list A) :
  l <> [] -> exists x, nth_error l (length l - 1) = Some x /\ In x l.
Proof.
  intros H. destruct (nth_error l (length l - 1)) as [x|] eqn:E.
  - exists x. split; [reflexivity|]. eapply nth_error_In; eauto.
  - apply nth_error_None in E. destruct l; [congruence|simpl in E; lia].
Qed.

(** The MACD with enough history. *)
Lemma calculateMACD_result (lo hi : Q) (prices : list Q)
    (fast slow sig : nat) :
  (1 <= fast <= slow)%nat -> (1 <= sig)%nat ->
  (slow + sig <= length prices)%nat ->
  exists m,
    calculateMACD prices fast slow sig = Some m
    /\ histogram m = macd m - signal m
    /\ (Forall (fun x => lo <= x <= hi) prices ->
        lo - hi <= macd m <= hi - lo /\ lo - hi <= signal m <= hi - lo).
Proof.
  intros Hf Hg Hlen. unfold calculateMACD.
  destruct (Nat.ltb_spec (length prices) (slow + sig)) as [H|_]; [lia|].
  destruct (calculateEMASeries_form lo hi prices fast)
    as (v12 & E12 & L12 & _ & B12); [lia|lia|].
  destruct (calculateEMASeries_form lo hi prices slow)
    as (v26 & E26 & L26 & _ & B26); [lia|lia|].
  rewrite E12, E26. cbv zeta.
  rewrite (macdLine_form v12 v26 fast slow (length prices)) by (auto; lia).
  rewrite validValues_padded.
  set (line := map (fun i => nth (i - (fast - 1)) v12 0
                             - nth (i - (slow - 1)) v26 0)
                   (seq (slow - 1) (length prices - (slow - 1)))).
  assert (Lline : length line = (length prices - (slow - 1))%nat)
    by (unfold line; now rewrite length_map, length_seq).
  assert (Bline : Forall (fun x => lo <= x <= hi) prices ->
                  Forall (fun x => lo - hi <= x <= hi - lo) line).
  { intros Hr. specialize (B12 Hr). specialize (B26 Hr).
    rewrite Forall_forall in *. intros x Hx. unfold line in Hx.
    apply in_map_iff in Hx as (i & <- & Hi). apply in_seq in Hi.
    assert (H1 : lo <= nth (i - (fast - 1)) v12 0 <= hi)
      by (apply B12, nth_In; lia).
    assert (H2 : lo <= nth (i - (slow - 1)) v26 0 <= hi)
      by (apply B26, nth_In; lia).
    lra. }
  destruct (Nat.ltb_spec (length line) sig) as [H|_]; [lia|].
  destruct (calculateEMASeries_form (lo - hi) (hi - lo) line sig)
    as (vs & Es & Ls & _ & Bs); [lia|lia|].
  rewrite Es, validValues_padded.
  destruct (Nat.eqb_spec (length vs) 0) as [H|_]; [lia|].
  destruct (last_defined line) as (lastMacd & Em & Im);
    [intros E; rewrite E in Lline; simpl in Lline; lia|].
  destruct (last_defined vs) as (lastSignal & Esig & Isig);
    [intros E; rewrite E in Ls; simpl in Ls; lia|].
  rewrite Em, Esig. eexists. split; [reflexivity|].
  split; [reflexivity|]. simpl.
  intros Hr. specialize (Bline Hr). specialize (Bs Bline).
  rewrite Forall_forall in Bline, Bs. split; auto.
Qed.

End MacdFacts.

(** X4.  With periods [1 <= fast <= slow] and [1 <= signal] (the defaults
    12, 26, 9 included) the MACD is null exactly when there are fewer than
    [slow + signal] prices; when it is defined its histogram is the MACD
    line minus the signal line. *)
Theorem calculateMACD_defined :
  forall prices fast slow sig,
    (1 <= fast <= slow)%nat ->
    (1 <= sig)%nat ->
    (Indicators.calculateMACD prices fast slow sig = None
     <-> (length prices < slow + sig)%nat)
    /\ (forall m,
           Indicators.calculateMACD prices fast slow sig = Some m ->
           Indicators.histogram m
           = Indicators.macd m - Indicators.signal m).
Proof.
  intros prices fast slow sig Hf Hg.
  destruct (Nat.lt_ge_cases (length prices) (slow + sig)) as [H|H].
  - rewrite (calculateMACD_short prices fast slow sig H).
    split; [tauto|discriminate].
  - destruct (calculateMACD_result 0 0 prices fast slow sig Hf Hg H)
      as (m & Em & Hh & _).
    rewrite Em. split.
    + split; [discriminate|lia].
    + intros m' E. injection E as <-. exact Hh.
Qed.

Lemma calculateMACD_defined_witness :
  Indicators.calculateMACD (Samples.rising 1 34) 12 26 9 = None
  /\ Indicators.calculateMACD (Samples.rising 1 35) 12 26 9 <> None.
Proof.
  split.
  - apply (calculateMACD_defined (Samples.rising 1 34) 12 26 9);
      simpl; lia.
  - intros E.
    apply (calculateMACD_defined (Samples.rising 1 35) 12 26 9) in E;
      simpl in E; lia.
Defined.

Section MacdStructure.

Import Indicators.

Lemma nth_error_seq_lt (a n j : nat) :
  (j < n)%nat -> nth_error (seq a n) j = Some (a + j)%nat.
Proof.
  intros H. rewrite (nth_error_nth' _ 0%nat) by (rewrite length_seq; exact H).
  now rewrite seq_nth.
Qed.

(** The MACD with enough history, from its parts: the two averages, the
    line of their differences from index [slow - 1] on, and the average of
    that line. *)
Lemma calculateMACD_parts (prices : list Q) (fast slow sig : nat) :
  (1 <= fast <= slow)%nat -> (1 <= sig)%nat ->
  (slow + sig <= length prices)%nat ->
  exists m emaFast emaSlow line signalLine,
    calculateMACD prices fast slow sig = Some m
    /\ calculateEMASeries prices fast = Some emaFast
    /\ calculateEMASeries prices slow = Some emaSlow
    /\ length line = (length prices - (slow - 1))%nat
    /\ (forall j, (j < length line)%nat ->
                  exists f s,
                    nth_error emaFast (slow - 1 + j) = Some (Some f)
                    /\ nth_error emaSlow (slow - 1 + j) = Some (Some s)
                    /\ nth_error line j = Some (f - s))
    /\ calculateEMASeries line sig = Some signalLine
    /\ nth_error line (length line - 1) = Some (macd m)
    /\ nth_error signalLine (length line - 1) = Some (Some (signal m)).
Proof.
  intros Hf Hg Hlen. unfold calculateMACD.
  destruct (Nat.ltb_spec (length prices) (slow + sig)) as [H|_]; [lia|].
  destruct (calculateEMASeries_form 0 0 prices fast)
    as (v12 & E12 & L12 & _ & _); [lia|lia|].
  destruct (calculateEMASeries_form 0 0 prices slow)
    as (v26 & E26 & L26 & _ & _); [lia|lia|].
  rewrite E12, E26. cbv zeta.
  rewrite (macdLine_form v12 v26 fast slow (length prices)) by (auto; lia).
  rewrite validValues_padded.
  set (line := map (fun i => nth (i - (fast - 1)) v12 0
                             - nth (i - (slow - 1)) v26 0)
                   (seq (slow - 1) (length prices - (slow - 1)))).
  assert (Lline : length line = (length prices - (slow - 1))%nat)
    by (unfold line; now rewrite length_map, length_seq).
  destruct (Nat.ltb_spec (length line) sig) as [H|_]; [lia|].
  destruct (calculateEMASeries_form 0 0 line sig)
    as (vs & Es & Ls & _ & _); [lia|lia|].
  rewrite Es, validValues_padded.
  destruct (Nat.eqb_spec (length vs) 0) as [H|_]; [lia|].
  destruct (last_defined line) as (lastMacd & Em & _);
    [intros E; rewrite E in Lline; simpl in Lline; lia|].
  destruct (last_defined vs) as (lastSignal & Esig & _);
    [intros E; rewrite E in Ls; simpl in Ls; lia|].
  rewrite Em, Esig.
  eexists. exists (repeat None (fast - 1) ++ map Some v12).
  exists (repeat None (slow - 1) ++ map Some v26).
  exists line. exists (repeat None (sig - 1) ++ map Some vs).
  split; [reflexivity|]. split; [reflexivity|]. split; [reflexivity|].
  split; [exact Lline|]. split.
  { intros j Hj. rewrite Lline in Hj.
    exists (nth (slow - 1 + j - (fast - 1)) v12 0), (nth j v26 0).
    rewrite !nth_error_padded.
    destruct (Nat.ltb_spec (slow - 1 + j) (fast - 1)); [lia|].
    destruct (Nat.ltb_spec (slow - 1 + j) (slow - 1)); [lia|].
    replace (slow - 1 + j - (slow - 1))%nat with j by lia.
    rewrite (nth_error_nth' v12 0) by lia.
    rewrite (nth_error_nth' v26 0) by lia.
    split; [reflexivity|]. split; [reflexivity|].
    unfold line. rewrite nth_error_map, nth_error_seq_lt by lia.
    simpl. replace (slow - 1 + j - (slow - 1))%nat with j by lia.
    reflexivity. }
  split; [exact Es|]. split; [exact Em|].
  simpl. rewrite nth_error_padded.
  destruct (Nat.ltb_spec (length line - 1) (sig - 1)); [lia|].
  replace (length line - 1 - (sig - 1))%nat with (length vs - 1)%nat by lia.
  now rewrite Esig.
Qed.

End MacdStructure.

(** X5.  When the MACD is defined (periods [1 <= fast <= slow] and
    [1 <= signal]), it is composed as follows.  The MACD line has one value
    per price from index [slow - 1] on, the fast average minus the slow
    average at that index; the reported [macd] is its last value; and the
    reported [signal] is the last entry of the [signal]-period average of
    that line. *)
Theorem calculateMACD_composition :
  forall prices fast slow sig m,
    (1 <= fast <= slow)%nat ->
    (1 <= sig)%nat ->
    Indicators.calculateMACD prices fast slow sig = Some m ->
    exists emaFast emaSlow line signalLine,
      Indicators.calculateEMASeries prices fast = Some emaFast
      /\ Indicators.calculateEMASeries prices slow = Some emaSlow
      /\ length line = (length prices - (slow - 1))%nat
      /\ (forall j, (j < length line)%nat ->
                    exists f s,
                      nth_error emaFast (slow - 1 + j) = Some (Some f)
                      /\ nth_error emaSlow (slow - 1 + j) = Some (Some s)
                      /\ nth_error line j = Some (f - s))
      /\ Indicators.calculateEMASeries line sig = Some signalLine
      /\ nth_error line (length line - 1) = Some (Indicators.macd m)
      /\ nth_error signalLine (length line - 1)
         = Some (Some (Indicators.signal m)).
Proof.
  intros prices fast slow sig m Hf Hg Em.
  destruct (Nat.lt_ge_cases (length prices) (slow + sig)) as [H|H].
  - rewrite (calculateMACD_short prices fast slow sig H) in Em.
    discriminate.
  - destruct (calculateMACD_parts prices fast slow sig Hf Hg H)
      as (m' & emaFast & emaSlow & line & signalLine & Em' & Hrest).
    rewrite Em in Em'. injection Em' as <-.
    exists emaFast, emaSlow, line, signalLine. exact Hrest.
Qed.

Lemma calculateMACD_composition_witness :
  exists m emaFast emaSlow f s,
    Indicators.calculateMACD (Samples.rising 1 40) 12 26 9 = Some m
    /\ Indicators.calculateEMASeries (Samples.rising 1 40) 12 = Some emaFast
    /\ Indicators.calculateEMASeries (Samples.rising 1 40) 26 = Some emaSlow
    /\ nth_error emaFast 39 = Some (Some f)
    /\ nth_error emaSlow 39 = Some (Some s)
    /\ Indicators.macd m = f - s.
Proof.
  destruct (calculateMACD_parts (Samples.rising 1 40) 12 26 9)
    as (m & _ & _ & _ & _ & Em & _); [lia | lia | simpl; lia |].
  destruct (calculateMACD_composition (Samples.rising 1 40) 12 26 9 m)
    as (emaFast & emaSlow & line & signalLine
        & Ef & Es & Hl & Hline & _ & Hm & _); [lia | lia | exact Em |].
  change (length (Samples.rising 1 40)) with 40%nat in Hl.
  assert (Hl' : length line = 15%nat) by (rewrite Hl; reflexivity).
  rewrite Hl' in Hm.
  destruct (Hline 14%nat) as (f & s & Hfast & Hslow & Hj);
    [rewrite Hl'; lia|].
  exists m, emaFast, emaSlow, f, s.
  split; [exact Em|]. split; [exact Ef|]. split; [exact Es|].
  split; [exact Hfast|]. split; [exact Hslow|].
  change (15 - 1)%nat with 14%nat in Hm. congruence.
Defined.

(** ** Bollinger bands *)

Section BandsFacts.

Import Indicators.

Lemma Forall_slice_last {A} (P : A -> Prop) (n : nat) (l : list A) :
  Forall P l -> Forall P (Js.slice_last n l).
Proof. apply Forall_skipn. Qed.

Lemma sum_zero (l : list Q) :
  Forall (fun x => x == 0) l -> Js.sum l == 0.
Proof.
  intros H.
  assert (H' : Forall (fun x => 0 <= x <= 0) l).
  { rewrite Forall_forall in *. intros x Hx. specialize (H x Hx). lra. }
  pose proof (fold_plus_bounds 0 0 l 0 H') as Hb. unfold Js.sum. lra.
Qed.

End BandsFacts.

(** X6.  When the Bollinger bands are defined, the middle band is the sum
    of the last [period] prices divided by [period]; if [Math.sqrt] and the
    multiplier are not negative, [lower <= middle <= upper]; and with a
    multiplier of zero the three bands coincide. *)
Theorem calculateBBands_ordered :
  forall Math_sqrt prices period mult b,
    (1 <= period)%nat ->
    Indicators.calculateBBands Math_sqrt prices period mult = Some b ->
    Indicators.middle b
    = Js.sum (Js.slice_last period prices) / Indicators.num period
    /\ ((forall x, 0 <= Math_sqrt x) -> 0 <= mult ->
        Indicators.lower b <= Indicators.middle b <= Indicators.upper b)
    /\ (mult == 0 ->
        Indicators.lower b == Indicators.middle b
        /\ Indicators.upper b == Indicators.middle b).
Proof.
  intros Math_sqrt prices period mult b Hp Hb.
  unfold Indicators.calculateBBands in Hb.
  destruct (Nat.ltb_spec (length prices) period) as [H|H]; [discriminate|].
  unfold Indicators.calculateSMA in Hb.
  destruct (Nat.ltb_spec (length prices) period) as [H'|_]; [lia|].
  cbv zeta in Hb.
  unfold Indicators.calculateStdDev in Hb.
  destruct (Nat.ltb_spec (length prices) period) as [H'|_]; [lia|].
  cbv zeta in Hb.
  destruct (Indicators.calculateSMA (Js.slice_last period prices) period)
    as [mean|]; [|discriminate].
  injection Hb as <-. simpl.
  split; [reflexivity|]. split.
  - intros Hs Hm.
    match goal with |- context [Math_sqrt ?v] =>
      pose proof (Hs v) as Hv; set (sd := Math_sqrt v) in * end.
    assert (0 <= sd * mult) by (apply Qmult_le_0_compat; assumption).
    lra.
  - intros Hz.
    match goal with |- context [Math_sqrt ?v] =>
      set (sd := Math_sqrt v) in * end.
    assert (Hd : sd * mult == 0) by (rewrite Hz; ring).
    split; lra.
Qed.

Lemma calculateBBands_ordered_witness :
  exists b,
    Indicators.calculateBBands Samples.sqrtFloor (Samples.rising 1 25) 20 2
    = Some b
    /\ Indicators.middle b == 15.5
    /\ Indicators.lower b <= Indicators.middle b <= Indicators.upper b.
Proof.
  destruct (Indicators.calculateBBands
              Samples.sqrtFloor (Samples.rising 1 25) 20 2) as [b|] eqn:E;
    [|vm_compute in E; discriminate].
  exists b. split; [reflexivity|].
  destruct (calculateBBands_ordered Samples.sqrtFloor
              (Samples.rising 1 25) 20 2 b) as (Hm & Ho & _);
    [lia | exact E |].
  split; [rewrite Hm; vm_compute; reflexivity|].
  apply Ho; [|lra].
  intros x. unfold Samples.sqrtFloor.
  change 0 with (inject_Z 0). rewrite <- Zle_Qle. apply Z.sqrt_nonneg.
Defined.

(** ** The Stochastic oscillator *)

Section StochasticFacts.

Import Indicators.

Lemma fold_max_spec (rest : list Q) : forall x,
  x <= fold_left Js.max rest x
  /\ Forall (fun y => y <= fold_left Js.max rest x) rest.
Proof.
  induction rest as [|y rest IH]; intros x; simpl.
  - split; [lra|constructor].
  - destruct (IH (Js.max x y)) as [H1 H2].
    pose proof (Q.le_max_l x y). pose proof (Q.le_max_r x y).
    unfold Js.max in *. split; [lra|]. constructor; [lra|exact H2].
Qed.

Lemma fold_min_spec (rest : list Q) : forall x,
  fold_left Js.min rest x <= x
  /\ Forall (fun y => fold_left Js.min rest x <= y) rest.
Proof.
  induction rest as [|y rest IH]; intros x; simpl.
  - split; [lra|constructor].
  - destruct (IH (Js.min x y)) as [H1 H2].
    pose proof (Q.le_min_l x y). pose proof (Q.le_min_r x y).
    unfold Js.min in *. split; [lra|]. constructor; [lra|exact H2].
Qed.

Lemma maxOf_upper (xs : list Q) (x : Q) :
  In x xs -> exists m, maxOf xs = Some m /\ x <= m.
Proof.
  destruct xs as [|a rest]; [intros []|]. intros Hin.
  eexists. split; [reflexivity|].
  destruct (fold_max_spec rest a) as [H1 H2].
  destruct Hin as [<-|Hin]; [exact H1|].
  rewrite Forall_forall in H2. now apply H2.
Qed.

Lemma minOf_lower (xs : list Q) (x : Q) :
  In x xs -> exists m, minOf xs = Some m /\ m <= x.
Proof.
  destruct xs as [|a rest]; [intros []|]. intros Hin.
  eexists. split; [reflexivity|].
  destruct (fold_min_spec rest a) as [H1 H2].
  destruct Hin as [<-|Hin]; [exact H1|].
  rewrite Forall_forall in H2. now apply H2.
Qed.

(** The window ending at index [i] contains the entry at [i]. *)
Lemma slice_contains_last (l : list Q) (kPeriod i : nat) :
  (1 <= kPeriod)%nat -> (kPeriod <= i + 1)%nat -> (i < length l)%nat ->
  In (nth i l 0) (Js.slice (i + 1 - kPeriod) (i + 1) l).
Proof.
  intros Hk Hi Hl. unfold Js.slice.
  apply (nth_error_In _ (kPeriod - 1)).
  rewrite nth_error_firstn.
  destruct (Nat.ltb_spec (kPeriod - 1) (i + 1 - (i + 1 - kPeriod)));
    [|lia].
  rewrite nth_error_skipn.
  replace (i + 1 - kPeriod + (kPeriod - 1))%nat with i by lia.
  now apply nth_error_nth'.
Qed.

Lemma stochasticK_range (highs lows closes : list Q) (kPeriod i : nat) :
  (1 <= kPeriod)%nat -> (kPeriod <= i + 1)%nat ->
  (i < length closes)%nat ->
  length highs = length closes -> length lows = length closes ->
  nth i lows 0 <= nth i closes 0 <= nth i highs 0 ->
  exists k, stochasticK highs lows closes kPeriod i = Finite k
            /\ 0 <= k <= 100.
Proof.
  intros Hk Hi Hl Hh Hlo Hc. unfold stochasticK. cbv zeta.
  destruct (maxOf_upper _ _ (slice_contains_last highs kPeriod i Hk Hi
                               ltac:(lia))) as (h & -> & Hmax).
  destruct (minOf_lower _ _ (slice_contains_last lows kPeriod i Hk Hi
                               ltac:(lia))) as (l & -> & Hmin).
  unfold Js.eqb. destruct (Qeq_bool h l) eqn:E.
  - exists 100. split; [reflexivity|lra].
  - apply Qeq_bool_neq in E. eexists. split; [reflexivity|].
    assert (Hpos : 0 < h - l) by lra.
    assert (Hq : 0 <= (nth i closes 0 - l) / (h - l) <= 1).
    { split; [apply Qle_shift_div_l | apply Qle_shift_div_r]; lra. }
    lra.
Qed.

Lemma fold_addValue_range (vs : list Value) : forall acc,
  Forall (fun v => exists k, v = Finite k /\ 0 <= k <= 100) vs ->
  exists s,
    fold_left addValue vs (Finite acc) = Finite s
    /\ acc <= s <= acc + 100 * num (length vs).
Proof.
  induction vs as [|v vs IH]; intros acc H.
  - exists acc. split; [reflexivity|]. simpl. change (num 0) with 0. lra.
  - inversion H as [|? ? (k & -> & Hk) Hvs]; subst.
    destruct (IH (acc + k) Hvs) as (s & Hs & Hb).
    exists s. split; [exact Hs|].
    simpl length. rewrite num_S. lra.
Qed.

End StochasticFacts.

(** X7.  For equally long series with [low <= close <= high] at every
    index, the Stochastic oscillator, whenever it is defined, reports finite
    %K and %D values between 0 and 100. *)
Theorem calculateStochastic_range :
  forall highs lows closes kPeriod dPeriod s,
    (1 <= kPeriod)%nat -> (1 <= dPeriod)%nat ->
    length highs = length closes ->
    length lows = length closes ->
    (forall i, (i < length closes)%nat ->
               nth i lows 0 <= nth i closes 0 <= nth i highs 0) ->
    Indicators.calculateStochastic highs lows closes kPeriod dPeriod = Some s ->
    exists k d,
      Indicators.stoch_k s = Indicators.Finite k
      /\ Indicators.stoch_d s = Indicators.Finite d
      /\ 0 <= k <= 100 /\ 0 <= d <= 100.
Proof.
  intros highs lows closes kPeriod dPeriod s Hk Hd Hh Hl Hc Hs.
  unfold Indicators.calculateStochastic in Hs.
  destruct (Nat.ltb_spec (length closes) kPeriod) as [H|H]; [discriminate|].
  cbv zeta in Hs.
  set (kValues := map (Indicators.stochasticK highs lows closes kPeriod)
                      (seq (kPeriod - 1) (length closes - (kPeriod - 1))))
    in *.
  assert (Hall : Forall (fun v => exists k, v = Indicators.Finite k
                                            /\ 0 <= k <= 100) kValues).
  { apply Forall_forall. intros v Hv. unfold kValues in Hv.
    apply in_map_iff in Hv as (i & <- & Hi). apply in_seq in Hi.
    apply stochasticK_range; auto; try lia. apply Hc. lia. }
  assert (Hlen : length kValues = (length closes - (kPeriod - 1))%nat)
    by (unfold kValues; now rewrite length_map, length_seq).
  destruct (Nat.ltb_spec (length kValues) dPeriod) as [H'|H'];
    [discriminate|].
  injection Hs as <-. simpl.
  assert (Hlast : In (nth (length kValues - 1) kValues Indicators.NaN)
                     kValues) by (apply nth_In; lia).
  rewrite Forall_forall in Hall.
  destruct (Hall _ Hlast) as (k & Ek & Hkr).
  destruct (fold_addValue_range (Js.slice_last dPeriod kValues) 0)
    as (sum & Es & Hsum).
  { apply Forall_forall. intros v Hv. apply Hall.
    unfold Js.slice_last in Hv.
    rewrite <- (firstn_skipn (length kValues - dPeriod) kValues).
    apply in_or_app. now right. }
  rewrite length_slice_last in Hsum.
  replace (Nat.min (length kValues) dPeriod) with dPeriod in Hsum by lia.
  pose proof (num_ge_1 dPeriod Hd) as Hn.
  exists k, (sum / Indicators.num dPeriod).
  rewrite Ek, Es. simpl. repeat split; try lra.
  - apply Qle_shift_div_l; lra.
  - apply Qle_shift_div_r; lra.
Qed.

Lemma calculateStochastic_range_witness :
  exists s k d,
    Indicators.calculateStochastic
      (Samples.rising 2 20) (Samples.rising 0 20) (Samples.rising 1 20) 14 3
    = Some s
    /\ Indicators.stoch_k s = Indicators.Finite k
    /\ Indicators.stoch_d s = Indicators.Finite d
    /\ 0 <= k <= 100 /\ 0 <= d <= 100.
Proof.
  destruct (Indicators.calculateStochastic
              (Samples.rising 2 20) (Samples.rising 0 20)
              (Samples.rising 1 20) 14 3) as [s|] eqn:E;
    [|vm_compute in E; discriminate].
  destruct (calculateStochastic_range
              (Samples.rising 2 20) (Samples.rising 0 20)
              (Samples.rising 1 20) 14 3 s) as (k & d & H);
    [lia | lia | reflexivity | reflexivity | | exact E |].
  - intros i Hi. simpl in Hi.
    do 20 (destruct i as [|i]; [vm_compute; split; discriminate|]).
    lia.
  - exists s, k, d. split; [reflexivity|exact H].
Defined.

(** ** The order-book features *)

Section MoreOrderBookFacts.

Import OrderBook.

Lemma volume_top10 (levels : list Level) :
  volume (firstn 10 levels) = volume levels.
Proof. unfold volume, Js.slice_first. now rewrite firstn_firstn. Qed.

(** The features of a book, when there are any. *)
Lemma getOrderBookFeatures_some (book : Book) (f : OrderBookFeatureData) :
  getOrderBookFeatures (Some book) = Some f ->
  exists best_bid best_ask,
    hd_error (map fst (bids book)) = Some best_bid
    /\ hd_error (map fst (asks book)) = Some best_ask
    /\ mid_price f = (best_bid + best_ask) / 2
    /\ spread f = best_ask - best_bid
    /\ bid_vol f = volume (bids book)
    /\ ask_vol f = volume (asks book)
    /\ imbalance f
       = (volume (bids book) - volume (asks book))
         / (volume (bids book) + volume (asks book) + 0.000000001)
    /\ weighted_mid f
       = ((best_ask * volume (bids book)) + (best_bid * volume (asks book)))
         / (volume (bids book) + volume (asks book) + 0.000000001).
Proof.
  destruct book as [bs as_]. unfold getOrderBookFeatures.
  cbn [bids asks].
  destruct bs as [|[best_bid qb] bs]; [discriminate|].
  destruct as_ as [|[best_ask qa] as_]; [discriminate|].
  cbv zeta. intros H. injection H as <-.
  exists best_bid, best_ask. repeat split.
Qed.

End MoreOrderBookFacts.

(** X8.  Only the first ten levels of each side are read: the features of
    a book are those of the book cut to its ten best bids and asks. *)
Theorem getOrderBookFeatures_top10 :
  forall book,
    OrderBook.getOrderBookFeatures (Some book)
    = OrderBook.getOrderBookFeatures
        (Some {| OrderBook.bids := firstn 10 (OrderBook.bids book);
                 OrderBook.asks := firstn 10 (OrderBook.asks book) |}).
Proof.
  intros [bs as_].
  destruct bs as [|[best_bid qb] bs]; [reflexivity|].
  destruct as_ as [|[best_ask qa] as_];
    [unfold OrderBook.getOrderBookFeatures; reflexivity|].
  pose proof (volume_top10 ((best_bid, qb) :: bs)) as Hb.
  pose proof (volume_top10 ((best_ask, qa) :: as_)) as Ha.
  cbn [OrderBook.bids OrderBook.asks].
  change (firstn 10 ((best_bid, qb) :: bs))
    with ((best_bid, qb) :: firstn 9 bs) in *.
  change (firstn 10 ((best_ask, qa) :: as_))
    with ((best_ask, qa) :: firstn 9 as_) in *.
  set (bs' := firstn 9 bs) in *. set (as' := firstn 9 as_) in *.
  unfold OrderBook.getOrderBookFeatures.
  cbn [OrderBook.bids OrderBook.asks]. cbv zeta.
  rewrite Hb, Ha. reflexivity.
Qed.

(** X9.  For non-negative quantities the volume-weighted mid is the mid
    price, scaled by [(bid_vol + ask_vol) / (bid_vol + ask_vol + 1e-9)],
    plus half the spread times the imbalance; with no volume at all it is
    0, not the mid price; and for an uncrossed book with non-negative
    prices it lies between 0 and the best ask. *)
Theorem getOrderBookFeatures_weighted_mid :
  forall book f,
    Forall (fun level => 0 <= snd level) (OrderBook.bids book) ->
    Forall (fun level => 0 <= snd level) (OrderBook.asks book) ->
    OrderBook.getOrderBookFeatures (Some book) = Some f ->
    weighted_mid f
    == mid_price f
       * ((bid_vol f + ask_vol f) / (bid_vol f + ask_vol f + 0.000000001))
       + spread f / 2 * imbalance f
    /\ (bid_vol f == 0 -> ask_vol f == 0 -> weighted_mid f == 0)
    /\ (0 <= spread f -> 0 <= mid_price f - spread f / 2 ->
        0 <= weighted_mid f <= mid_price f + spread f / 2).
Proof.
  intros book f Hqb Hqa Hf.
  destruct (getOrderBookFeatures_some book f Hf)
    as (best_bid & best_ask & _ & _ & -> & -> & -> & -> & -> & ->).
  pose proof (volume_nonneg _ Hqb) as Hvb.
  pose proof (volume_nonneg _ Hqa) as Hva.
  set (bv := OrderBook.volume (OrderBook.bids book)) in *.
  set (av := OrderBook.volume (OrderBook.asks book)) in *.
  assert (Ht : 0 < bv + av + 0.000000001) by lra.
  split; [field; lra|]. split.
  - intros Hb0 Ha0. rewrite Hb0, Ha0. unfold Qdiv. ring.
  - intros Hs Hm.
    assert (Hbid : 0 <= best_bid).
    { setoid_replace best_bid
        with ((best_bid + best_ask) / 2 - (best_ask - best_bid) / 2)
        by field. exact Hm. }
    assert (Hask : best_bid <= best_ask) by lra.
    assert (H1 : 0 <= best_ask * bv) by (apply Qmult_le_0_compat; lra).
    assert (H2 : 0 <= best_bid * av) by (apply Qmult_le_0_compat; lra).
    assert (H3 : 0 <= (best_ask - best_bid) * av)
      by (apply Qmult_le_0_compat; lra).
    split.
    + apply Qle_shift_div_l; lra.
    + apply Qle_shift_div_r; [exact Ht|].
      setoid_replace ((best_bid + best_ask) / 2 + (best_ask - best_bid) / 2)
        with best_ask by field.
      setoid_replace (best_ask * (bv + av + 0.000000001))
        with (best_ask * bv + best_bid * av
              + ((best_ask - best_bid) * av + best_ask * 0.000000001))
        by ring.
      lra.
Qed.

Lemma getOrderBookFeatures_weighted_mid_witness :
  exists f,
    OrderBook.getOrderBookFeatures (Some Samples.emptyVolumeBook) = Some f
    /\ mid_price f == 2000 /\ weighted_mid f == 0.
Proof.
  destruct (OrderBook.getOrderBookFeatures (Some Samples.emptyVolumeBook))
    as [f|] eqn:E; [|discriminate].
  exists f. split; [reflexivity|].
  destruct (getOrderBookFeatures_weighted_mid Samples.emptyVolumeBook f)
    as (_ & Hz & _).
  - repeat constructor; simpl; lra.
  - repeat constructor; simpl; lra.
  - exact E.
  - injection E as <-. split; [vm_compute; reflexivity|].
    apply Hz; vm_compute; reflexivity.
Defined.

(** X10.  For non-negative quantities the imbalance is positive exactly
    when the bid volume exceeds the ask volume, and exchanging the two sides
    of the book exchanges the volumes and negates the imbalance. *)
Theorem getOrderBookFeatures_sides :
  forall book f,
    Forall (fun level => 0 <= snd level) (OrderBook.bids book) ->
    Forall (fun level => 0 <= snd level) (OrderBook.asks book) ->
    OrderBook.getOrderBookFeatures (Some book) = Some f ->
    (0 < imbalance f <-> ask_vol f < bid_vol f)
    /\ (imbalance f < 0 <-> bid_vol f < ask_vol f)
    /\ exists f',
         OrderBook.getOrderBookFeatures (Some (Mirror.book book)) = Some f'
         /\ bid_vol f' = ask_vol f /\ ask_vol f' = bid_vol f
         /\ imbalance f' == - imbalance f.
Proof.
  intros book f Hqb Hqa Hf.
  destruct (getOrderBookFeatures_some book f Hf)
    as (best_bid & best_ask & Hbb & Hba & _ & _ & Ebv & Eav & Ei & _).
  rewrite Ei, Ebv, Eav.
  pose proof (volume_nonneg _ Hqb) as Hvb.
  pose proof (volume_nonneg _ Hqa) as Hva.
  set (bv := OrderBook.volume (OrderBook.bids book)) in *.
  set (av := OrderBook.volume (OrderBook.asks book)) in *.
  assert (Ht : 0 < bv + av + 0.000000001) by lra.
  assert (Hneg : (av - bv) / (av + bv + 0.000000001)
                 == - ((bv - av) / (bv + av + 0.000000001)))
    by (field; lra).
  assert (Hsign : forall x, 0 < x / (bv + av + 0.000000001) <-> 0 < x).
  { intros x. split; intros H.
    - destruct (Qlt_le_dec 0 x) as [Hx|Hx]; [exact Hx|].
      assert (x / (bv + av + 0.000000001) <= 0)
        by (apply Qle_shift_div_r; lra).
      lra.
    - apply Qlt_shift_div_l; lra. }
  split; [|split].
  - rewrite Hsign. split; lra.
  - assert (Hn : (bv - av) / (bv + av + 0.000000001)
                 == - ((av - bv) / (bv + av + 0.000000001)))
      by (field; lra).
    rewrite Hn. pose proof (Hsign (av - bv)) as Hs.
    split; intros H.
    + assert (0 < (av - bv) / (bv + av + 0.000000001)) by lra.
      apply Hs in H0. lra.
    + assert (0 < (av - bv) / (bv + av + 0.000000001)) by (apply Hs; lra).
      lra.
  - destruct book as [bs as_]. unfold Mirror.book.
    cbn [OrderBook.bids OrderBook.asks] in *.
    destruct bs as [|[bb qb] bs]; [discriminate|].
    destruct as_ as [|[ba qa] as_]; [discriminate|].
    eexists. split; [reflexivity|].
    cbn [bid_vol ask_vol imbalance].
    split; [reflexivity|]. split; [reflexivity|]. exact Hneg.
Qed.

Lemma getOrderBookFeatures_sides_witness :
  exists f f',
    OrderBook.getOrderBookFeatures (Some Samples.book) = Some f
    /\ OrderBook.getOrderBookFeatures (Some (Mirror.book Samples.book))
       = Some f'
    /\ 0 < imbalance f /\ imbalance f' == - imbalance f.
Proof.
  destruct (OrderBook.getOrderBookFeatures (Some Samples.book))
    as [f|] eqn:E; [|discriminate].
  destruct (getOrderBookFeatures_sides Samples.book f)
    as (Hpos & _ & f' & Ef' & _ & _ & Hneg).
  - repeat constructor; simpl; lra.
  - repeat constructor; simpl; lra.
  - exact E.
  - exists f, f'. split; [reflexivity|]. split; [exact Ef'|].
    split; [|exact Hneg].
    apply Hpos. injection E as <-. vm_compute. reflexivity.
Defined.

Lemma getOrderBookFeatures_top10_witness :
  exists f,
    OrderBook.getOrderBookFeatures (Some MoreSamples.deepBook) = Some f
    /\ bid_vol f == 10.
Proof.
  rewrite (getOrderBookFeatures_top10 MoreSamples.deepBook).
  eexists. split; [reflexivity|]. vm_compute. reflexivity.
Defined.

(** ** The heuristic signal generator, continued *)

Section MoreHeuristicFacts.

Import Heuristic.

(** The two momentum terms move the raw confidence by at most +0.25 and
    -0.35. *)
Lemma adjustedConfidence_bounds cur prev priceChange :
  Qabs (imbalance cur) * 1.5 - 0.35
  <= adjustedConfidence cur prev priceChange
  <= Qabs (imbalance cur) * 1.5 + 0.25.
Proof.
  unfold adjustedConfidence, Js.abs. cbv zeta.
  destruct prev as [p|]; destruct (baseDirection cur);
    simpl direction_eqb; cmp_cases; simpl; lra.
Qed.

Lemma adjustedConfidence_neutral cur prev priceChange :
  baseDirection cur = NEUTRAL ->
  adjustedConfidence cur prev priceChange = Qabs (imbalance cur) * 1.5.
Proof.
  intros H. unfold adjustedConfidence, Js.abs.
  destruct prev; cbv zeta; rewrite H; simpl direction_eqb;
    rewrite !andb_false_r; reflexivity.
Qed.

Lemma adjustedConfidence_alone cur priceChange :
  -0.1 <= priceChange <= 0.1 ->
  adjustedConfidence cur None priceChange = Qabs (imbalance cur) * 1.5.
Proof.
  intros H. unfold adjustedConfidence, Js.abs. cbv zeta.
  assert (E1 : (priceChange >? 0.1) = false) by (apply gtb_false; lra).
  assert (E2 : (priceChange <? Qopp 0.1) = false) by (apply ltb_false; lra).
  rewrite E1, E2. reflexivity.
Qed.

Lemma baseDirection_cases cur :
  (baseDirection cur = UP /\ 0.05 < imbalance cur)
  \/ (baseDirection cur = DOWN /\ imbalance cur < -0.05)
  \/ (baseDirection cur = NEUTRAL /\ -0.05 <= imbalance cur <= 0.05).
Proof.
  unfold baseDirection.
  destruct (imbalance cur >? 0.05) eqn:E1;
    [apply gtb_true in E1; left; auto | apply gtb_false in E1].
  destruct (imbalance cur <? -0.05) eqn:E2;
    [apply ltb_true in E2; right; left; auto
    | apply ltb_false in E2; right; right; auto].
Qed.

Lemma direction_cases now tf cur prev priceChange acc :
  ob_direction
    (generateSmartOrderBookPrediction now tf cur prev priceChange acc)
  = if adjustedConfidence cur prev priceChange <? 0.3 then NEUTRAL
    else baseDirection cur.
Proof. reflexivity. Qed.

(** Mirror images. *)
Lemma spec_direction_mirror (imb imb' : Q) :
  imb' == - imb ->
  spec_direction imb' = Mirror.direction (spec_direction imb).
Proof.
  intros H. unfold spec_direction.
  destruct (Qlt_le_dec 0.05 imb'), (Qlt_le_dec imb' (-0.05)),
    (Qlt_le_dec 0.05 imb), (Qlt_le_dec imb (-0.05));
    try reflexivity; lra.
Qed.

Lemma spec_momentum_mirror d (delta delta' thr bonus penalty : Q) :
  0 <= thr -> delta' == - delta ->
  spec_momentum (Mirror.direction d) delta' thr bonus penalty
  = spec_momentum d delta thr bonus penalty.
Proof.
  intros Ht H. destruct d; simpl Mirror.direction;
    rewrite ?spec_momentum_UP, ?spec_momentum_DOWN, ?spec_momentum_NEUTRAL
      by exact Ht;
    cmp_cases; try reflexivity; lra.
Qed.

Lemma spec_raw_confidence_mirror cur prev priceChange :
  spec_raw_confidence (Mirror.features cur)
    (option_map Mirror.features prev) (- priceChange)
  == spec_raw_confidence cur prev priceChange.
Proof.
  unfold spec_raw_confidence. cbv zeta.
  rewrite (spec_direction_mirror (imbalance cur)) by reflexivity.
  rewrite (spec_momentum_mirror _ priceChange) by (try reflexivity; lra).
  assert (Ha : Qabs (imbalance (Mirror.features cur))
               == Qabs (imbalance cur)) by (simpl; apply Qabs_opp).
  rewrite Ha.
  destruct prev as [p|]; simpl option_map; cbv iota; [|reflexivity].
  rewrite (spec_momentum_mirror _ (imbalance cur - imbalance p));
    [reflexivity | lra | simpl; ring].
Qed.

(** The accuracy entry of a horizon is a proportion. *)
Lemma orderBookAccuracyStats_range outcomes tf a :
  AccuracyStats.orderBookAccuracyStats outcomes tf = Some a ->
  0 <= accuracy a <= 1
  /\ total a = length (AccuracyStats.relevantOrderBookOutcomes tf outcomes).
Proof.
  unfold AccuracyStats.orderBookAccuracyStats. cbv zeta.
  rewrite relevant_correct.
  pose proof (relevant_total tf outcomes) as Hlen.
  pose proof (spec_correct_le_total tf outcomes) as Hle.
  destruct (Nat.ltb_spec 0
              (length (AccuracyStats.relevantOrderBookOutcomes tf outcomes)))
    as [H|H]; [|discriminate].
  intros E. injection E as <-. simpl. split; [|reflexivity].
  apply ratio_range; lia.
Qed.

End MoreHeuristicFacts.

(** X11.  The prediction carries the requested horizon and the given time
    stamp, its confidence lies in [0, 0.95], and its direction is UP (DOWN)
    exactly when the imbalance is above 0.05 (below -0.05) and the
    confidence after the momentum adjustments is at least 0.3. *)
Theorem generateSmartOrderBookPrediction_direction :
  forall now tf cur prev priceChange acc,
    let p :=
      Heuristic.generateSmartOrderBookPrediction
        now tf cur prev priceChange acc in
    ob_timeframe p = toOrderBookTimeframe tf
    /\ ob_timestamp p = now
    /\ 0 <= ob_confidence p <= 0.95
    /\ (ob_direction p = UP
        <-> 0.05 < imbalance cur
            /\ 0.3 <= Heuristic.adjustedConfidence cur prev priceChange)
    /\ (ob_direction p = DOWN
        <-> imbalance cur < -0.05
            /\ 0.3 <= Heuristic.adjustedConfidence cur prev priceChange).
Proof.
  intros now tf cur prev priceChange acc p.
  split; [reflexivity|]. split; [reflexivity|].
  split; [apply confidence_range|].
  unfold p. rewrite direction_cases.
  destruct (Heuristic.adjustedConfidence cur prev priceChange <? 0.3) eqn:E;
    [apply ltb_true in E | apply ltb_false in E].
  - split; (split; [discriminate|intros [_ H]; lra]).
  - destruct (baseDirection_cases cur) as [[-> H]|[[-> H]|[-> H]]];
      split; split; try discriminate; try (intros [? ?]; lra); auto.
Qed.

(** X12.  Three regimes of the imbalance, each stated clear of the
    thresholds that the confidence arithmetic produces (13/30 and 0.2).
    At most 0.05 in magnitude: the direction is NEUTRAL.  At least 0.44 in
    magnitude: the direction is that of the imbalance, whatever the
    momentum terms.  With no previous snapshot and a price change of at
    most 0.1 in magnitude: NEUTRAL up to a magnitude of 0.19, and the
    direction of the imbalance from a magnitude of 0.21 on. *)
Theorem generateSmartOrderBookPrediction_regimes :
  forall now tf cur prev priceChange acc,
    (Qabs (imbalance cur) <= 0.05 ->
     ob_direction
       (Heuristic.generateSmartOrderBookPrediction
          now tf cur prev priceChange acc) = NEUTRAL)
    /\ (0.44 <= Qabs (imbalance cur) ->
        ob_direction
          (Heuristic.generateSmartOrderBookPrediction
             now tf cur prev priceChange acc)
        = if Qlt_le_dec 0 (imbalance cur) then UP else DOWN)
    /\ (-0.1 <= priceChange <= 0.1 ->
        (Qabs (imbalance cur) <= 0.19 ->
         ob_direction
           (Heuristic.generateSmartOrderBookPrediction
              now tf cur None priceChange acc) = NEUTRAL)
        /\ (0.21 <= Qabs (imbalance cur) ->
            ob_direction
              (Heuristic.generateSmartOrderBookPrediction
                 now tf cur None priceChange acc)
            = if Qlt_le_dec 0 (imbalance cur) then UP else DOWN)).
Proof.
  intros now tf cur prev priceChange acc.
  rewrite !direction_cases.
  pose proof (adjustedConfidence_bounds cur prev priceChange) as Hb.
  destruct (baseDirection_cases cur) as [[Ed H]|[[Ed H]|[Ed H]]];
    rewrite Ed.
  - assert (Ha : Qabs (imbalance cur) == imbalance cur)
      by (apply Qabs_pos; lra).
    split; [intros; lra|]. split.
    + intros Hs.
      destruct (Heuristic.adjustedConfidence cur prev priceChange <? 0.3)
        eqn:E; [apply ltb_true in E; lra|].
      destruct (Qlt_le_dec 0 (imbalance cur)); [reflexivity|lra].
    + intros Hp. rewrite (adjustedConfidence_alone cur priceChange Hp).
      destruct (Qabs (imbalance cur) * 1.5 <? 0.3) eqn:E;
        [apply ltb_true in E | apply ltb_false in E]; split; intros Hm;
        try reflexivity; try lra.
      destruct (Qlt_le_dec 0 (imbalance cur)); [reflexivity|lra].
  - assert (Ha : Qabs (imbalance cur) == - imbalance cur)
      by (apply Qabs_neg; lra).
    split; [intros; lra|]. split.
    + intros Hs.
      destruct (Heuristic.adjustedConfidence cur prev priceChange <? 0.3)
        eqn:E; [apply ltb_true in E; lra|].
      destruct (Qlt_le_dec 0 (imbalance cur)); [lra|reflexivity].
    + intros Hp. rewrite (adjustedConfidence_alone cur priceChange Hp).
      destruct (Qabs (imbalance cur) * 1.5 <? 0.3) eqn:E;
        [apply ltb_true in E | apply ltb_false in E]; split; intros Hm;
        try reflexivity; try lra.
      destruct (Qlt_le_dec 0 (imbalance cur)); [lra|reflexivity].
  - assert (Ha : Qabs (imbalance cur) <= 0.05) by (apply Qabs_Qle_condition; lra).
    split; [intros _; now destruct (_ <? _)|].
    split; [intros; lra|].
    intros Hp. split; [intros _; now destruct (_ <? _)|intros; lra].
Qed.

Lemma generateSmartOrderBookPrediction_regimes_witness :
  ob_direction
    (Heuristic.generateSmartOrderBookPrediction
       0 TF60s (Mirror.features Samples.strongBook) None 0 None) = DOWN
  /\ ob_direction
       (Heuristic.generateSmartOrderBookPrediction
          0 TF60s Samples.weakBook None 0 None) = NEUTRAL.
Proof.
  destruct (generateSmartOrderBookPrediction_regimes
              0%Z TF60s (Mirror.features Samples.strongBook) None 0 None)
    as (_ & _ & Hstrong).
  destruct (generateSmartOrderBookPrediction_regimes
              0%Z TF60s Samples.weakBook None 0 None)
    as (_ & _ & Hweak).
  split.
  - refine (eq_trans (proj2 (Hstrong _) _) _);
      [lra | vm_compute; discriminate | reflexivity].
  - apply (proj1 (Hweak ltac:(lra))). vm_compute. discriminate.
Defined.

(** X13.  The generator is symmetric: reversing the pressure (the
    imbalance of the current and the previous snapshot negated, the price
    change negated) gives the same confidence and the opposite direction. *)
Theorem generateSmartOrderBookPrediction_mirror :
  forall now tf cur prev priceChange acc,
    ob_direction
      (Heuristic.generateSmartOrderBookPrediction now tf
         (Mirror.features cur) (option_map Mirror.features prev)
         (- priceChange) acc)
    = Mirror.direction
        (ob_direction
           (Heuristic.generateSmartOrderBookPrediction
              now tf cur prev priceChange acc))
    /\ ob_confidence
         (Heuristic.generateSmartOrderBookPrediction now tf
            (Mirror.features cur) (option_map Mirror.features prev)
            (- priceChange) acc)
       == ob_confidence
            (Heuristic.generateSmartOrderBookPrediction
               now tf cur prev priceChange acc).
Proof.
  intros now tf cur prev priceChange acc.
  pose proof (spec_raw_confidence_mirror cur prev priceChange) as Hraw.
  split.
  - rewrite !direction_cases, !baseDirection_spec.
    rewrite (spec_direction_mirror (imbalance cur)) by reflexivity.
    pose proof (adjustedConfidence_spec cur prev priceChange) as H1.
    pose proof (adjustedConfidence_spec (Mirror.features cur)
                  (option_map Mirror.features prev) (- priceChange)) as H2.
    cmp_cases; try reflexivity; lra.
  - rewrite !confidence_spec. unfold Heuristic.spec_confidence.
    apply clamp_compat.
    rewrite (clamp_compat 0 0.95 _ _ Hraw). reflexivity.
Qed.

(** X14.  The accuracy feedback only nudges: with the horizon's current
    accuracy entry instead of none, the direction is the same and the
    confidence moves by at most 0.05; with at most 5 completed directional
    outcomes of that horizon it does not move at all. *)
Theorem accuracy_feedback_bounded :
  forall now tf cur prev priceChange outcomes,
    let fed :=
      Heuristic.generateSmartOrderBookPrediction now tf cur prev priceChange
        (AccuracyStats.orderBookAccuracyStats outcomes tf) in
    let plain :=
      Heuristic.generateSmartOrderBookPrediction
        now tf cur prev priceChange None in
    ob_direction fed = ob_direction plain
    /\ ob_confidence plain - 0.05 <= ob_confidence fed
       <= ob_confidence plain + 0.05
    /\ ((length (AccuracyStats.relevantOrderBookOutcomes tf outcomes) <= 5)%nat
        -> ob_confidence fed == ob_confidence plain).
Proof.
  intros now tf cur prev priceChange outcomes fed plain.
  split; [reflexivity|].
  unfold fed, plain, Heuristic.generateSmartOrderBookPrediction.
  cbv zeta. simpl ob_confidence. unfold Js.max, Js.min.
  set (base := Qmax 0 (Qmin 0.95
                 (Heuristic.adjustedConfidence cur prev priceChange))).
  set (decay := match tf with TF15s => 0 | TF30s => 0.05 | TF60s => 0.1 end).
  destruct (AccuracyStats.orderBookAccuracyStats outcomes tf) as [a|] eqn:E.
  - destruct (orderBookAccuracyStats_range outcomes tf a E) as [Hr Ht].
    rewrite <- Ht.
    destruct (Nat.ltb_spec 5 (total a)) as [H5|H5].
    + split; [|intros; lia].
      set (adj := (accuracy a - 0.5) * 0.1).
      assert (Hadj : -0.05 <= adj <= 0.05) by (unfold adj; lra).
      clearbody adj base decay. minmax_cases; lra.
    + split; [|intros; reflexivity].
      clearbody base decay. minmax_cases; lra.
  - split; [|intros; reflexivity].
    clearbody base decay. minmax_cases; lra.
Qed.

Lemma accuracy_feedback_bounded_witness :
  ob_confidence
    (Heuristic.generateSmartOrderBookPrediction
       0 TF15s Samples.strongBook None 0
       (AccuracyStats.orderBookAccuracyStats Samples.outcomeHistory TF15s))
  == ob_confidence
       (Heuristic.generateSmartOrderBookPrediction
          0 TF15s Samples.strongBook None 0 None).
Proof.
  apply (accuracy_feedback_bounded
           0%Z TF15s Samples.strongBook None 0 Samples.outcomeHistory).
  simpl. lia.
Defined.

(** ** The outcome tracker, continued *)

Section MoreTrackerFacts.

Import Tracker.

Lemma resolveOrderBookOutcome_idempotent now latest history o :
  resolveOrderBookOutcome now latest history
    (resolveOrderBookOutcome now latest history o)
  = resolveOrderBookOutcome now latest history o.
Proof.
  unfold resolveOrderBookOutcome at 2 3.
  destruct (ob_status o) eqn:Es;
    try (apply resolveOrderBookOutcome_terminal; rewrite Es; discriminate).
  cbv zeta.
  destruct (horizonElapsed _ _ _) eqn:Eh.
  - destruct (findPriceAtPrediction _ _) as [baseline|] eqn:Ef.
    + destruct (direction_eqb _ NEUTRAL);
        [apply resolveOrderBookOutcome_terminal; discriminate|].
      apply resolveOrderBookOutcome_terminal. simpl.
      destruct (direction_eqb _ _); discriminate.
    + unfold resolveOrderBookOutcome. rewrite Es. cbv zeta.
      rewrite Eh, Ef. reflexivity.
  - unfold resolveOrderBookOutcome. rewrite Es. cbv zeta.
    rewrite Eh. reflexivity.
Qed.

Lemma resolveAiOutcome_idempotent now latest o :
  resolveAiOutcome now latest (resolveAiOutcome now latest o)
  = resolveAiOutcome now latest o.
Proof.
  unfold resolveAiOutcome at 2 3.
  destruct (ai_status o) eqn:Es;
    try (apply resolveAiOutcome_terminal; rewrite Es; discriminate).
  cbv zeta.
  destruct (horizonElapsed _ _ _) eqn:Eh.
  - apply resolveAiOutcome_terminal. simpl.
    destruct (ai_direction_eqb _ _); discriminate.
  - unfold resolveAiOutcome. rewrite Es. cbv zeta. rewrite Eh. reflexivity.
Qed.

Lemma mapAt_idempotent {A} (f : nat -> A -> A) (l : list A) : forall i,
  (forall j x, f j (f j x) = f j x) ->
  mapAt f i (mapAt f i l) = mapAt f i l.
Proof.
  induction l as [|x l IH]; intros i H; simpl; [reflexivity|].
  rewrite H, IH by exact H. reflexivity.
Qed.

Lemma horizonElapsed_false now ts tf :
  (forall horizon, timeframeMap tf = Some horizon ->
                   (now - ts < horizon)%Z) ->
  horizonElapsed now ts tf = false.
Proof.
  intros H. unfold horizonElapsed.
  destruct (timeframeMap tf) as [h|]; [|reflexivity].
  specialize (H h eq_refl).
  destruct (now - ts >=? h)%Z eqn:E; [apply Z.geb_le in E; lia|reflexivity].
Qed.

End MoreTrackerFacts.

(** X15.  No outcome is resolved before its horizon has elapsed: in a pass
    of either tracker, an outcome visited when less than its horizon has
    passed since the prediction is left exactly as it is.  A heuristic
    outcome of the 5s horizon, which has no entry in the horizon table, is
    never resolved. *)
Theorem no_resolution_before_horizon :
  (forall clock latest history outcomes k o,
      nth_error outcomes k = Some o ->
      (forall horizon,
          Tracker.timeframeMap (ob_timeframe (ob_prediction o)) = Some horizon ->
          (clock k - ob_timestamp (ob_prediction o) < horizon)%Z) ->
      nth_error
        (Tracker.resolveOrderBookOutcomes clock latest history outcomes) k
      = Some o)
  /\ (forall clock latest outcomes k o,
         nth_error outcomes k = Some o ->
         (forall horizon,
             Tracker.timeframeMap
               (toOrderBookTimeframe (ai_timeframe (ai_prediction o)))
             = Some horizon ->
             (clock k - ai_timestamp (ai_prediction o) < horizon)%Z) ->
         nth_error (Tracker.resolveAiOutcomes clock latest outcomes) k
         = Some o)
  /\ (forall clock latest history outcomes k o,
         nth_error outcomes k = Some o ->
         ob_timeframe (ob_prediction o) = OT5s ->
         nth_error
           (Tracker.resolveOrderBookOutcomes clock latest history outcomes) k
         = Some o).
Proof.
  assert (Hob : forall clock latest history outcomes k o,
             nth_error outcomes k = Some o ->
             (forall horizon,
                 Tracker.timeframeMap (ob_timeframe (ob_prediction o))
                 = Some horizon ->
                 (clock k - ob_timestamp (ob_prediction o) < horizon)%Z) ->
             nth_error
               (Tracker.resolveOrderBookOutcomes clock latest history outcomes)
               k = Some o).
  { intros clock latest history outcomes k o Hk Hh.
    rewrite nth_error_resolveOrderBookOutcomes, Hk. simpl. f_equal.
    unfold Tracker.resolveOrderBookOutcome.
    rewrite (horizonElapsed_false _ _ _ Hh).
    destruct (ob_status o); reflexivity. }
  split; [exact Hob|]. split.
  - intros clock latest outcomes k o Hk Hh.
    rewrite nth_error_resolveAiOutcomes, Hk. simpl. f_equal.
    unfold Tracker.resolveAiOutcome.
    rewrite (horizonElapsed_false _ _ _ Hh).
    destruct (ai_status o); reflexivity.
  - intros clock latest history outcomes k o Hk H5.
    apply Hob; [exact Hk|]. rewrite H5. discriminate.
Qed.

Lemma no_resolution_before_horizon_witness :
  nth_error
    (Tracker.resolveOrderBookOutcomes (fun _ => 14999%Z) 2001
       [Samples.tick 0 2000; Samples.tick 14000 2001] [Samples.obOutcome0]) 0
  = Some Samples.obOutcome0.
Proof.
  apply (proj1 no_resolution_before_horizon); [reflexivity|].
  intros horizon H. simpl in H. injection H as <-. simpl. lia.
Defined.

(** X16.  In a pass of the oracle tracker, a PENDING outcome of the 15s,
    30s or 60s horizon visited when at least 15000, 30000 or 60000 ms have
    passed since its prediction becomes CORRECT exactly when the latest
    price is strictly above the recorded price and the prediction was UP,
    or is not above it and the prediction was DOWN - an unchanged price
    counts as DOWN - and INCORRECT otherwise; its prediction is kept. *)
Theorem resolveAiOutcomes_rule :
  forall clock latest outcomes k o,
    nth_error outcomes k = Some o ->
    ai_status o = PENDING ->
    (clock k - ai_timestamp (ai_prediction o)
     >= match ai_timeframe (ai_prediction o) with
        | TF15s => 15000
        | TF30s => 30000
        | TF60s => 60000
        end)%Z ->
    exists o',
      nth_error (Tracker.resolveAiOutcomes clock latest outcomes) k = Some o'
      /\ ai_prediction o' = ai_prediction o
      /\ (ai_status o' = CORRECT
          <-> (priceAtPrediction (ai_prediction o) < latest
               /\ ai_direction (ai_prediction o) = AI_UP)
              \/ (latest <= priceAtPrediction (ai_prediction o)
                  /\ ai_direction (ai_prediction o) = AI_DOWN))
      /\ (ai_status o' = INCORRECT
          <-> (priceAtPrediction (ai_prediction o) < latest
               /\ ai_direction (ai_prediction o) = AI_DOWN)
              \/ (latest <= priceAtPrediction (ai_prediction o)
                  /\ ai_direction (ai_prediction o) = AI_UP)).
Proof.
  intros clock latest outcomes k o Hk Hs He.
  rewrite nth_error_resolveAiOutcomes, Hk. simpl.
  eexists; split; [reflexivity|].
  split; [apply resolveAiOutcome_prediction|].
  unfold Tracker.resolveAiOutcome. rewrite Hs.
  assert (Hel : Tracker.horizonElapsed (clock k)
                  (ai_timestamp (ai_prediction o))
                  (toOrderBookTimeframe (ai_timeframe (ai_prediction o)))
                = true).
  { unfold Tracker.horizonElapsed.
    destruct (ai_timeframe (ai_prediction o)); simpl;
      apply Z.geb_le; lia. }
  rewrite Hel. cbv zeta.
  destruct (latest >? priceAtPrediction (ai_prediction o)) eqn:E;
    [apply gtb_true in E | apply gtb_false in E];
    destruct (ai_direction (ai_prediction o)); simpl;
    split; split; try discriminate; try tauto;
    try (intros [[? ?]|[? ?]]; try discriminate; lra).
Qed.

Lemma resolveAiOutcomes_rule_witness :
  (exists o',
      nth_error
        (Tracker.resolveAiOutcomes (fun _ => 15000%Z) 2000
           [Samples.aiOutcome0]) 0 = Some o'
      /\ ai_status o' = INCORRECT)
  /\ (exists o',
         nth_error
           (Tracker.resolveAiOutcomes (fun _ => 30000%Z) 2001
              [Samples.aiOutcome TF30s AI_UP]) 0 = Some o'
         /\ ai_status o' = CORRECT)
  /\ (exists o',
         nth_error
           (Tracker.resolveAiOutcomes (fun _ => 60000%Z) 1999
              [Samples.aiOutcome TF60s AI_DOWN]) 0 = Some o'
         /\ ai_status o' = CORRECT).
Proof.
  split; [|split].
  - destruct (resolveAiOutcomes_rule (fun _ => 15000%Z) 2000
                [Samples.aiOutcome0] 0%nat Samples.aiOutcome0
                eq_refl eq_refl) as (o' & Ho' & _ & _ & Hi);
      [simpl; lia|].
    exists o'. split; [exact Ho'|].
    apply Hi. right. split; [simpl; lra|reflexivity].
  - destruct (resolveAiOutcomes_rule (fun _ => 30000%Z) 2001
                [Samples.aiOutcome TF30s AI_UP] 0%nat
                (Samples.aiOutcome TF30s AI_UP)
                eq_refl eq_refl) as (o' & Ho' & _ & Hc & _);
      [simpl; lia|].
    exists o'. split; [exact Ho'|].
    apply Hc. left. split; [simpl; lra|reflexivity].
  - destruct (resolveAiOutcomes_rule (fun _ => 60000%Z) 1999
                [Samples.aiOutcome TF60s AI_DOWN] 0%nat
                (Samples.aiOutcome TF60s AI_DOWN)
                eq_refl eq_refl) as (o' & Ho' & _ & Hc & _);
      [simpl; lia|].
    exists o'. split; [exact Ho'|].
    apply Hc. right. split; [simpl; lra|reflexivity].
Defined.

(** X17.  Running the resolution effect twice in a row, with the same
    clock readings and the same price history, changes nothing more than
    running it once. *)
Theorem resolutionPass_idempotent :
  forall aiClock obClock st,
    Tracker.resolutionPass aiClock obClock
      (Tracker.resolutionPass aiClock obClock st)
    = Tracker.resolutionPass aiClock obClock st.
Proof.
  intros aiClock obClock [history ai ob].
  unfold Tracker.resolutionPass at 2 3. cbn [Tracker.priceHistory].
  destruct (Tracker.latestPrice history) as [latest|] eqn:El.
  - destruct (Js.eqb latest 0) eqn:E0.
    + unfold Tracker.resolutionPass. cbn [Tracker.priceHistory].
      now rewrite El, E0.
    + unfold Tracker.resolutionPass. cbn [Tracker.priceHistory
        Tracker.aiPredictionOutcomes Tracker.orderBookOutcomes].
      rewrite El, E0. f_equal.
      * rewrite !resolveAiOutcomes_map. apply mapAt_idempotent.
        intros j x. apply resolveAiOutcome_idempotent.
      * rewrite !resolveOrderBookOutcomes_map. apply mapAt_idempotent.
        intros j x. apply resolveOrderBookOutcome_idempotent.
  - unfold Tracker.resolutionPass. cbn [Tracker.priceHistory].
    now rewrite El.
Qed.

(** X18.  The resolution effect never changes the price history or the
    length of either outcome history, and it changes nothing at all while
    the price history is empty or its latest price is zero. *)
Theorem resolutionPass_guard :
  forall aiClock obClock st,
    Tracker.priceHistory (Tracker.resolutionPass aiClock obClock st)
    = Tracker.priceHistory st
    /\ length (Tracker.aiPredictionOutcomes
                 (Tracker.resolutionPass aiClock obClock st))
       = length (Tracker.aiPredictionOutcomes st)
    /\ length (Tracker.orderBookOutcomes
                 (Tracker.resolutionPass aiClock obClock st))
       = length (Tracker.orderBookOutcomes st)
    /\ (Tracker.priceHistory st = [] ->
        Tracker.resolutionPass aiClock obClock st = st)
    /\ (forall earlier p,
           Tracker.priceHistory st = earlier ++ [p] ->
           price p == 0 ->
           Tracker.resolutionPass aiClock obClock st = st).
Proof.
  intros aiClock obClock st. unfold Tracker.resolutionPass.
  destruct (Tracker.latestPrice (Tracker.priceHistory st)) as [latest|] eqn:El.
  - destruct (Js.eqb latest 0) eqn:E0.
    + repeat split; auto.
    + cbn [Tracker.priceHistory Tracker.aiPredictionOutcomes
           Tracker.orderBookOutcomes].
      rewrite resolveAiOutcomes_map, resolveOrderBookOutcomes_map.
      rewrite !length_mapAt.
      repeat split; auto.
      * intros Hn. rewrite Hn in El. discriminate.
      * intros l p Hp H0. exfalso.
        unfold Tracker.latestPrice in El. rewrite Hp in El.
        rewrite length_app, nth_error_app2 in El by (simpl; lia).
        replace (length l + length [p] - 1 - length l)%nat with 0%nat in El
          by (simpl; lia).
        simpl in El. injection El as <-.
        apply Qeq_bool_iff in H0. unfold Js.eqb in E0. congruence.
  - repeat split; auto.
Qed.

Lemma resolutionPass_guard_witness :
  Tracker.resolutionPass (fun _ => 99999%Z) (fun _ => 99999%Z)
    {| Tracker.priceHistory := [Samples.tick 0 2000; Samples.tick 20000 0];
       Tracker.aiPredictionOutcomes := [Samples.aiOutcome0];
       Tracker.orderBookOutcomes := [Samples.obOutcome0] |}
  = {| Tracker.priceHistory := [Samples.tick 0 2000; Samples.tick 20000 0];
       Tracker.aiPredictionOutcomes := [Samples.aiOutcome0];
       Tracker.orderBookOutcomes := [Samples.obOutcome0] |}.
Proof.
  apply (resolutionPass_guard (fun _ => 99999%Z) (fun _ => 99999%Z)
           {| Tracker.priceHistory :=
                [Samples.tick 0 2000; Samples.tick 20000 0];
              Tracker.aiPredictionOutcomes := [Samples.aiOutcome0];
              Tracker.orderBookOutcomes := [Samples.obOutcome0] |})
    with (earlier := [Samples.tick 0 2000]) (p := Samples.tick 20000 0);
    reflexivity.
Defined.

(** ** The outcome histories *)

(** X19.  A new heuristic outcome enters at the head as PENDING, the
    older outcomes move one place down unchanged, and what would pass the
    60th place is dropped; the oracle's outcomes enter in the same way, as
    a block. *)
Theorem outcome_histories_shift :
  (forall prev p,
      nth_error (History.addOrderBookOutcome prev p) 0
      = Some {| ob_prediction := p; ob_status := OB_PENDING |}
      /\ (forall k, (S k < 60)%nat ->
                    nth_error (History.addOrderBookOutcome prev p) (S k)
                    = nth_error prev k)
      /\ length (History.addOrderBookOutcome prev p)
         = Nat.min (S (length prev)) 60)
  /\ (forall prev ps,
         (forall k p, (k < 60)%nat -> nth_error ps k = Some p ->
                      nth_error (History.addAiOutcomes prev ps) k
                      = Some {| ai_prediction := p; ai_status := PENDING |})
         /\ (forall k, (length ps + k < 60)%nat ->
                       nth_error (History.addAiOutcomes prev ps) (length ps + k)
                       = nth_error prev k)
         /\ length (History.addAiOutcomes prev ps)
            = Nat.min (length ps + length prev) 60).
Proof.
  unfold History.addOrderBookOutcome, History.addAiOutcomes,
    Js.slice_first, MAX_OUTCOME_HISTORY.
  split.
  - intros prev p. split; [reflexivity|]. split.
    + intros k Hk. rewrite nth_error_firstn.
      destruct (Nat.ltb_spec (S k) 60); [reflexivity|lia].
    + rewrite length_firstn. simpl length. lia.
  - intros prev ps. split; [|split].
    + intros k p Hk Hp. rewrite nth_error_firstn.
      destruct (Nat.ltb_spec k 60); [|lia].
      rewrite nth_error_app1
        by (rewrite length_map; apply nth_error_Some; congruence).
      rewrite nth_error_map, Hp. reflexivity.
    + intros k Hk. rewrite nth_error_firstn.
      destruct (Nat.ltb_spec (length ps + k) 60); [|lia].
      rewrite nth_error_app2 by (rewrite length_map; lia).
      rewrite length_map. f_equal. lia.
    + rewrite length_firstn, length_app, length_map. lia.
Qed.

Lemma outcome_histories_shift_witness :
  nth_error
    (History.addOrderBookOutcome Samples.outcomeHistory
       (ob_prediction Samples.obOutcome0)) 1
  = Some (Samples.obOutcome OT15s UP OB_CORRECT).
Proof.
  destruct (proj1 outcome_histories_shift Samples.outcomeHistory
              (ob_prediction Samples.obOutcome0)) as (_ & H & _).
  rewrite (H 0%nat) by lia. reflexivity.
Defined.

Section AiAccuracyFacts.

Import AccuracyStats.

Lemma status_eqb_eq a b : Tracker.status_eqb a b = true <-> a = b.
Proof. destruct a, b; simpl; split; congruence. Qed.

(** Completed oracle outcomes are CORRECT or INCORRECT. *)
Lemma completed_split (f : PredictionOutcome -> bool)
    (outcomes : list PredictionOutcome) :
  length (filter (fun o => f o && negb (Tracker.status_eqb (ai_status o) PENDING))
                 outcomes)
  = (length (filter (fun o => f o && Tracker.status_eqb (ai_status o) CORRECT)
                    outcomes)
     + length (filter (fun o => f o
                                && Tracker.status_eqb (ai_status o) INCORRECT)
                      outcomes))%nat.
Proof.
  induction outcomes as [|o l IH]; [reflexivity|]. simpl.
  destruct (f o), (ai_status o); simpl; rewrite IH; lia.
Qed.

Lemma filter_filter_and {A} (f g : A -> bool) (l : list A) :
  filter g (filter f l) = filter (fun x => f x && g x) l.
Proof.
  induction l as [|x l IH]; [reflexivity|]. simpl.
  destruct (f x); simpl; [destruct (g x)|]; now rewrite IH.
Qed.

Lemma filter_ext_length {A} (f g : A -> bool) (l : list A) :
  (forall x, f x = g x) -> length (filter f l) = length (filter g l).
Proof. intros H. now rewrite (filter_ext f g H). Qed.

End AiAccuracyFacts.

(** X20.  The oracle's accuracy entry of a horizon is absent exactly when
    no outcome of that horizon is completed; otherwise [correct] is the
    number of its CORRECT outcomes, [total] exceeds it by the number of its
    INCORRECT outcomes and is positive, and [accuracy] is the quotient, in
    [0, 1]. *)
Theorem aiAccuracyStats_spec :
  forall outcomes tf,
    let ofHorizon := fun o =>
      Tracker.timeframe_eqb
        (toOrderBookTimeframe (ai_timeframe (ai_prediction o)))
        (toOrderBookTimeframe tf) in
    (AccuracyStats.aiAccuracyStats outcomes tf = None
     <-> forall o, In o outcomes -> ai_timeframe (ai_prediction o) = tf ->
                   ai_status o = PENDING)
    /\ (forall a,
           AccuracyStats.aiAccuracyStats outcomes tf = Some a ->
           (0 < total a)%nat
           /\ correct a
              = length (filter (fun o => ofHorizon o
                                  && Tracker.status_eqb (ai_status o) CORRECT)
                               outcomes)
           /\ total a
              = (correct a
                 + length (filter (fun o => ofHorizon o
                                     && Tracker.status_eqb (ai_status o)
                                                           INCORRECT)
                                  outcomes))%nat
           /\ accuracy a * inject_Z (Z.of_nat (total a))
              == inject_Z (Z.of_nat (correct a))
           /\ 0 <= accuracy a <= 1).
Proof.
  intros outcomes tf ofHorizon.
  unfold AccuracyStats.aiAccuracyStats. cbv zeta.
  fold ofHorizon.
  set (relevant := filter (fun o => ofHorizon o
                             && negb (Tracker.status_eqb (ai_status o) PENDING))
                          outcomes).
  assert (Hin : forall o, In o relevant
                          <-> In o outcomes
                              /\ ai_timeframe (ai_prediction o) = tf
                              /\ ai_status o <> PENDING).
  { intros o. unfold relevant, ofHorizon. rewrite filter_In.
    rewrite andb_true_iff, negb_true_iff, timeframe_eqb_eq.
    split; intros (H1 & H2 & H3); repeat split; auto.
    - destruct (ai_timeframe (ai_prediction o)), tf;
        simpl in H2; congruence.
    - intros Hc. rewrite Hc in H3. discriminate.
    - now rewrite H2.
    - destruct (ai_status o); simpl; congruence. }
  assert (Hc : length (filter (fun o => Tracker.status_eqb (ai_status o) CORRECT)
                              relevant)
               = length (filter (fun o => ofHorizon o
                                   && Tracker.status_eqb (ai_status o) CORRECT)
                                outcomes)).
  { unfold relevant. rewrite filter_filter_and. apply filter_ext_length.
    intros o. destruct (ofHorizon o), (ai_status o); reflexivity. }
  pose proof (completed_split ofHorizon outcomes) as Hsplit.
  fold relevant in Hsplit.
  change (filter
            (fun o =>
               Tracker.timeframe_eqb
                 (toOrderBookTimeframe (ai_timeframe (ai_prediction o)))
                 (toOrderBookTimeframe tf)
               && negb (Tracker.status_eqb (ai_status o) PENDING))
            outcomes) with relevant.
  destruct (Nat.ltb_spec 0 (length relevant)) as [H|H].
  - split.
    + split; [discriminate|]. intros Hall. exfalso.
      destruct relevant as [|o l] eqn:E; [simpl in H; lia|].
      assert (Ho : In o (o :: l)) by now left.
      apply Hin in Ho as (Ho & Ht & Hs). exact (Hs (Hall o Ho Ht)).
    + intros a Ha. injection Ha as <-. simpl. rewrite Hc.
      split; [exact H|]. split; [reflexivity|]. split; [lia|].
      destruct (ratio_range
                  (length (filter (fun o => ofHorizon o
                                     && Tracker.status_eqb (ai_status o)
                                                           CORRECT)
                                  outcomes))
                  (length relevant) H ltac:(lia)) as [Hr Hm].
      split; [exact Hm|exact Hr].
  - split; [|discriminate].
    split; [|reflexivity]. intros _ o Ho Ht.
    destruct (ai_status o) eqn:Es; [reflexivity| |];
      (assert (Hr : In o relevant)
         by (apply Hin; repeat split; auto; rewrite Es; discriminate);
       destruct relevant; [destruct Hr | simpl in H; lia]).
Qed.

Lemma aiAccuracyStats_spec_witness :
  exists a,
    AccuracyStats.aiAccuracyStats
      [ {| ai_prediction := ai_prediction Samples.aiOutcome0;
           ai_status := CORRECT |};
        Samples.aiOutcome0 ] TF15s = Some a
    /\ 0 <= accuracy a <= 1.
Proof.
  eexists. split; [reflexivity|].
  apply (aiAccuracyStats_spec
           [ {| ai_prediction := ai_prediction Samples.aiOutcome0;
                ai_status := CORRECT |};
             Samples.aiOutcome0 ] TF15s).
  reflexivity.
Defined.

(** ** The performance display *)

Section PerformanceFacts.

Import PerformanceTracker.

(** What one iteration of the counting loop adds to each entry. *)
Lemma countOutcome_some stats o stats1 tf :
  countOutcome stats o = Some stats1 ->
  total (get stats1 tf)
  = (total (get stats tf) + length (filter (ofTimeframe tf) [o]))%nat
  /\ correct (get stats1 tf)
     = (correct (get stats tf)
        + length (filter isCorrect (filter (ofTimeframe tf) [o])))%nat
  /\ accuracy (get stats1 tf) = accuracy (get stats tf).
Proof.
  unfold countOutcome, ofTimeframe, isCorrect. simpl.
  destruct (ob_timeframe (ob_prediction o)); try discriminate;
    intros E; injection E as <-; destruct tf; simpl;
    try (destruct (Tracker.ob_status_eqb (ob_status o) OB_CORRECT); simpl);
    repeat split; lia.
Qed.

(** What the counting loop has added to each entry when it ends. *)
Lemma countOutcomes_some (l : list OrderBookPredictionOutcome) :
  forall stats stats',
    countOutcomes stats l = Some stats' ->
    forall tf,
      total (get stats' tf)
      = (total (get stats tf) + length (filter (ofTimeframe tf) l))%nat
      /\ correct (get stats' tf)
         = (correct (get stats tf)
            + length (filter isCorrect (filter (ofTimeframe tf) l)))%nat
      /\ accuracy (get stats' tf) = accuracy (get stats tf).
Proof.
  induction l as [|o l IH]; intros stats stats' H tf.
  - injection H as <-. simpl. repeat split; lia.
  - simpl countOutcomes in H.
    destruct (countOutcome stats o) as [stats1|] eqn:E; [|discriminate].
    destruct (IH _ _ H tf) as (Ht & Hc & Ha).
    destruct (countOutcome_some _ _ _ tf E) as (Ht1 & Hc1 & Ha1).
    rewrite Ht, Hc, Ha, Ht1, Hc1, Ha1.
    change (o :: l) with ([o] ++ l).
    rewrite !filter_app, !length_app. repeat split; lia.
Qed.

(** The counting loop fails exactly on an outcome of the 5s horizon. *)
Lemma countOutcomes_none (l : list OrderBookPredictionOutcome) :
  forall stats,
    countOutcomes stats l = None
    <-> exists o, In o l /\ ob_timeframe (ob_prediction o) = OT5s.
Proof.
  induction l as [|o l IH]; intros stats; simpl.
  - split; [discriminate|intros (o & [] & _)].
  - unfold countOutcome.
    destruct (ob_timeframe (ob_prediction o)) eqn:E;
      try (rewrite IH; split;
           [intros (x & Hx & H5); exists x; auto
           |intros (x & [<-|Hx] & H5); [congruence|exists x; auto]]).
    split; [intros _; exists o; auto|reflexivity].
Qed.

Lemma completed_of_timeframe tf outcomes :
  filter (ofTimeframe tf) (completedDirectionalOutcomes outcomes)
  = AccuracyStats.relevantOrderBookOutcomes tf outcomes.
Proof.
  unfold completedDirectionalOutcomes,
    AccuracyStats.relevantOrderBookOutcomes.
  rewrite filter_filter_and. apply filter_ext. intros o. unfold ofTimeframe.
  destruct (Tracker.timeframe_eqb _ _),
    (direction_eqb _ NEUTRAL), (Tracker.ob_status_eqb _ OB_PENDING);
    reflexivity.
Qed.

End PerformanceFacts.

(** X21.  The display computes its statistics without error exactly when
    no completed directional outcome is of the 5s horizon, and then each
    entry is the one the feedback loop uses ([orderBookAccuracyStats]), or
    the all-zero entry where the feedback loop has none. *)
Theorem performanceTracker_agrees :
  forall outcomes,
    (PerformanceTracker.accuracyStats outcomes = None
     <-> exists o,
           In o outcomes
           /\ ob_status o <> OB_PENDING
           /\ ob_direction (ob_prediction o) <> NEUTRAL
           /\ ob_timeframe (ob_prediction o) = OT5s)
    /\ (forall stats tf,
           PerformanceTracker.accuracyStats outcomes = Some stats ->
           PerformanceTracker.get stats tf
           = match AccuracyStats.orderBookAccuracyStats outcomes tf with
             | Some entry => entry
             | None => PerformanceTracker.emptyEntry
             end).
Proof.
  intros outcomes. unfold PerformanceTracker.accuracyStats.
  split.
  - destruct (PerformanceTracker.countOutcomes _ _) as [stats|] eqn:E.
    + split; [discriminate|]. intros (o & Hin & Hs & Hd & H5). exfalso.
      assert (Hn : PerformanceTracker.countOutcomes
                     PerformanceTracker.initialStats
                     (PerformanceTracker.completedDirectionalOutcomes outcomes)
                   = None).
      { apply countOutcomes_none. exists o. split; [|exact H5].
        unfold PerformanceTracker.completedDirectionalOutcomes.
        apply filter_In. split; [exact Hin|].
        destruct (ob_status o), (ob_direction (ob_prediction o));
          simpl; congruence. }
      congruence.
    + split; [|reflexivity]. intros _.
      apply countOutcomes_none in E as (o & Hin & H5).
      unfold PerformanceTracker.completedDirectionalOutcomes in Hin.
      apply filter_In in Hin as (Hin & Hf).
      exists o. repeat split; auto.
      * intros Hc. rewrite Hc in Hf. discriminate.
      * intros Hc. rewrite Hc in Hf.
        destruct (ob_status o); discriminate.
  - intros stats tf H.
    destruct (PerformanceTracker.countOutcomes _ _) as [counted|] eqn:E;
      [|discriminate].
    injection H as <-.
    destruct (countOutcomes_some _ _ _ E tf) as (Ht & Hc & Ha).
    rewrite completed_of_timeframe in Ht, Hc.
    unfold AccuracyStats.orderBookAccuracyStats. cbv zeta.
    assert (Hget : PerformanceTracker.get
                     {| PerformanceTracker.stat15s :=
                          PerformanceTracker.setAccuracy
                            (PerformanceTracker.stat15s counted);
                        PerformanceTracker.stat30s :=
                          PerformanceTracker.setAccuracy
                            (PerformanceTracker.stat30s counted);
                        PerformanceTracker.stat60s :=
                          PerformanceTracker.setAccuracy
                            (PerformanceTracker.stat60s counted) |} tf
                   = PerformanceTracker.setAccuracy
                       (PerformanceTracker.get counted tf))
      by (destruct tf; reflexivity).
    rewrite Hget. clear Hget E.
    assert (H0 : PerformanceTracker.get PerformanceTracker.initialStats tf
                 = PerformanceTracker.emptyEntry) by (destruct tf; reflexivity).
    rewrite H0 in Ht, Hc, Ha. simpl in Ht, Hc, Ha.
    unfold PerformanceTracker.setAccuracy. rewrite Ht, Hc.
    unfold PerformanceTracker.isCorrect.
    destruct (0 <? length (AccuracyStats.relevantOrderBookOutcomes tf outcomes))%nat
      eqn:Epos; [reflexivity|].
    destruct (PerformanceTracker.get counted tf) as [c t a].
    simpl in Ht, Hc, Ha. subst c t a.
    apply Nat.ltb_ge in Epos.
    assert (Hz : length (AccuracyStats.relevantOrderBookOutcomes tf outcomes)
                 = 0%nat) by lia.
    apply length_zero_iff_nil in Hz. rewrite Hz. reflexivity.
Qed.

Lemma performanceTracker_agrees_witness :
  exists stats,
    PerformanceTracker.accuracyStats Samples.outcomeHistory = Some stats
    /\ PerformanceTracker.get stats TF30s = PerformanceTracker.emptyEntry
    /\ total (PerformanceTracker.get stats TF15s) = 2%nat.
Proof.
  destruct (PerformanceTracker.accuracyStats Samples.outcomeHistory)
    as [stats|] eqn:E; [|vm_compute in E; discriminate].
  exists stats. split; [reflexivity|].
  pose proof (proj2 (performanceTracker_agrees Samples.outcomeHistory)
                stats) as H.
  split.
  - rewrite (H TF30s E). reflexivity.
  - rewrite (H TF15s E). reflexivity.
Defined.

(** ** Price aggregation *)

(** X22.  A poll yields no tick exactly when no source answered.
    Otherwise time stamp, high and low of the tick are the exchange's when
    it answered, and the current time and the tick's own price when it did
    not; and when a single source answered, the tick's price is that
    source's price. *)
Theorem newPriceData_spec :
  forall now binanceResult bybitPrice kucoinPrice,
    (Market.newPriceData now binanceResult bybitPrice kucoinPrice = None
     <-> binanceResult = None /\ bybitPrice = None /\ kucoinPrice = None)
    /\ (forall d,
           Market.newPriceData now binanceResult bybitPrice kucoinPrice
           = Some d ->
           (forall kline,
               binanceResult = Some kline ->
               timestamp d = timestamp kline
               /\ high d = high kline /\ low d = low kline)
           /\ (binanceResult = None ->
               timestamp d = now /\ high d = price d /\ low d = price d)
           /\ (forall p,
                  Market.availablePrices binanceResult bybitPrice kucoinPrice
                  = [p] ->
                  price d == p)).
Proof.
  intros now b y k. unfold Market.newPriceData. cbv zeta.
  set (prices := Market.availablePrices b y k).
  destruct (Nat.eqb_spec (length prices) 0) as [H|H].
  - split.
    + split; [|reflexivity]. intros _. unfold prices in H.
      destruct b, y, k; simpl in H; try discriminate; auto.
    + discriminate.
  - split.
    + split; [discriminate|]. intros (-> & -> & ->). now simpl in H.
    + intros d Hd. injection Hd as <-. simpl. split; [|split].
      * intros kline ->. repeat split.
      * intros ->. repeat split.
      * intros p ->. unfold Js.sum. simpl.
        change (Indicators.num 1) with 1. field.
Qed.

Lemma newPriceData_spec_witness :
  exists d,
    Market.newPriceData 1700000000000 (Some (Samples.tick 1699999999000 2000))
      None None = Some d
    /\ price d == 2000
    /\ timestamp d = 1699999999000%Z.
Proof.
  eexists. split; [reflexivity|].
  destruct (proj2 (newPriceData_spec 1700000000000
                     (Some (Samples.tick 1699999999000 2000))
                     None None) _ eq_refl) as (Hk & _ & Hp).
  split.
  - apply Hp. reflexivity.
  - apply (Hk (Samples.tick 1699999999000 2000) eq_refl).
Defined.

(** ** The session *)

Ltac session_fields :=
  cbn [Session.priceHistory Session.orderBookFeatures
       Session.previousOrderBookFeatures Session.orderBookPredictions
       Session.currentPredictions Session.predictionHistory
       Session.aiPredictionOutcomes Session.orderBookOutcomes].

Section SessionFacts.

Import Session.

Lemma length_slice_first {A} (n : nat) (l : list A) :
  (length (Js.slice_first n l) <= n)%nat.
Proof. unfold Js.slice_first. rewrite length_firstn. lia. Qed.

Lemma Forall_mapAt {A} (P : A -> Prop) (f : nat -> A -> A) :
  (forall i x, P x -> P (f i x)) ->
  forall l i, Forall P l -> Forall P (Tracker.mapAt f i l).
Proof.
  intros Hf l. induction l as [|x l IH]; intros i H; simpl.
  - constructor.
  - inversion H; subst. constructor; auto.
Qed.

Lemma generated_wellFormed now tf cur prev change acc :
  wellFormedPrediction
    (Heuristic.generateSmartOrderBookPrediction now tf cur prev change acc).
Proof.
  split.
  - destruct tf; discriminate.
  - apply confidence_range.
Qed.

Lemma newPrediction_form now tf st p :
  newPrediction now tf st = Some p ->
  exists features change,
    orderBookFeatures st = Some features
    /\ priceChange (priceHistory st) = Some change
    /\ (1 < length (priceHistory st))%nat
    /\ p = Heuristic.generateSmartOrderBookPrediction
             now tf features (previousOrderBookFeatures st) change
             (AccuracyStats.orderBookAccuracyStats (orderBookOutcomes st) tf).
Proof.
  unfold newPrediction.
  destruct (orderBookFeatures st) as [features|]; [|discriminate].
  destruct (Nat.ltb_spec 1 (length (priceHistory st))); [|discriminate].
  destruct (priceChange (priceHistory st)) as [change|]; [|discriminate].
  intros E. injection E as <-. exists features, change. auto.
Qed.

(** Replacing the entries of one horizon by a prediction of that horizon
    leaves the horizons of the slots as they were. *)
Lemma replace_slot_timeframes tf p l :
  ob_timeframe p = tf ->
  map ob_timeframe
      (map (fun q => if Tracker.timeframe_eqb (ob_timeframe q) tf
                     then p else q) l)
  = map ob_timeframe l.
Proof.
  intros Hp. rewrite map_map. apply map_ext. intros q.
  destruct (Tracker.timeframe_eqb (ob_timeframe q) tf) eqn:E; [|reflexivity].
  apply timeframe_eqb_eq in E. congruence.
Qed.

Lemma initialState_invariant : Invariant initialState.
Proof.
  constructor; simpl; try (unfold MAX_HISTORY_LENGTH,
    MAX_PREDICTION_HISTORY_ITEMS, MAX_OUTCOME_HISTORY; lia);
    try reflexivity.
  - repeat constructor; simpl; try discriminate; lra.
  - constructor.
Qed.

Lemma fetchMarketData_invariant now b y k features st :
  Invariant st -> Invariant (fetchMarketData now b y k features st).
Proof.
  intros [Hp Hh Ha Ho Hs Hw Hwo]. constructor; simpl; auto.
  destruct (Market.newPriceData now b y k); [|exact Hp].
  unfold History.appendPrice. rewrite length_slice_last. lia.
Qed.

Lemma update_invariant now tf st :
  Invariant st -> Invariant (update now tf st).
Proof.
  intros Hinv. unfold update.
  destruct (newPrediction now tf st) as [p|] eqn:E; [|exact Hinv].
  destruct Hinv as [Hp Hh Ha Ho Hs Hw Hwo].
  apply newPrediction_form in E
    as (features & change & _ & _ & _ & ->).
  constructor; session_fields; auto.
  - apply length_slice_first.
  - rewrite replace_slot_timeframes; [exact Hs|reflexivity].
  - rewrite Forall_forall in *. intros q Hq. apply in_map_iff in Hq
      as (q0 & <- & Hq0).
    destruct (Tracker.timeframe_eqb _ _);
      [apply generated_wellFormed|auto].
  - unfold History.addOrderBookOutcome, Js.slice_first.
    apply Forall_firstn. constructor; [apply generated_wellFormed|exact Hwo].
Qed.

Lemma resolve_invariant aiClock obClock st :
  Invariant st -> Invariant (resolve aiClock obClock st).
Proof.
  intros [Hp Hh Ha Ho Hs Hw Hwo]. unfold resolve, Tracker.resolutionPass.
  simpl.
  destruct (Tracker.latestPrice (priceHistory st)) as [latest|];
    [|constructor; simpl; auto].
  destruct (Js.eqb latest 0); constructor; simpl; auto.
  - rewrite resolveAiOutcomes_map, length_mapAt. exact Ha.
  - rewrite resolveOrderBookOutcomes_map, length_mapAt. exact Ho.
  - rewrite resolveOrderBookOutcomes_map. apply Forall_mapAt; [|exact Hwo].
    intros i o Ho'. now rewrite resolveOrderBookOutcome_prediction.
Qed.

Lemma recordPredictions_invariant now priceAt results st :
  Invariant st -> Invariant (recordPredictions now priceAt results st).
Proof.
  intros [Hp Hh Ha Ho Hs Hw Hwo]. constructor; session_fields; auto.
  - apply length_slice_first.
  - apply length_slice_first.
Qed.

Lemma step_invariant st e : Invariant st -> Invariant (step st e).
Proof.
  destruct e; simpl.
  - apply fetchMarketData_invariant.
  - apply update_invariant.
  - apply resolve_invariant.
  - apply recordPredictions_invariant.
Qed.

Lemma fold_step_invariant events :
  forall st, Invariant st -> Invariant (fold_left step events st).
Proof.
  induction events as [|e events IH]; intros st H; simpl; [exact H|].
  apply IH, step_invariant, H.
Qed.

End SessionFacts.

(** X23.  Whatever happens to the session (market data arriving, a
    horizon's loop firing, a run of the resolution effect, an answer of the
    oracle, in any order), the price history holds at most 120 ticks, the
    prediction history at most 15 entries and each outcome history at most
    60; the display keeps its three slots for 15s, 30s and 60s; every
    heuristic prediction shown or tracked is of one of these horizons with
    a confidence in [0, 0.95]; and the performance display, which would
    raise on a 5s outcome, computes its statistics. *)
Theorem session_invariant :
  forall events,
    Session.Invariant (Session.run events)
    /\ PerformanceTracker.accuracyStats
         (Session.orderBookOutcomes (Session.run events)) <> None.
Proof.
  intros events.
  assert (Hinv : Session.Invariant (Session.run events))
    by (apply fold_step_invariant, initialState_invariant).
  split; [exact Hinv|].
  unfold PerformanceTracker.accuracyStats.
  destruct (PerformanceTracker.countOutcomes _ _) eqn:E; [discriminate|].
  exfalso. apply countOutcomes_none in E as (o & Hin & H5).
  unfold PerformanceTracker.completedDirectionalOutcomes in Hin.
  apply filter_In in Hin as (Hin & _).
  pose proof (Session.inv_outcomes _ Hinv) as Hw.
  rewrite Forall_forall in Hw. destruct (Hw o Hin) as (Hne & _).
  contradiction.
Qed.

(** X24.  A firing of a horizon's loop changes nothing when no order-book
    features have arrived or the price history has fewer than two ticks.
    Otherwise it makes the heuristic's prediction from the current and
    previous features, the difference of the last two prices and the
    horizon's current accuracy entry; puts it, PENDING, in front of the
    outcome history (cut to 60); and shows it in the slot of its horizon,
    the other slots keeping their predictions. *)
Theorem update_spec :
  forall now tf st,
    (Session.orderBookFeatures st = None
     \/ (length (Session.priceHistory st) <= 1)%nat ->
     Session.update now tf st = st)
    /\ (forall features earlier before last,
           Session.orderBookFeatures st = Some features ->
           Session.priceHistory st = earlier ++ [before; last] ->
           let prediction :=
             Heuristic.generateSmartOrderBookPrediction
               now tf features (Session.previousOrderBookFeatures st)
               (price last - price before)
               (AccuracyStats.orderBookAccuracyStats
                  (Session.orderBookOutcomes st) tf) in
           let st' := Session.update now tf st in
           Session.orderBookOutcomes st'
           = firstn 60 ({| ob_prediction := prediction;
                           ob_status := OB_PENDING |}
                          :: Session.orderBookOutcomes st)
           /\ length (Session.orderBookPredictions st')
              = length (Session.orderBookPredictions st)
           /\ (forall k p,
                  nth_error (Session.orderBookPredictions st) k = Some p ->
                  nth_error (Session.orderBookPredictions st') k
                  = Some (if Tracker.timeframe_eqb (ob_timeframe p)
                               (toOrderBookTimeframe tf)
                          then prediction else p))
           /\ Session.priceHistory st' = Session.priceHistory st
           /\ Session.aiPredictionOutcomes st'
              = Session.aiPredictionOutcomes st).
Proof.
  intros now tf st. split.
  - intros [H|H]; unfold Session.update, Session.newPrediction.
    + now rewrite H.
    + destruct (Session.orderBookFeatures st); [|reflexivity].
      destruct (Nat.ltb_spec 1 (length (Session.priceHistory st)));
        [lia|reflexivity].
  - intros features earlier before last Hf Hh prediction st'.
    assert (E : Session.newPrediction now tf st = Some prediction).
    { unfold Session.newPrediction, Session.priceChange.
      rewrite Hf, Hh, length_app. simpl length.
      replace (length earlier + 2 - 1)%nat with (S (length earlier)) by lia.
      replace (length earlier + 2 - 2)%nat with (length earlier + 0)%nat
        by lia.
      destruct (Nat.ltb_spec 1 (length earlier + 2)); [|lia].
      rewrite (nth_error_app2 earlier) by lia.
      replace (S (length earlier) - length earlier)%nat with 1%nat by lia.
      rewrite nth_error_app2 by lia.
      replace (length earlier + 0 - length earlier)%nat with 0%nat by lia.
      reflexivity. }
    unfold st', Session.update. rewrite E. session_fields.
    repeat split.
    + apply length_map.
    + intros k p Hk. rewrite nth_error_map, Hk. reflexivity.
Qed.

Lemma update_spec_witness :
  Session.orderBookOutcomes
    (Session.update 5000 TF15s MoreSamples.readyState)
  = firstn 60
      [{| ob_prediction :=
            Heuristic.generateSmartOrderBookPrediction
              5000 TF15s Samples.strongBook (Some Samples.earlierBook)
              (2001 - 2000) None;
          ob_status := OB_PENDING |}].
Proof.
  exact (proj1 (proj2 (update_spec 5000 TF15s MoreSamples.readyState)
                  Samples.strongBook [] (Samples.tick 0 2000)
                  (Samples.tick 2000 2001) eq_refl eq_refl)).
Defined.

(** ** The countdowns of the signal card *)

Section CountdownFacts.

Import Countdown.

Lemma timeframe_eqb_refl tf : Tracker.timeframe_eqb tf tf = true.
Proof. destruct tf; reflexivity. Qed.

Lemma timeframe_eqb_sym a b :
  Tracker.timeframe_eqb a b = Tracker.timeframe_eqb b a.
Proof. destruct a, b; reflexivity. Qed.

Lemma timeframe_eqb_neq a b : a <> b -> Tracker.timeframe_eqb a b = false.
Proof. destruct a, b; try reflexivity; congruence. Qed.

(** The loop over the predictions, horizon by horizon. *)
Lemma restart_spec prev predictions :
  forall newCountdowns tf,
    restart prev newCountdowns predictions tf
    = if existsb (fun p => Tracker.timeframe_eqb (ob_timeframe p) tf
                           && isNew prev p) predictions
      then initialCountdowns tf
      else newCountdowns tf.
Proof.
  unfold restart.
  induction predictions as [|p ps IH]; intros c tf; simpl; [reflexivity|].
  rewrite IH. clear IH.
  destruct (existsb _ ps).
  - now rewrite orb_true_r.
  - rewrite orb_false_r.
    destruct (isNew prev p); [|now rewrite andb_false_r].
    rewrite andb_true_r. unfold setAt.
    rewrite (timeframe_eqb_sym tf).
    destruct (Tracker.timeframe_eqb (ob_timeframe p) tf) eqn:E;
      [|reflexivity].
    apply timeframe_eqb_eq in E. now rewrite E.
Qed.

Lemma timestamps_untouched predictions :
  forall acc tf,
    ~ In tf (map ob_timeframe predictions) ->
    fold_left (fun acc p => setAt (ob_timeframe p) (Some (ob_timestamp p)) acc)
              predictions acc tf
    = acc tf.
Proof.
  induction predictions as [|p ps IH]; intros acc tf H; simpl; [reflexivity|].
  rewrite IH by (intros Hin; apply H; now right).
  unfold setAt. rewrite timeframe_eqb_neq; [reflexivity|].
  intros ->. apply H. now left.
Qed.

(** With one prediction per horizon the remembered time stamp of a
    prediction's horizon is its own. *)
Lemma timestampsOf_own predictions p :
  NoDup (map ob_timeframe predictions) ->
  In p predictions ->
  timestampsOf predictions (ob_timeframe p) = Some (ob_timestamp p).
Proof.
  unfold timestampsOf. generalize (fun _ : OrderBookTimeframe => @None Z).
  induction predictions as [|q ps IH]; intros acc Hnd Hin; [destruct Hin|].
  simpl in Hnd. inversion Hnd as [|? ? Hnotin Hnd']; subst.
  destruct Hin as [->|Hin]; simpl.
  - rewrite timestamps_untouched by exact Hnotin.
    unfold setAt. now rewrite timeframe_eqb_refl.
  - now apply IH.
Qed.

Lemma isNew_own predictions p :
  NoDup (map ob_timeframe predictions) ->
  In p predictions ->
  isNew (timestampsOf predictions) p = false.
Proof.
  intros Hnd Hin. unfold isNew.
  rewrite (timestampsOf_own _ _ Hnd Hin), Z.eqb_refl.
  apply andb_false_r.
Qed.

Lemma step_range st e :
  (forall tf, (0 <= countdowns st tf <= initialCountdowns tf)%Z) ->
  forall tf, (0 <= countdowns (step st e) tf <= initialCountdowns tf)%Z.
Proof.
  intros H tf. destruct e as [|[ps|]]; simpl; try apply H.
  - unfold tick. specialize (H tf). lia.
  - destruct (existsb _ ps); [|apply H]. simpl. rewrite restart_spec.
    destruct (existsb _ ps); [|apply H].
    destruct tf; simpl; lia.
Qed.

Lemma ticks_countdown n :
  forall st tf,
    (0 <= countdowns st tf)%Z ->
    countdowns (fold_left step (repeat Tick n) st) tf
    = Z.max 0 (countdowns st tf - Z.of_nat n).
Proof.
  induction n as [|n IH]; intros st tf H.
  - simpl. lia.
  - cbn [repeat fold_left]. rewrite IH; simpl; unfold tick; lia.
Qed.

End CountdownFacts.

(** X25.  Whatever sequence of timer ticks and prediction updates the card
    sees, each countdown stays between 0 and the length of its horizon in
    seconds. *)
Theorem countdowns_in_range :
  forall events tf,
    (0 <= Countdown.countdowns (Countdown.run events) tf
     <= Countdown.initialCountdowns tf)%Z.
Proof.
  intros events. unfold Countdown.run.
  assert (H : forall st,
             (forall tf, (0 <= Countdown.countdowns st tf
                          <= Countdown.initialCountdowns tf)%Z) ->
             forall tf,
               (0 <= Countdown.countdowns
                       (fold_left Countdown.step events st) tf
                <= Countdown.initialCountdowns tf)%Z).
  { induction events as [|e events IH]; intros st H; simpl; [exact H|].
    apply IH, step_range, H. }
  apply H. intros tf. destruct tf; simpl; lia.
Qed.

(** X26.  With no new prediction in between, [n] timer ticks take a
    countdown that is not negative down by [n] seconds, stopping at 0:
    a countdown reaches 0 after as many ticks as it had seconds left and
    stays there. *)
Theorem countdown_after_ticks :
  forall n st tf,
    (0 <= Countdown.countdowns st tf)%Z ->
    let st' := fold_left Countdown.step (repeat Countdown.Tick n) st in
    Countdown.countdowns st' tf
    = Z.max 0 (Countdown.countdowns st tf - Z.of_nat n)
    /\ ((Countdown.countdowns st tf <= Z.of_nat n)%Z ->
        Countdown.countdowns st' tf = 0%Z)
    /\ Countdown.prevTimestamps st' tf = Countdown.prevTimestamps st tf.
Proof.
  intros n st tf H. cbv zeta.
  rewrite ticks_countdown by exact H. repeat split.
  - lia.
  - clear H. revert st. induction n as [|n IH]; intros st; [reflexivity|].
    cbn [repeat fold_left]. now rewrite IH.
Qed.

Lemma countdown_after_ticks_witness :
  Countdown.countdowns
    (fold_left Countdown.step (repeat Countdown.Tick 20)
               Countdown.initialState) OT30s = 10%Z
  /\ Countdown.countdowns
       (fold_left Countdown.step (repeat Countdown.Tick 20)
                  Countdown.initialState) OT15s = 0%Z.
Proof.
  split.
  - refine (eq_trans
              (proj1 (countdown_after_ticks 20 Countdown.initialState
                        OT30s _)) _);
      [simpl; lia|reflexivity].
  - refine (proj1 (proj2 (countdown_after_ticks 20 Countdown.initialState
                            OT15s _)) _); simpl; lia.
Defined.

(** X27.  When the card receives predictions, the countdown of a horizon
    restarts at the horizon's length exactly if one of the predictions is
    of that horizon, carries a time stamp other than 0 and other than the
    one remembered for the horizon; every other countdown keeps its value.
    If no prediction is new in this sense, nothing changes at all, the
    remembered time stamps included. *)
Theorem onPredictions_restarts :
  forall predictions st tf,
    let st' := Countdown.onPredictions (Some predictions) st in
    let restarted tf :=
      existsb (fun p => Tracker.timeframe_eqb (ob_timeframe p) tf
                        && Countdown.isNew (Countdown.prevTimestamps st) p)
              predictions in
    Countdown.countdowns st' tf
    = (if restarted tf then Countdown.initialCountdowns tf
       else Countdown.countdowns st tf)
    /\ ((forall tf', restarted tf' = false) -> st' = st).
Proof.
  intros predictions st tf st' restarted. unfold st', Countdown.onPredictions.
  destruct (existsb (Countdown.isNew (Countdown.prevTimestamps st))
                    predictions) eqn:E.
  - split.
    + simpl. apply restart_spec.
    + intros Hnone. exfalso.
      apply existsb_exists in E as (p & Hin & Hnew).
      specialize (Hnone (ob_timeframe p)). unfold restarted in Hnone.
      assert (Hex : existsb
                      (fun q => Tracker.timeframe_eqb (ob_timeframe q)
                                  (ob_timeframe p)
                                && Countdown.isNew
                                     (Countdown.prevTimestamps st) q)
                      predictions = true).
      { apply existsb_exists. exists p. split; [exact Hin|].
        now rewrite timeframe_eqb_refl, Hnew. }
      congruence.
  - split; [|reflexivity].
    unfold restarted.
    destruct (existsb (fun p => Tracker.timeframe_eqb _ _ && _) predictions)
      eqn:E'; [|reflexivity].
    exfalso. apply existsb_exists in E' as (p & Hin & Hp).
    apply andb_true_iff in Hp as (_ & Hnew).
    assert (Hex : existsb (Countdown.isNew (Countdown.prevTimestamps st))
                          predictions = true)
      by (apply existsb_exists; exists p; auto).
    congruence.
Qed.

(** X28.  With at most one prediction per horizon (as in the three slots
    the session passes on), receiving the same predictions a second time
    changes nothing: no countdown restarts twice for one prediction. *)
Theorem onPredictions_idempotent :
  forall predictions st,
    NoDup (map ob_timeframe predictions) ->
    Countdown.onPredictions (Some predictions)
      (Countdown.onPredictions (Some predictions) st)
    = Countdown.onPredictions (Some predictions) st.
Proof.
  intros predictions st Hnd.
  unfold Countdown.onPredictions.
  destruct (existsb (Countdown.isNew (Countdown.prevTimestamps st))
                    predictions) eqn:E.
  - cbn [Countdown.prevTimestamps].
    assert (Hnone : existsb (Countdown.isNew
                               (Countdown.timestampsOf predictions))
                            predictions = false).
    { apply not_true_is_false. intros Hex.
      apply existsb_exists in Hex as (p & Hin & Hnew).
      rewrite (isNew_own _ _ Hnd Hin) in Hnew. discriminate. }
    now rewrite Hnone.
  - now rewrite E.
Qed.

Lemma onPredictions_idempotent_witness :
  let predictions :=
    [Heuristic.generateSmartOrderBookPrediction
       2500 TF15s Samples.strongBook (Some Samples.earlierBook) 1 None;
     Session.placeholder OT30s; Session.placeholder OT60s] in
  Countdown.onPredictions (Some predictions)
    (Countdown.onPredictions (Some predictions) Countdown.initialState)
  = Countdown.onPredictions (Some predictions) Countdown.initialState.
Proof.
  apply onPredictions_idempotent.
  repeat constructor; simpl; intuition discriminate.
Defined.

Lemma onPredictions_restarts_witness :
  Countdown.countdowns
    (Countdown.onPredictions
       (Some [Heuristic.generateSmartOrderBookPrediction
                2500 TF15s Samples.strongBook (Some Samples.earlierBook)
                1 None])
       (fold_left Countdown.step (repeat Countdown.Tick 4)
                  Countdown.initialState)) OT15s = 15%Z.
Proof.
  exact (proj1 (onPredictions_restarts _ _ OT15s)).
Defined.

(** ** The gradient of the imbalance chart *)

Section ChartFacts.

Lemma fold_max_in (rest : list Q) :
  forall x, In (fold_left Js.max rest x) (x :: rest).
Proof.
  induction rest as [|y rest IH]; intros x; simpl; [now left|].
  destruct (IH (Js.max x y)) as [H|H]; [|now right; right].
  rewrite <- H. unfold Js.max, Qmax, GenericMinMax.gmax.
  destruct (x ?= y); auto.
Qed.

Lemma fold_min_in (rest : list Q) :
  forall x, In (fold_left Js.min rest x) (x :: rest).
Proof.
  induction rest as [|y rest IH]; intros x; simpl; [now left|].
  destruct (IH (Js.min x y)) as [H|H]; [|now right; right].
  rewrite <- H. unfold Js.min, Qmin, GenericMinMax.gmin.
  destruct (x ?= y); auto.
Qed.

Lemma split_ratio (hi lo : Q) :
  0 < hi -> lo < 0 -> 0 < hi / (hi - lo) < 1.
Proof.
  intros Hhi Hlo. split.
  - apply Qlt_shift_div_l; lra.
  - apply Qlt_shift_div_r; lra.
Qed.

End ChartFacts.

(** X29.  The offset at which the chart's gradient changes colour lies in
    [0, 1].  It is 0 when no sample has a positive imbalance, and 1 when
    some sample has a positive imbalance and none a negative one.  With a
    positive and a negative sample it is [hi / (hi - lo)] for the largest
    imbalance [hi] and the smallest imbalance [lo] among the samples. *)
Theorem gradientOffset_spec :
  forall data,
    0 <= Chart.gradientOffset data <= 1
    /\ (Forall (fun d => Chart.chart_imbalance d <= 0) data ->
        Chart.gradientOffset data = 0)
    /\ (Forall (fun d => 0 <= Chart.chart_imbalance d) data ->
        Exists (fun d => 0 < Chart.chart_imbalance d) data ->
        Chart.gradientOffset data = 1)
    /\ (Exists (fun d => 0 < Chart.chart_imbalance d) data ->
        Exists (fun d => Chart.chart_imbalance d < 0) data ->
        exists hi lo,
          In hi (map Chart.chart_imbalance data)
          /\ In lo (map Chart.chart_imbalance data)
          /\ Forall (fun d => lo <= Chart.chart_imbalance d <= hi) data
          /\ Chart.gradientOffset data = hi / (hi - lo)).
Proof.
  intros data. unfold Chart.gradientOffset.
  rewrite <- (Forall_map Chart.chart_imbalance (fun y => y <= 0) data),
    <- (Forall_map Chart.chart_imbalance (fun y => 0 <= y) data),
    <- (Exists_map Chart.chart_imbalance (fun y => 0 < y) data),
    <- (Exists_map Chart.chart_imbalance (fun y => y < 0) data).
  assert (Hbounds : forall lo hi,
             Forall (fun d => lo <= Chart.chart_imbalance d <= hi) data
             <-> Forall (fun y => lo <= y <= hi)
                        (map Chart.chart_imbalance data))
    by (intros lo hi; symmetry;
        apply (Forall_map Chart.chart_imbalance (fun y => lo <= y <= hi))).
  destruct (map Chart.chart_imbalance data) as [|x rest].
  - simpl. split; [lra|]. split; [reflexivity|]. split.
    + intros _ H. inversion H.
    + intros H. inversion H.
  - cbn [Indicators.maxOf Indicators.minOf].
    destruct (fold_max_spec rest x) as [Hx HM].
    destruct (fold_min_spec rest x) as [Hx' Hm].
    pose proof (fold_max_in rest x) as HMin.
    pose proof (fold_min_in rest x) as Hmin.
    assert (Hall : Forall (fun y => y <= fold_left Js.max rest x) (x :: rest))
      by (constructor; assumption).
    assert (Hall' : Forall (fun y => fold_left Js.min rest x <= y) (x :: rest))
      by (constructor; assumption).
    clear Hx HM Hx' Hm.
    set (hi := fold_left Js.max rest x) in *.
    set (lo := fold_left Js.min rest x) in *.
    set (xs := x :: rest) in *. clearbody hi lo xs.
    rewrite Forall_forall in Hall, Hall'.
    destruct (Qle_bool hi 0) eqn:Ehi.
    + apply Qle_bool_iff in Ehi. split; [lra|]. split; [reflexivity|].
      split.
      * intros _ H. exfalso.
        apply Exists_exists in H as (y & Hy & Hpos).
        specialize (Hall y Hy). lra.
      * intros H _. exfalso.
        apply Exists_exists in H as (y & Hy & Hpos).
        specialize (Hall y Hy). lra.
    + assert (Hpos : 0 < hi).
      { apply Qnot_le_lt. intros H. apply Qle_bool_iff in H. congruence. }
      clear Ehi.
      destruct (Qle_bool 0 lo) eqn:Elo.
      * apply Qle_bool_iff in Elo. split; [lra|]. split.
        -- intros H. exfalso. rewrite Forall_forall in H.
           specialize (H hi HMin). lra.
        -- split; [reflexivity|].
           intros _ H. exfalso.
           apply Exists_exists in H as (y & Hy & Hneg).
           specialize (Hall' y Hy). lra.
      * assert (Hneg : lo < 0).
        { apply Qnot_le_lt. intros H. apply Qle_bool_iff in H. congruence. }
        clear Elo.
        destruct (split_ratio hi lo Hpos Hneg) as [H0 H1].
        split; [lra|]. split.
        -- intros H. exfalso. rewrite Forall_forall in H.
           specialize (H hi HMin). lra.
        -- split.
           ++ intros H. exfalso. rewrite Forall_forall in H.
              specialize (H lo Hmin). lra.
           ++ intros _ _. exists hi, lo.
              split; [exact HMin|]. split; [exact Hmin|].
              split; [|reflexivity].
              apply Hbounds, Forall_forall. intros y Hy.
              split; [apply Hall'|apply Hall]; exact Hy.
Qed.

Lemma gradientOffset_spec_witness :
  0 <= Chart.gradientOffset MoreSamples.chartData <= 1
  /\ exists hi lo,
       Forall (fun d => lo <= Chart.chart_imbalance d <= hi)
              MoreSamples.chartData
       /\ Chart.gradientOffset MoreSamples.chartData = hi / (hi - lo).
Proof.
  destruct (gradientOffset_spec MoreSamples.chartData)
    as (Hr & _ & _ & Hmixed).
  split; [exact Hr|].
  destruct Hmixed as (hi & lo & _ & _ & Hb & Ho).
  - apply Exists_cons_hd. simpl. reflexivity.
  - apply Exists_cons_tl, Exists_cons_hd. simpl. reflexivity.
  - exists hi, lo. split; [exact Hb | exact Ho].
Defined.
